(** * The hook generator's asynchronous job tracker

    A shallow embedding of [HookGenerator.py] (the Dash callbacks that start,
    poll, display and clear generation jobs) and of [model_serving_utils.py]
    (the calls to the model-serving endpoints and the thumbnail payload
    construction), with the properties of the job registry, of the job ids
    and of the textual thumbnail payload. *)

From Stdlib Require Import ZArith NArith List Bool Lia Ascii String.
From Stdlib Require Import Decimal DecimalString DecimalZ.
From stdpp Require Import base option list gmap.

Local Open Scope N_scope.

(** ** Python text

    A Python [str] is a sequence of Unicode code points.  The literals of the
    source that are plain ASCII are written as Rocq strings and converted with
    [lit]; the three non-ASCII characters the source uses are given by their
    code points. *)

Abbreviation str := (list N).

Definition lit (s : string) : str :=
  map N_of_ascii (list_ascii_of_string s).

Definition NL : N := 10.
Definition CROSS_MARK : N := 10060.     (* U+274C, the cross mark *)
Definition PALETTE : N := 127912.       (* U+1F3A8, the artist palette *)

(** [str.isspace] on one character, which is also what [str.strip()] without
    argument and the pattern [\s] use. *)
Definition isspace (c : N) : bool :=
  ((9 <=? c) && (c <=? 13)) || ((28 <=? c) && (c <=? 32))
  || (c =? 133) || (c =? 160) || (c =? 5760)
  || ((8192 <=? c) && (c <=? 8202))
  || (c =? 8232) || (c =? 8233) || (c =? 8239) || (c =? 8287) || (c =? 12288).

Fixpoint lstrip (s : str) : str :=
  match s with
  | c :: s' => if isspace c then lstrip s' else s
  | [] => []
  end.

Definition rstrip (s : str) : str := rev (lstrip (rev s)).

(** [s.strip()] *)
Definition strip (s : str) : str := rstrip (lstrip s).

(** [str(n)] for an [int]. *)
Definition str_of_int (n : Z) : str := lit (NilZero.string_of_int (Z.to_int n)).

Fixpoint str_eqb (a b : str) : bool :=
  match a, b with
  | [], [] => true
  | x :: a', y :: b' => (x =? y) && str_eqb a' b'
  | _, _ => false
  end.

(** [s.startswith(p)] *)
Fixpoint startswith (p s : str) : bool :=
  match p, s with
  | [], _ => true
  | x :: p', y :: s' => (x =? y) && startswith p' s'
  | _ :: _, [] => false
  end.

(** [sub in s] for two texts. *)
Fixpoint contains (sub s : str) : bool :=
  startswith sub s ||
  match s with
  | [] => false
  | _ :: s' => contains sub s'
  end.

(** [s.split(sep)] for a non-empty [sep]: the text is scanned from the left,
    [cur] holds the part being read (reversed) and [skip] the number of
    characters of a separator just recognised that are still to be passed. *)
Fixpoint split_go (sep : str) (skip : nat) (cur : str) (s : str) : list str :=
  match s with
  | [] => [rev cur]
  | c :: s' =>
      match skip with
      | S n => split_go sep n cur s'
      | O =>
          if startswith sep s
          then rev cur :: split_go sep (length sep - 1) [] s'
          else split_go sep 0 (c :: cur) s'
      end
  end.

Definition split (sep s : str) : list str := split_go sep 0 [] s.

(** [c * n] for a one-character text. *)
Definition times (c : N) (n : nat) : str := repeat c n.

(** [''.join(parts)] for a list of texts. *)
Definition join (parts : list str) : str := concat parts.

(** [s.replace(old, new)] for a non-empty [old]: the text is scanned from
    the left, and [skip] is the number of characters of an occurrence just
    replaced that are still to be passed. *)
Fixpoint replace_go (old new : str) (skip : nat) (s : str) : str :=
  match s with
  | [] => []
  | c :: s' =>
      match skip with
      | S n => replace_go old new n s'
      | O =>
          if startswith old s
          then new ++ replace_go old new (length old - 1) s'
          else c :: replace_go old new 0 s'
      end
  end.

Definition replace (old new s : str) : str := replace_go old new 0 s.

(** ** Values exchanged with the endpoints

    What the deployment client returns is decoded JSON; the code inspects it
    with [in], subscripts, [.get], [isinstance], [len] and its truth value.
    Objects are kept as association lists in key order. *)

#[warnings="-register-all"]
Inductive pyval : Type :=
| PNone
| PBool (b : bool)
| PInt (z : Z)
| PStr (s : str)
| PList (l : list pyval)
| PDict (d : list (str * pyval)).

(** The run-time errors the interpreter raises for these operations. *)
Inductive interp_error : Type :=
| NotIterable (v : pyval)            (* [k in v]: TypeError *)
| NotSubscriptable (v : pyval)       (* [v[i]]: TypeError *)
| BadIndexType (v : pyval)           (* a list or text subscripted by a text *)
| IndexOutOfRange (v : pyval)        (* IndexError *)
| KeyMissing (k : pyval)             (* KeyError *)
| NoAttribute (v : pyval)            (* [v.get]: AttributeError *)
| NoLen (v : pyval)                  (* [len(v)]: TypeError *)
| JoinNonText (v : pyval)            (* [''.join]: TypeError *)
| NotText (v : pyval).               (* [re.findall] on a non-text: TypeError *)

Inductive exn : Type :=
| Exception (msg : str)              (* [Exception(msg)], and whatever a client raises, with its text *)
| Interp (e : interp_error).

Inductive outcome (A : Type) : Type :=
| Ok (a : A)
| Raise (e : exn).
Arguments Ok {A} a.
Arguments Raise {A} e.

Definition bind {A B : Type} (m : outcome A) (f : A -> outcome B) : outcome B :=
  match m with
  | Ok a => f a
  | Raise e => Raise e
  end.

Notation "x <- m ;; k" := (bind m (fun x => k))
  (at level 100, m at next level, right associativity).

(** What the interpreter and its Unicode tables supply: the characters that
    [\d] accepts, the text of its own errors, and the text of a value that is
    not a text when it is formatted into one. *)
Record Interpreter : Type := {
  isdecimal : N -> bool;
  error_text : interp_error -> str;
  format_other : pyval -> str
}.

Fixpoint assoc (k : str) (d : list (str * pyval)) : option pyval :=
  match d with
  | [] => None
  | (k', v) :: d' => if str_eqb k k' then Some v else assoc k d'
  end.

Definition is_text (t : str) (v : pyval) : bool :=
  match v with
  | PStr s => str_eqb s t
  | _ => false
  end.

(** [k in v] for a text [k]. *)
Definition py_in (k : str) (v : pyval) : outcome bool :=
  match v with
  | PDict d => Ok (match assoc k d with Some _ => true | None => false end)
  | PList l => Ok (existsb (is_text k) l)
  | PStr s => Ok (contains k s)
  | _ => Raise (Interp (NotIterable v))
  end.

(** [v[k]] for a text [k]. *)
Definition getitem (v : pyval) (k : str) : outcome pyval :=
  match v with
  | PDict d =>
      match assoc k d with
      | Some x => Ok x
      | None => Raise (Interp (KeyMissing (PStr k)))
      end
  | PList _ | PStr _ => Raise (Interp (BadIndexType v))
  | _ => Raise (Interp (NotSubscriptable v))
  end.

(** [v[0]] *)
Definition getitem_first (v : pyval) : outcome pyval :=
  match v with
  | PList (x :: _) => Ok x
  | PStr (c :: _) => Ok (PStr [c])
  | PList [] | PStr [] => Raise (Interp (IndexOutOfRange v))
  | PDict _ => Raise (Interp (KeyMissing (PInt 0)))
  | _ => Raise (Interp (NotSubscriptable v))
  end.

(** [v[-1]] *)
Definition getitem_last (v : pyval) : outcome pyval :=
  match v with
  | PList l =>
      match last l with
      | Some x => Ok x
      | None => Raise (Interp (IndexOutOfRange v))
      end
  | PStr s =>
      match last s with
      | Some c => Ok (PStr [c])
      | None => Raise (Interp (IndexOutOfRange v))
      end
  | PDict _ => Raise (Interp (KeyMissing (PInt (-1))))
  | _ => Raise (Interp (NotSubscriptable v))
  end.

(** [v.get(k, default)] *)
Definition py_get (v : pyval) (k : str) (default : pyval) : outcome pyval :=
  match v with
  | PDict d => Ok (match assoc k d with Some x => x | None => default end)
  | _ => Raise (Interp (NoAttribute v))
  end.

(** Truth value. *)
Definition truthy (v : pyval) : bool :=
  match v with
  | PNone => false
  | PBool b => b
  | PInt z => negb (z =? 0)%Z
  | PStr s => match s with [] => false | _ => true end
  | PList l => match l with [] => false | _ => true end
  | PDict d => match d with [] => false | _ => true end
  end.

(** [len(v)] *)
Definition py_len (v : pyval) : outcome nat :=
  match v with
  | PStr s => Ok (length s)
  | PList l => Ok (length l)
  | PDict d => Ok (length d)
  | _ => Raise (Interp (NoLen v))
  end.

(** [''.join(items)] *)
Fixpoint join_values (items : list pyval) : outcome str :=
  match items with
  | [] => Ok []
  | PStr s :: rest => r <- join_values rest ;; Ok (s ++ r)
  | v :: _ => Raise (Interp (JoinNonText v))
  end.

Section Python.

Variable py : Interpreter.

(** [str(e)] *)
Definition str_of_exn (e : exn) : str :=
  match e with
  | Exception msg => msg
  | Interp ie => error_text py ie
  end.

(** [f'{v}'] *)
Definition format_value (v : pyval) : str :=
  match v with
  | PStr s => s
  | _ => format_other py v
  end.

(** ** Regular expressions

    The two patterns of the source, as syntax trees, and a backtracking
    matcher with the search order of [re]: alternatives left to right, a
    greedy repetition tries one more iteration first and a lazy one tries the
    rest of the pattern first.  Both patterns are compiled with [re.DOTALL],
    so [.] accepts every character, and without [re.MULTILINE], so [$] holds
    at the end of the text and before a newline that ends it. *)

Inductive regex : Type :=
| RChar (c : N)
| RAny
| RDigit
| RSpace
| REnd
| REps
| RSeq (a b : regex)
| RAlt (a b : regex)
| RStar (greedy : bool) (a : regex)
| RGroup (a : regex)                 (* the capturing group; each pattern has one *)
| RAhead (a : regex).                (* [(?=...)] *)

Fixpoint RLit (s : str) : regex :=
  match s with
  | [] => REps
  | c :: s' => RSeq (RChar c) (RLit s')
  end.

Definition RPlus (greedy : bool) (a : regex) : regex := RSeq a (RStar greedy a).

(** A match in progress: what is left of the text, and the text of the
    group once it has been closed. *)
Definition cont : Type := str -> option str -> option (str * option str).

Definition or_else {A : Type} (x y : option A) : option A :=
  match x with
  | Some _ => x
  | None => y
  end.

Definition one_char (p : N -> bool) (k : cont) (s : str) (cap : option str)
    : option (str * option str) :=
  match s with
  | c :: s' => if p c then k s' cap else None
  | [] => None
  end.

(** The loop of a repetition: [body] matches one iteration.  An iteration
    has to consume something, so the length of the text bounds their number;
    the bodies of the repetitions used here consume exactly one character. *)
Fixpoint star_loop (body : cont -> cont) (greedy : bool) (k : cont)
    (fuel : nat) (s : str) (cap : option str) : option (str * option str) :=
  match fuel with
  | O => k s cap
  | S fuel' =>
      let again :=
        body (fun s' cap' =>
                if (length s' <? length s)%nat
                then star_loop body greedy k fuel' s' cap' else None) s cap in
      if greedy then or_else again (k s cap)
      else or_else (k s cap) again
  end.

Fixpoint rmatch (r : regex) (k : cont) (s : str) (cap : option str)
    : option (str * option str) :=
  match r with
  | RChar c => one_char (N.eqb c) k s cap
  | RAny => one_char (fun _ => true) k s cap
  | RDigit => one_char (isdecimal py) k s cap
  | RSpace => one_char isspace k s cap
  | REnd =>
      match s with
      | [] => k s cap
      | [c] => if c =? NL then k s cap else None
      | _ => None
      end
  | REps => k s cap
  | RSeq a b => rmatch a (fun s' cap' => rmatch b k s' cap') s cap
  | RAlt a b => or_else (rmatch a k s cap) (rmatch b k s cap)
  | RStar greedy a => star_loop (rmatch a) greedy k (length s) s cap
  | RGroup a =>
      rmatch a (fun s' _ => k s' (Some (take (length s - length s') s))) s cap
  | RAhead a =>
      match rmatch a (fun s' cap' => Some (s', cap')) s cap with
      | Some (_, cap') => k s cap'
      | None => None
      end
  end.

(** [pattern.match] at the head of [s]: the rest of the text after the match
    and the text of the group. *)
Definition match_here (r : regex) (s : str) : option (str * option str) :=
  rmatch r (fun s' cap => Some (s', cap)) s None.

Definition group_text (cap : option str) : str :=
  match cap with
  | Some t => t
  | None => []
  end.

(** [re.findall] for a pattern with one group: the texts of the group in the
    successive non-overlapping matches, leftmost first.  [skip] counts the
    characters of the last match that are still to be passed. *)
Fixpoint findall_go (r : regex) (skip : nat) (s : str) : list str :=
  match s with
  | [] =>
      match skip, match_here r [] with
      | O, Some (_, cap) => [group_text cap]
      | _, _ => []
      end
  | _ :: s' =>
      match skip with
      | S n => findall_go r n s'
      | O =>
          match match_here r s with
          | Some (rest, cap) =>
              group_text cap :: findall_go r (length s - length rest - 1) s'
          | None => findall_go r 0 s'
          end
      end
  end.

Definition findall (r : regex) (s : str) : list str := findall_go r 0 s.

(** [r'IMAGE_DESCRIPTION:\s*(.+?)(?=\n\n|\n\d+\.|$)'] *)
Definition IMAGE_DESCRIPTION_RE : regex :=
  RSeq (RLit (lit "IMAGE_DESCRIPTION:"))
  (RSeq (RStar true RSpace)
  (RSeq (RGroup (RPlus false RAny))
        (RAhead (RAlt (RLit [NL; NL])
                (RAlt (RSeq (RChar NL) (RSeq (RPlus true RDigit) (RChar 46)))
                      REnd))))).

(** [r'Image \d+:\n\[BASE64_IMAGE_DATA\]\n(.+?)\n\[END_IMAGE_DATA\]'] *)
Definition IMAGE_BLOCK_RE : regex :=
  RSeq (RLit (lit "Image "))
  (RSeq (RPlus true RDigit)
  (RSeq (RLit (lit ":" ++ [NL] ++ lit "[BASE64_IMAGE_DATA]" ++ [NL]))
  (RSeq (RGroup (RPlus false RAny))
        (RLit ([NL] ++ lit "[END_IMAGE_DATA]"))))).

(** ** [model_serving_utils.py] *)

(** The services the module calls.  [endpoint_task] is
    [WorkspaceClient().serving_endpoints.get(name).task]; [chat_predict] is
    [get_deploy_client('databricks').predict] on the chat endpoint, given the
    endpoint, the messages and [max_tokens]; [image_predict] is the same call
    on the image endpoint, given the position of the call and the prompt.
    Each one returns a value or raises. *)
Record Remote : Type := {
  endpoint_task : str -> outcome pyval;
  chat_predict : str -> pyval -> Z -> outcome pyval;
  image_predict : nat -> str -> outcome pyval
}.

(** The two [system_prompt] literals; no property depends on their text. *)
Variable hooks_system_prompt : str.
Variable thumbnails_system_prompt : str.

Section Services.

Variable remote : Remote.

Definition _get_endpoint_task_type (endpoint_name : str) : outcome pyval :=
  endpoint_task remote endpoint_name.

Definition supported_task_types : list str :=
  [lit "agent/v1/chat"; lit "agent/v2/chat"; lit "llm/v1/chat"].

Definition is_endpoint_supported (endpoint_name : str) : outcome bool :=
  task_type <- _get_endpoint_task_type endpoint_name ;;
  Ok (existsb (fun t => is_text t task_type) supported_task_types).

Definition UNSUPPORTED_ENDPOINT : str :=
  lit "Detected unsupported endpoint type for this basic chatbot template. "
  ++ lit "This chatbot template only supports chat completions-compatible endpoints. "
  ++ lit "For a richer chatbot template with support for all conversational endpoints on Databricks, "
  ++ lit "see https://docs.databricks.com/aws/en/generative-ai/agent-framework/chat-app".

Definition _validate_endpoint_task_type (endpoint_name : str) : outcome unit :=
  supported <- is_endpoint_supported endpoint_name ;;
  if supported then Ok tt else Raise (Exception UNSUPPORTED_ENDPOINT).

Definition UNSUPPORTED_RESPONSE : str :=
  lit "This app can only run against:"
  ++ lit "1) Databricks foundation model or external model endpoints with the chat task type (described in https://docs.databricks.com/aws/en/machine-learning/model-serving/score-foundation-models#chat-completion-model-query)"
  ++ lit "2) Databricks agent serving endpoints that implement the conversational agent schema documented "
  ++ lit "in https://docs.databricks.com/aws/en/generative-ai/agent-framework/author-agent".

(** [[part.get("text", "") for part in choice_content if part.get("type") == "text"]] *)
Fixpoint text_parts (choice_content : list pyval) : outcome (list pyval) :=
  match choice_content with
  | [] => Ok []
  | part :: rest =>
      ty <- py_get part (lit "type") PNone ;;
      if is_text (lit "text") ty
      then (t <- py_get part (lit "text") (PStr []) ;;
            r <- text_parts rest ;;
            Ok (t :: r))
      else text_parts rest
  end.

Definition _query_endpoint (endpoint_name : str) (messages : pyval) (max_tokens : Z)
    : outcome pyval :=
  valid <- _validate_endpoint_task_type endpoint_name ;;
  res <- chat_predict remote endpoint_name messages max_tokens ;;
  has_messages <- py_in (lit "messages") res ;;
  if has_messages then getitem res (lit "messages")
  else
    has_choices <- py_in (lit "choices") res ;;
    if has_choices then
      choices <- getitem res (lit "choices") ;;
      choice <- getitem_first choices ;;
      choice_message <- getitem choice (lit "message") ;;
      choice_content <- py_get choice_message (lit "content") PNone ;;
      match choice_content with
      | PList parts =>
          texts <- text_parts parts ;;
          combined_content <- join_values texts ;;
          role <- py_get choice_message (lit "role") PNone ;;
          Ok (PList [PDict [(lit "role", role);
                            (lit "content", PStr combined_content)]])
      | PStr _ => Ok (PList [choice_message])
      | _ => Raise (Exception UNSUPPORTED_RESPONSE)
      end
    else Raise (Exception UNSUPPORTED_RESPONSE).

Definition query_endpoint (endpoint_name : str) (messages : pyval) (max_tokens : Z)
    : outcome pyval :=
  msgs <- _query_endpoint endpoint_name messages max_tokens ;;
  getitem_last msgs.

(** [_generate_image(prompt)]; [call] is the position of the call among the
    image requests of one payload.  Whatever is raised inside is caught and
    turned into the empty text (the message printed then is not modelled). *)
Definition _generate_image (call : nat) (prompt : str) : pyval :=
  let attempt :=
    response <- image_predict remote call prompt ;;
    match response with
    | PDict d =>
        match assoc (lit "data") d with
        | Some images =>
            if truthy images then
              (n <- py_len images ;;
               if (0 <? n)%nat then
                 (first <- getitem_first images ;;
                  py_get first (lit "b64_json") (PStr []))
               else Ok (PStr []))
            else Ok (PStr [])
        | None => Ok (PStr [])
        end
    | _ => Ok (PStr [])
    end in
  match attempt with
  | Ok image => image
  | Raise _ => PStr []
  end.

Definition chat_messages (system_prompt blog_content : str) : pyval :=
  PList [PDict [(lit "role", PStr (lit "system")); (lit "content", PStr system_prompt)];
         PDict [(lit "role", PStr (lit "user"));
                (lit "content", PStr (lit "BLOG_CONTENT:" ++ [NL; NL] ++ blog_content))]].

Definition NO_CONTENT : str := lit "Error: No content in response".

Definition GENERATED_IMAGES : str := PALETTE :: lit " GENERATED IMAGES".

(** ["\n\n" + "="*50 + "\n🎨 GENERATED IMAGES\n" + "="*50 + "\n\n"] *)
Definition IMAGES_HEADER : str :=
  [NL; NL] ++ times 61 50 ++ [NL] ++ GENERATED_IMAGES ++ [NL] ++ times 61 50 ++ [NL; NL].

(** The text appended for the image of rank [idx]. *)
Definition image_block (idx : nat) (image_b64 : pyval) : str :=
  if truthy image_b64
  then lit "Image " ++ str_of_int (Z.of_nat idx) ++ lit ":" ++ [NL]
       ++ lit "[BASE64_IMAGE_DATA]" ++ [NL] ++ format_value image_b64 ++ [NL]
       ++ lit "[END_IMAGE_DATA]" ++ [NL; NL]
  else lit "Image " ++ str_of_int (Z.of_nat idx) ++ lit ": " ++ [CROSS_MARK]
       ++ lit " Failed to generate" ++ [NL; NL].

(** The loop [for idx, desc in enumerate(descriptions[:2], 1)], from rank
    [idx] on (the progress line it prints is not modelled). *)
Fixpoint image_blocks (idx : nat) (descriptions : list str) : list str :=
  match descriptions with
  | [] => []
  | desc :: rest =>
      let desc_clean := strip desc in
      let image_b64 := _generate_image idx desc_clean in
      image_block idx image_b64 :: image_blocks (S idx) rest
  end.

(** Step 1 of [generate_thumbnails]: the concepts text. *)
Definition thumbnail_concepts (endpoint_name blog_content : str) : outcome pyval :=
  let messages := chat_messages thumbnails_system_prompt blog_content in
  let max_tokens := 65536%Z in
  msgs <- _query_endpoint endpoint_name messages max_tokens ;;
  response <- getitem_last msgs ;;
  py_get response (lit "content") (PStr NO_CONTENT).

Definition generate_thumbnails (endpoint_name blog_content : str) : outcome str :=
  let attempt :=
    concepts_text <- thumbnail_concepts endpoint_name blog_content ;;
    match concepts_text with
    | PStr text =>
        let descriptions := findall IMAGE_DESCRIPTION_RE text in
        let result_parts :=
          [text; IMAGES_HEADER] ++ image_blocks 1 (take 2 descriptions) in
        Ok (join result_parts)
    | _ => Raise (Interp (NotText concepts_text))
    end in
  match attempt with
  | Ok r => Ok r
  | Raise e => Raise (Exception (lit "Failed to generate thumbnails: " ++ str_of_exn e))
  end.

Definition generate_hooks (endpoint_name blog_content : str) : outcome pyval :=
  let messages := chat_messages hooks_system_prompt blog_content in
  let max_tokens := 65536%Z in
  let attempt :=
    msgs <- _query_endpoint endpoint_name messages max_tokens ;;
    response <- getitem_last msgs ;;
    py_get response (lit "content") (PStr NO_CONTENT) in
  match attempt with
  | Ok r => Ok r
  | Raise e => Raise (Exception (lit "Failed to generate hooks: " ++ str_of_exn e))
  end.

End Services.

(** ** [HookGenerator.py]: the process state *)

Inductive Status : Set := generating | complete | error.

(** An entry [{'status': ..., 'result': ...}] of [self.generation_status]. *)
Record Job : Type := mkJob { status : Status; result : pyval }.

Inductive Kind : Set := hooks | thumbnails.

(** A started thread: the closure [generate_in_background] with the
    variables it has captured. *)
Record Thread : Type := mkThread {
  target_kind : Kind;
  target_gen_id : str;
  target_blog_content : str
}.

(** The [HookGenerator] object ([self]) and the threads it has started that
    have not finished. *)
Record Process : Type := mkProcess {
  endpoint_name : str;
  generation_status : gmap str Job;
  threads : list Thread
}.

(** [self.generation_status[gen_id] = job] *)
Definition registry_set (gen_id : str) (job : Job) (p : Process) : Process :=
  mkProcess (endpoint_name p) (<[gen_id := job]> (generation_status p)) (threads p).

(** [del self.generation_status[gen_id]] *)
Definition registry_del (gen_id : str) (p : Process) : Process :=
  mkProcess (endpoint_name p) (delete gen_id (generation_status p)) (threads p).

(** [threading.Thread(target=..., daemon=True).start()] *)
Definition thread_start (t : Thread) (p : Process) : Process :=
  mkProcess (endpoint_name p) (generation_status p) (threads p ++ [t]).

(** ** The callbacks *)

(** The value of a callback output: [dash.no_update] or a new value. *)
Inductive update (A : Type) : Type :=
| no_update
| set (a : A).
#[global] Arguments no_update {A}.
#[global] Arguments set {A} a.

(** [{'display': 'none'}] and [{'display': 'block'}] *)
Inductive style : Set := display_none | display_block.

(** [not blog_content or not blog_content.strip()] *)
Definition blank (blog_content : option str) : bool :=
  match blog_content with
  | None => true
  | Some [] => true
  | Some s => match strip s with [] => true | _ => false end
  end.

Definition ERROR_PREFIX : str := CROSS_MARK :: lit " Error: ".

(** [f"gen_{n_clicks}_{time.time()}"] and [f"thumb_{n_clicks}_{time.time()}"];
    [now] is the text of the clock reading. *)
Definition make_gen_id (k : Kind) (n_clicks : Z) (now : str) : str :=
  match k with
  | hooks => lit "gen_" ++ str_of_int n_clicks ++ lit "_" ++ now
  | thumbnails => lit "thumb_" ++ str_of_int n_clicks ++ lit "_" ++ now
  end.

Definition start_outputs : Type :=
  update (option str) * update style * update style * update bool * update Z.

Definition text_of (blog_content : option str) : str :=
  match blog_content with
  | Some s => s
  | None => []
  end.

Definition rejected : start_outputs :=
  (set None, set display_none, set display_block, set true, set 0%Z).

Definition started (gen_id : str) : start_outputs :=
  (set (Some gen_id), set display_block, set display_none, set false, set 0%Z).

Definition untouched : start_outputs :=
  (no_update, no_update, no_update, no_update, no_update).

(** Callbacks 1 and 5.  The registry entry is written first, the thread is
    started next, and the outputs are returned last. *)
Definition start_generation (n_clicks : Z) (blog_content : option str)
    (now : str) (p : Process) : start_outputs * Process :=
  if blank blog_content then (rejected, p)
  else if (0 <? n_clicks)%Z then
    let gen_id := make_gen_id hooks n_clicks now in
    let p1 := registry_set gen_id (mkJob generating PNone) p in
    let p2 := thread_start (mkThread hooks gen_id (text_of blog_content)) p1 in
    (started gen_id, p2)
  else (untouched, p).

Definition start_thumbnail_generation (n_clicks : Z) (blog_content : option str)
    (now : str) (p : Process) : start_outputs * Process :=
  if blank blog_content then (rejected, p)
  else if (0 <? n_clicks)%Z then
    let gen_id := make_gen_id thumbnails n_clicks now in
    let p1 := registry_set gen_id (mkJob generating PNone) p in
    let p2 := thread_start (mkThread thumbnails gen_id (text_of blog_content)) p1 in
    (started gen_id, p2)
  else (untouched, p).

(** The call a thread of kind [k] makes: [generate_hooks] or
    [generate_thumbnails]. *)
Definition generate_for (remote : Remote) (k : Kind) (endpoint blog_content : str)
    : outcome pyval :=
  match k with
  | hooks => generate_hooks remote endpoint blog_content
  | thumbnails =>
      match generate_thumbnails remote endpoint blog_content with
      | Ok text => Ok (PStr text)
      | Raise e => Raise e
      end
  end.

(** The body of a thread, run against the services as they answer it. *)
Definition generate_in_background (remote : Remote) (t : Thread) (p : Process)
    : Process :=
  match generate_for remote (target_kind t) (endpoint_name p) (target_blog_content t) with
  | Ok r => registry_set (target_gen_id t) (mkJob complete r) p
  | Raise e =>
      registry_set (target_gen_id t)
        (mkJob error (PStr (ERROR_PREFIX ++ str_of_exn e))) p
  end.

Definition is_terminal (s : Status) : bool :=
  match s with
  | complete | error => true
  | generating => false
  end.

(** Callbacks 2 and 6: the values for [...-generation-result.data] and
    [...-check-interval.disabled]. *)
Definition check_generation_status (n_intervals : Z) (gen_id : option str)
    (p : Process) : (pyval * bool) * Process :=
  match gen_id with
  | Some (c :: id') =>
      let id := c :: id' in
      match generation_status p !! id with
      | None => ((PNone, true), p)
      | Some status_info =>
          if is_terminal (status status_info)
          then ((result status_info, true), registry_del id p)
          else ((PNone, false), p)
      end
  | _ => ((PNone, true), p)
  end.

Definition check_thumbnail_generation_status (n_intervals : Z)
    (gen_id : option str) (p : Process) : (pyval * bool) * Process :=
  match gen_id with
  | Some (c :: id') =>
      let id := c :: id' in
      match generation_status p !! id with
      | None => ((PNone, true), p)
      | Some status_info =>
          if is_terminal (status status_info)
          then ((result status_info, true), registry_del id p)
          else ((PNone, false), p)
      end
  | _ => ((PNone, true), p)
  end.

(** Callback 3 *)
Definition display_results (result : pyval)
    : update pyval * update style * update style * update pyval :=
  match result with
  | PNone => (no_update, no_update, no_update, no_update)
  | _ => (set result, set display_none, set display_block, set result)
  end.

(** Callback 4; [if n_clicks:] *)
Definition clear_all (n_clicks : Z)
    : update (option str) * update style * update pyval :=
  if (n_clicks =? 0)%Z then (no_update, no_update, no_update)
  else (set (Some []), set display_none, set PNone).

(** Callback 8 *)
Definition clear_thumbnails (n_clicks : Z) : update style * update pyval :=
  if (n_clicks =? 0)%Z then (no_update, no_update)
  else (set display_none, set PNone).

(** The components callback 7 builds, without their styling:
    the concepts section, the heading of the images, and one image. *)
Inductive component : Type :=
| ThumbnailConcepts (text : str)
| GeneratedImagesHeading
| ThumbnailImage (label : str) (src : str).

(** The loop [for idx, img_b64 in enumerate(image_matches, 1)] *)
Fixpoint thumbnail_images (idx : nat) (image_matches : list str) : list component :=
  match image_matches with
  | [] => []
  | img_b64 :: rest =>
      let img_b64_clean := strip img_b64 in
      match img_b64_clean with
      | [] => thumbnail_images (S idx) rest
      | _ =>
          ThumbnailImage (lit "Thumbnail " ++ str_of_int (Z.of_nat idx))
                         (lit "data:image/png;base64," ++ img_b64_clean)
          :: thumbnail_images (S idx) rest
      end
  end.

Definition thumbnail_outputs : Type :=
  update (list component) * update style * update style * update str.

(** Callback 7, on a text result. *)
Definition display_thumbnail_text (result : str) : thumbnail_outputs :=
  let parts := split GENERATED_IMAGES result in
  let concepts_text := match parts with p0 :: _ => p0 | [] => result end in
  let images_section := match parts with _ :: p1 :: _ => p1 | _ => [] end in
  let image_matches := findall IMAGE_BLOCK_RE result in
  let output_children :=
    [ThumbnailConcepts (strip concepts_text)]
    ++ match image_matches with
       | [] => []
       | _ => GeneratedImagesHeading :: thumbnail_images 1 image_matches
       end in
  let store_data := strip concepts_text in
  (set output_children, set display_none, set display_block, set store_data).

(** Callback 7; a result that is neither [None] nor a text has no [split]. *)
Definition display_thumbnail_results (result : pyval) : outcome thumbnail_outputs :=
  match result with
  | PNone => Ok (no_update, no_update, no_update, no_update)
  | PStr text => Ok (display_thumbnail_text text)
  | _ => Raise (Interp (NoAttribute result))
  end.

(** ** The page and the wiring of the callbacks

    The properties of the components that the callbacks read and write.  Each
    of the two generators has a button, a trigger store, a result store, an
    interval, an output container, an output element and an output store. *)

Record Panel (C S : Type) : Type := mkPanel {
  n_clicks : Z;                      (* the button *)
  trigger : option str;              (* [...generation-trigger.data] *)
  result_data : pyval;               (* [...generation-result.data] *)
  interval_disabled : bool;          (* [...check-interval.disabled] *)
  n_intervals : Z;                   (* [...check-interval.n_intervals] *)
  container_style : style;           (* [...output-container.style] *)
  children : C;                      (* [...output-text.children] *)
  store : S                          (* [...output-store.data] *)
}.
#[global] Arguments mkPanel {C S}.
#[global] Arguments n_clicks {C S}.
#[global] Arguments trigger {C S}.
#[global] Arguments result_data {C S}.
#[global] Arguments interval_disabled {C S}.
#[global] Arguments n_intervals {C S}.
#[global] Arguments container_style {C S}.
#[global] Arguments children {C S}.
#[global] Arguments store {C S}.

Record Browser : Type := mkBrowser {
  blog_input : option str;           (* [blog-input.value] *)
  clear_clicks : Z;                  (* [clear-button.n_clicks] *)
  loading_style : style;             (* [loading-container.style] *)
  hook_panel : Panel pyval pyval;
  thumbnail_panel : Panel (option (list component)) (option str)
}.

Record App : Type := mkApp { process : Process; browser : Browser }.

(** The layout of [_create_layout] and the empty registry of [__init__]. *)
Definition initial_panel {C S : Type} (c : C) (s : S) : Panel C S :=
  mkPanel 0%Z None PNone true 0%Z display_none c s.

Definition initial_app (endpoint : str) : App :=
  mkApp (mkProcess endpoint ∅ [])
        (mkBrowser None 0%Z display_none
                   (initial_panel PNone PNone) (initial_panel None None)).

Definition apply {A : Type} (u : update A) (old : A) : A :=
  match u with
  | no_update => old
  | set a => a
  end.

(** The outputs of a start callback, written to the page. *)
Definition apply_start {C S : Type} (o : start_outputs) (clicks : Z) (pn : Panel C S)
    : Panel C S :=
  let '(o_trigger, _, o_container, o_disabled, o_n) := o in
  mkPanel clicks (apply o_trigger (trigger pn)) (result_data pn)
          (apply o_disabled (interval_disabled pn)) (apply o_n (n_intervals pn))
          (apply o_container (container_style pn)) (children pn) (store pn).

Definition loading_of (o : start_outputs) (old : style) : style :=
  let '(_, o_loading, _, _, _) := o in apply o_loading old.

(** The outputs of a check callback, written to the page. *)
Definition apply_check {C S : Type} (o : pyval * bool) (pn : Panel C S) : Panel C S :=
  mkPanel (n_clicks pn) (trigger pn) (fst o) (snd o) (n_intervals pn)
          (container_style pn) (children pn) (store pn).

(** Callback 3 runs when [generation-result.data] is written. *)
Definition run_display_results (b : Browser) : Browser :=
  let pn := hook_panel b in
  let '(o_children, o_loading, o_container, o_store) := display_results (result_data pn) in
  mkBrowser (blog_input b) (clear_clicks b) (apply o_loading (loading_style b))
    (mkPanel (n_clicks pn) (trigger pn) (result_data pn) (interval_disabled pn)
             (n_intervals pn) (apply o_container (container_style pn))
             (apply o_children (children pn)) (apply o_store (store pn)))
    (thumbnail_panel b).

(** Callback 7 runs when [thumbnail-generation-result.data] is written; when
    it raises, nothing is written. *)
Definition run_display_thumbnail_results (b : Browser) : Browser :=
  let pn := thumbnail_panel b in
  match display_thumbnail_results (result_data pn) with
  | Ok (o_children, o_loading, o_container, o_store) =>
      mkBrowser (blog_input b) (clear_clicks b) (apply o_loading (loading_style b))
        (hook_panel b)
        (mkPanel (n_clicks pn) (trigger pn) (result_data pn) (interval_disabled pn)
                 (n_intervals pn) (apply o_container (container_style pn))
                 (apply (match o_children with set c => set (Some c) | no_update => no_update end)
                        (children pn))
                 (apply (match o_store with set s => set (Some s) | no_update => no_update end)
                        (store pn)))
  | Raise _ => b
  end.

(** The panel of kind [k], read and written. *)
Definition clicks (k : Kind) (b : Browser) : Z :=
  match k with
  | hooks => n_clicks (hook_panel b)
  | thumbnails => n_clicks (thumbnail_panel b)
  end.

Definition trigger_of (k : Kind) (b : Browser) : option str :=
  match k with
  | hooks => trigger (hook_panel b)
  | thumbnails => trigger (thumbnail_panel b)
  end.

Definition polling_disabled (k : Kind) (b : Browser) : bool :=
  match k with
  | hooks => interval_disabled (hook_panel b)
  | thumbnails => interval_disabled (thumbnail_panel b)
  end.

Definition intervals_of (k : Kind) (b : Browser) : Z :=
  match k with
  | hooks => n_intervals (hook_panel b)
  | thumbnails => n_intervals (thumbnail_panel b)
  end.

Definition with_start (k : Kind) (o : start_outputs) (n : Z) (b : Browser) : Browser :=
  match k with
  | hooks =>
      mkBrowser (blog_input b) (clear_clicks b) (loading_of o (loading_style b))
                (apply_start o n (hook_panel b)) (thumbnail_panel b)
  | thumbnails =>
      mkBrowser (blog_input b) (clear_clicks b) (loading_of o (loading_style b))
                (hook_panel b) (apply_start o n (thumbnail_panel b))
  end.

Definition with_check (k : Kind) (o : pyval * bool) (b : Browser) : Browser :=
  match k with
  | hooks =>
      mkBrowser (blog_input b) (clear_clicks b) (loading_style b)
                (apply_check o (hook_panel b)) (thumbnail_panel b)
  | thumbnails =>
      mkBrowser (blog_input b) (clear_clicks b) (loading_style b)
                (hook_panel b) (apply_check o (thumbnail_panel b))
  end.

Definition next_interval {C S : Type} (pn : Panel C S) : Panel C S :=
  mkPanel (n_clicks pn) (trigger pn) (result_data pn) (interval_disabled pn)
          (n_intervals pn + 1)%Z (container_style pn) (children pn) (store pn).

Definition with_tick (k : Kind) (b : Browser) : Browser :=
  match k with
  | hooks =>
      mkBrowser (blog_input b) (clear_clicks b) (loading_style b)
                (next_interval (hook_panel b)) (thumbnail_panel b)
  | thumbnails =>
      mkBrowser (blog_input b) (clear_clicks b) (loading_style b)
                (hook_panel b) (next_interval (thumbnail_panel b))
  end.

(** The start, check and display callbacks of kind [k]. *)
Definition start_job (k : Kind)
    : Z -> option str -> str -> Process -> start_outputs * Process :=
  match k with
  | hooks => start_generation
  | thumbnails => start_thumbnail_generation
  end.

Definition poll (k : Kind) : Z -> option str -> Process -> (pyval * bool) * Process :=
  match k with
  | hooks => check_generation_status
  | thumbnails => check_thumbnail_generation_status
  end.

Definition run_display (k : Kind) (b : Browser) : Browser :=
  match k with
  | hooks => run_display_results b
  | thumbnails => run_display_thumbnail_results b
  end.

(** Callbacks 2 and 6 run on [n_intervals], with the trigger as state; their
    first output starts the display callback. *)
Definition run_check (k : Kind) (a : App) : App :=
  let b := browser a in
  let '(o, p') := poll k (intervals_of k b) (trigger_of k b) (process a) in
  mkApp p' (run_display k (with_check k o b)).

Definition writes_n_intervals (o : start_outputs) : bool :=
  match o with
  | (_, _, _, _, set _) => true
  | _ => false
  end.

(** A click on one of the two generate buttons at clock reading [now]:
    callback 1 or 5 runs with the new click count and the input text; when it
    writes [n_intervals], the check callback runs in turn. *)
Definition click_generate (k : Kind) (now : str) (a : App) : App :=
  let b := browser a in
  let n := (clicks k b + 1)%Z in
  let '(o, p') := start_job k n (blog_input b) now (process a) in
  let a' := mkApp p' (with_start k o n b) in
  if writes_n_intervals o then run_check k a' else a'.

(** An interval fires only while it is not disabled. *)
Definition interval_fires (k : Kind) (a : App) : App :=
  if polling_disabled k (browser a) then a
  else run_check k (mkApp (process a) (with_tick k (browser a))).

(** A click on Clear: callbacks 4 and 8 run with the new click count, and
    the display callbacks run on the result stores they write. *)
Definition click_clear (a : App) : App :=
  let b := browser a in
  let clicks := (clear_clicks b + 1)%Z in
  let '(o_input, o_container, o_result) := clear_all clicks in
  let '(t_container, t_result) := clear_thumbnails clicks in
  let hp := hook_panel b in
  let tp := thumbnail_panel b in
  let b1 :=
    mkBrowser (apply o_input (blog_input b)) clicks (loading_style b)
      (mkPanel (n_clicks hp) (trigger hp) (apply o_result (result_data hp))
               (interval_disabled hp) (n_intervals hp)
               (apply o_container (container_style hp)) (children hp) (store hp))
      (mkPanel (n_clicks tp) (trigger tp) (apply t_result (result_data tp))
               (interval_disabled tp) (n_intervals tp)
               (apply t_container (container_style tp)) (children tp) (store tp)) in
  mkApp (process a) (run_display_thumbnail_results (run_display_results b1)).

(** The user edits the text area. *)
Definition edit_input (v : option str) (a : App) : App :=
  let b := browser a in
  mkApp (process a)
        (mkBrowser v (clear_clicks b) (loading_style b) (hook_panel b) (thumbnail_panel b)).

(** The thread at position [i] finishes, the services having answered as
    [remote]. *)
Definition thread_finishes (remote : Remote) (i : nat) (a : App) : App :=
  let p := process a in
  match threads p !! i with
  | Some t =>
      mkApp (generate_in_background remote t
               (mkProcess (endpoint_name p) (generation_status p) (delete i (threads p))))
            (browser a)
  | None => a
  end.

Inductive event : Type :=
| Generate (k : Kind) (now : str)
| Finish (remote : Remote) (i : nat)
| Tick (k : Kind)
| Clear
| Edit (v : option str).

Definition step (a : App) (e : event) : App :=
  match e with
  | Generate k now => click_generate k now a
  | Finish remote i => thread_finishes remote i a
  | Tick k => interval_fires k a
  | Clear => click_clear a
  | Edit v => edit_input v a
  end.

Definition run (a : App) (es : list event) : App := fold_left step es a.

(** ** [_add_custom_css] *)

(** The [custom_css] literal; no property depends on its text. *)
Variable custom_css : str.

(** [_add_custom_css], as a function of [self.app.index_string]: the value
    it assigns to it. *)
Definition _add_custom_css (index_string : str) : str :=
  replace (lit "</head>")
          (lit "<style>" ++ custom_css ++ lit "</style></head>")
          index_string.

End Python.

(** ** Sample data *)

(** An interpreter whose [\d] accepts the ASCII digits only. *)
Definition ascii_interpreter : Interpreter :=
  {| isdecimal := fun c => (48 <=? c) && (c <=? 57);
     error_text := fun _ => lit "error";
     format_other := fun _ => lit "<value>" |}.

(** ** Vocabulary of the properties *)

#[global] Instance Kind_eq_dec : EqDecision Kind.
Proof. solve_decision. Defined.

(** The states the application goes through: from the initial page and the
    empty registry, by clicks, edits, interval ticks and thread completions
    in any order. *)
Definition reachable (py : Interpreter) (hooks_prompt thumbnails_prompt : str)
    (a : App) : Prop :=
  exists endpoint es, a = run py hooks_prompt thumbnails_prompt (initial_app endpoint) es.

(** [id] was issued by a click of the page [b]: it was made by
    [make_gen_id] from a click count the button has already reached. *)
Definition issued (b : Browser) (id : str) : Prop :=
  exists k n now, id = make_gen_id k n now /\ (1 <= n <= clicks k b)%Z.

(** What every reachable state satisfies. *)
Record consistent (a : App) : Prop := mkConsistent {
  registry_issued :
    forall id, is_Some (generation_status (process a) !! id) -> issued (browser a) id;
  threads_issued :
    forall t, t ∈ threads (process a) -> issued (browser a) (target_gen_id t);
  trigger_issued :
    forall k id, trigger_of k (browser a) = Some id -> issued (browser a) id;
  clicks_nonneg : forall k, (0 <= clicks k (browser a))%Z;
  threads_distinct : NoDup (target_gen_id <$> threads (process a));
  threads_running :
    forall t, t ∈ threads (process a) ->
      generation_status (process a) !! target_gen_id t = Some (mkJob generating PNone)
}.

(** A chat endpoint that raises, one that returns hooks, and one that
    returns two thumbnail concepts, with an image service that returns
    base64 data for the first image and raises for the second. *)
Definition remote_raising : Remote :=
  {| endpoint_task := fun _ => Ok (PStr (lit "llm/v1/chat"));
     chat_predict := fun _ _ _ => Raise (Exception (lit "timeout"));
     image_predict := fun _ _ => Raise (Exception (lit "unavailable")) |}.

Definition chat_reply (content : str) : pyval :=
  PDict [(lit "choices",
          PList [PDict [(lit "message",
                         PDict [(lit "role", PStr (lit "assistant"));
                                (lit "content", PStr content)])]])].

Definition sample_hooks : str := lit "Titles 1. Stop Paying the Shuffle Tax".

Definition remote_hooks : Remote :=
  {| endpoint_task := fun _ => Ok (PStr (lit "llm/v1/chat"));
     chat_predict := fun _ _ _ => Ok (chat_reply sample_hooks);
     image_predict := fun _ _ => Raise (Exception (lit "unavailable")) |}.

Definition sample_concepts : str :=
  lit "1." ++ [NL] ++ lit "THUMBNAIL_TEXT: Skew Hell" ++ [NL]
  ++ lit "IMAGE_DESCRIPTION: A melting cluster." ++ [NL; NL]
  ++ lit "2." ++ [NL] ++ lit "THUMBNAIL_TEXT: Shuffle Tax" ++ [NL]
  ++ lit "IMAGE_DESCRIPTION: A calm pipeline.".

Definition remote_thumbnails : Remote :=
  {| endpoint_task := fun _ => Ok (PStr (lit "llm/v1/chat"));
     chat_predict := fun _ _ _ => Ok (chat_reply sample_concepts);
     image_predict := fun call _ =>
       match call with
       | 1%nat => Ok (PDict [(lit "data", PList [PDict [(lit "b64_json", PStr (lit "QUJD"))]])])
       | _ => Raise (Exception (lit "unavailable"))
       end |}.

(** The page once a draft has been pasted, then once Generate Hooks has been
    clicked at clock reading [1.5], then once the thread has finished. *)
Definition sample_draft : str := lit "Spark shuffle tutorial".

Definition app_ready : App :=
  run ascii_interpreter [] [] (initial_app (lit "chat")) [Edit (Some sample_draft)].

Definition app_started : App :=
  run ascii_interpreter [] [] (initial_app (lit "chat"))
      [Edit (Some sample_draft); Generate hooks (lit "1.5")].

Definition app_finished : App :=
  run ascii_interpreter [] [] (initial_app (lit "chat"))
      [Edit (Some sample_draft); Generate hooks (lit "1.5"); Finish remote_hooks 0].

Definition sample_id : str := lit "gen_1_1.5".

Definition sample_thread : Thread := mkThread hooks sample_id sample_draft.

(** A job id that has been issued and is gone: no registry entry and no
    pending thread carry it. *)
Definition retired (a : App) (id : str) : Prop :=
  issued (browser a) id /\
  generation_status (process a) !! id = None /\
  forall t, t ∈ threads (process a) -> target_gen_id t <> id.

(** The text [generate_hooks] and [generate_thumbnails] put before the text
    of what they caught. *)
Definition failure_prefix (k : Kind) : str :=
  match k with
  | hooks => lit "Failed to generate hooks: "
  | thumbnails => lit "Failed to generate thumbnails: "
  end.

(** The messages a thread of kind [k] sends for [blog_content]. *)
Definition request_of (hooks_prompt thumbnails_prompt : str) (k : Kind)
    (blog_content : str) : pyval :=
  match k with
  | hooks => chat_messages hooks_prompt blog_content
  | thumbnails => chat_messages thumbnails_prompt blog_content
  end.

(** The endpoint answers the task-type query with a supported type. *)
Definition supported (remote : Remote) (endpoint : str) : Prop :=
  exists task,
    endpoint_task remote endpoint = Ok task /\
    existsb (fun t => is_text t task) supported_task_types = true.

(** A reply with a [messages] list whose last message has no [content]. *)
Definition no_message_content (reply : pyval) : Prop :=
  exists d msgs m,
    reply = PDict d /\
    assoc (lit "messages") d = Some (PList msgs) /\
    last msgs = Some (PDict m) /\
    assoc (lit "content") m = None.

(** What a thread stores when the reply has no message content. *)
Definition no_content_result (k : Kind) : pyval :=
  match k with
  | hooks => PStr NO_CONTENT
  | thumbnails => PStr (NO_CONTENT ++ IMAGES_HEADER)
  end.

(** A chat endpoint whose reply has one message, without content. *)
Definition reply_without_content : pyval :=
  PDict [(lit "messages", PList [PDict [(lit "role", PStr (lit "assistant"))]])].

Definition remote_without_content : Remote :=
  {| endpoint_task := fun _ => Ok (PStr (lit "llm/v1/chat"));
     chat_predict := fun _ _ _ => Ok reply_without_content;
     image_predict := fun _ _ => Raise (Exception (lit "unavailable")) |}.

(** The page shows the result [r] in the panel of kind [k]: for hooks the
    output element and the output store hold it; for thumbnails they hold
    what callback 7 makes of the text.  The container is visible. *)
Definition shows (py : Interpreter) (k : Kind) (b : Browser) (r : pyval) : Prop :=
  match k with
  | hooks =>
      children (hook_panel b) = r /\ store (hook_panel b) = r /\
      container_style (hook_panel b) = display_block
  | thumbnails =>
      exists text, r = PStr text /\
        display_thumbnail_text py text
          = (match children (thumbnail_panel b) with Some c => set c | None => no_update end,
             set display_none, set display_block,
             match store (thumbnail_panel b) with Some s => set s | None => no_update end) /\
        container_style (thumbnail_panel b) = display_block
  end.

(** The characters of a decimal numeral: the ten digits and the sign. *)
Definition numeral_char (c : N) : bool := ((48 <=? c) && (c <=? 57)) || (c =? 45).

(** The two markers that frame the data of an image. *)
Definition BASE64_IMAGE_DATA : str := lit "[BASE64_IMAGE_DATA]".
Definition END_IMAGE_DATA : str := lit "[END_IMAGE_DATA]".

(** The characters of base64 text. *)
Definition is_base64 (c : N) : bool :=
  ((65 <=? c) && (c <=? 90)) || ((97 <=? c) && (c <=? 122))
  || ((48 <=? c) && (c <=? 57)) || (c =? 43) || (c =? 47) || (c =? 61).

(** On ASCII, [\d] accepts the ten digits and nothing else. *)
Definition ascii_digits (py : Interpreter) : Prop :=
  forall c, c < 128 -> isdecimal py c = (48 <=? c) && (c <=? 57).

(** What the two kinds of repetition of the patterns compute: the longest
    run of characters of a class first, and the shortest run of any
    characters first. *)
Fixpoint greedy_class (p : N -> bool) (k : cont) (s : str) (cap : option str)
    : option (str * option str) :=
  match s with
  | c :: s' =>
      if p c then or_else (greedy_class p k s' cap) (k s cap) else k s cap
  | [] => k [] cap
  end.

Fixpoint lazy_any (k : cont) (s : str) (cap : option str)
    : option (str * option str) :=
  or_else (k s cap)
          match s with
          | _ :: s' => lazy_any k s' cap
          | [] => None
          end.

Fixpoint skip_class (p : N -> bool) (s : str) : str :=
  match s with
  | c :: s' => if p c then skip_class p s' else s
  | [] => []
  end.

(** What follows the number of an image block, and what closes it. *)
Definition BLOCK_OPEN : str := lit ":" ++ [NL] ++ BASE64_IMAGE_DATA ++ [NL].
Definition BLOCK_CLOSE : str := [NL] ++ END_IMAGE_DATA.

(** The end of the group of the image-block pattern, the group having
    started at [s3]. *)
Definition block_close_at (s3 : str) : cont :=
  fun s' _ =>
    if startswith BLOCK_CLOSE s'
    then Some (drop (length BLOCK_CLOSE) s', Some (take (length s3 - length s') s3))
    else None.

(** The image-block pattern at the head of [s], read off the pattern. *)
Definition match_block (py : Interpreter) (s : str) : option (str * option str) :=
  if startswith (lit "Image ") s then
    match drop 6 s with
    | c :: s1 =>
        if isdecimal py c then
          let s2 := skip_class (isdecimal py) s1 in
          if startswith BLOCK_OPEN s2 then
            match drop (length BLOCK_OPEN) s2 with
            | (_ :: s4) as s3 => lazy_any (block_close_at s3) s4 None
            | [] => None
            end
          else None
        else None
    | [] => None
    end
  else None.

(** What precedes the first occurrence of [sep] in [s]; all of [s] when
    there is none. *)
Fixpoint before (sep s : str) : str :=
  match s with
  | c :: s' => if startswith sep s then [] else c :: before sep s'
  | [] => []
  end.

(** The payload [generate_thumbnails] builds from the concepts text and
    the values of the image calls. *)
Definition thumbnail_payload (py : Interpreter) (text : str) (images : list pyval) : str :=
  join ([text; IMAGES_HEADER] ++ imap (fun i img => image_block py (S i) img) images).

(** The data of an image call that succeeded. *)
Definition image_data (img : pyval) : option str :=
  match img with
  | PStr (c :: s) => Some (c :: s)
  | _ => None
  end.

(** An image call failed (its value is false) or gave base64 text. *)
Definition base64_or_failed (img : pyval) : Prop :=
  truthy img = false \/
  exists blob, img = PStr blob /\ blob <> [] /\ Forall (fun c => is_base64 c = true) blob.

(** The text of the block of an image, its number being the digit [d]. *)
Definition block_text (py : Interpreter) (d : N) (img : pyval) : str :=
  if truthy img
  then lit "Image " ++ d :: BLOCK_OPEN ++ format_value py img ++ BLOCK_CLOSE ++ [NL; NL]
  else lit "Image " ++ d :: lit ": " ++ CROSS_MARK :: lit " Failed to generate" ++ [NL; NL].

(** The images callback 7 shows for the data [blobs], numbered from [idx]. *)
Definition shown_images (idx : nat) (blobs : list str) : list component :=
  imap (fun j blob =>
          ThumbnailImage (lit "Thumbnail " ++ str_of_int (Z.of_nat (idx + j)))
                         (lit "data:image/png;base64," ++ blob)) blobs.

(** A concepts text that itself holds a framed block, and a chat endpoint
    that answers with it. *)
Definition framed_concepts : str :=
  lit "Image 1:" ++ [NL] ++ lit "[BASE64_IMAGE_DATA]" ++ [NL] ++ lit "QUJD" ++ [NL]
  ++ lit "[END_IMAGE_DATA]".

Definition remote_framed : Remote :=
  {| endpoint_task := fun _ => Ok (PStr (lit "llm/v1/chat"));
     chat_predict := fun _ _ _ =>
       Ok (PDict [(lit "choices",
                   PList [PDict [(lit "message",
                                  PDict [(lit "role", PStr (lit "assistant"));
                                         (lit "content", PStr framed_concepts)])]])]);
     image_predict := fun _ _ => Raise (Exception (lit "unavailable")) |}.

(** ** More sample data *)

(** An endpoint whose task type is not a chat type. *)
Definition remote_embeddings : Remote :=
  {| endpoint_task := fun _ => Ok (PStr (lit "llm/v1/embeddings"));
     chat_predict := fun _ _ _ => Ok (chat_reply sample_hooks);
     image_predict := fun _ _ => Raise (Exception (lit "unavailable")) |}.

(** A chat endpoint of a supported type that answers every request with
    [reply]; its image service is down. *)
Definition remote_replying (reply : pyval) : Remote :=
  {| endpoint_task := fun _ => Ok (PStr (lit "llm/v1/chat"));
     chat_predict := fun _ _ _ => Ok reply;
     image_predict := fun _ _ => Raise (Exception (lit "unavailable")) |}.

(** A reply with one choice whose message has [content]. *)
Definition choice_reply (content : pyval) : pyval :=
  PDict [(lit "choices",
          PList [PDict [(lit "message",
                         PDict [(lit "role", PStr (lit "assistant"));
                                (lit "content", content)])]])].

(** A reply that has both forms. *)
Definition reply_with_both : pyval :=
  PDict [(lit "choices",
          PList [PDict [(lit "message",
                         PDict [(lit "role", PStr (lit "assistant"));
                                (lit "content", PStr (lit "from choices"))])]]);
         (lit "messages",
          PList [PDict [(lit "role", PStr (lit "user")); (lit "content", PStr (lit "hi"))];
                 PDict [(lit "role", PStr (lit "assistant"));
                        (lit "content", PStr (lit "from messages"))]])].

(** A structured content: two texts around an image. *)
Definition sample_parts : list (list (str * pyval)) :=
  [[(lit "type", PStr (lit "text")); (lit "text", PStr (lit "Skew "))];
   [(lit "type", PStr (lit "image_url")); (lit "url", PStr (lit "x"))];
   [(lit "type", PStr (lit "text")); (lit "text", PStr (lit "Hell"))]].

(** A reply whose only message has a JSON null as content. *)
Definition reply_null_content : pyval :=
  PDict [(lit "messages",
          PList [PDict [(lit "role", PStr (lit "assistant")); (lit "content", PNone)]])].

(** The page after the sample job has failed, after it has ended with a
    null content, after a thumbnails job has ended, and after Generate Hooks
    has been clicked a second time while the sample job runs. *)
Definition app_failed : App :=
  run ascii_interpreter [] [] (initial_app (lit "chat"))
      [Edit (Some sample_draft); Generate hooks (lit "1.5"); Finish remote_raising 0].

Definition app_null : App :=
  run ascii_interpreter [] [] (initial_app (lit "chat"))
      [Edit (Some sample_draft); Generate hooks (lit "1.5");
       Finish (remote_replying reply_null_content) 0].

Definition app_thumbnails : App :=
  run ascii_interpreter [] [] (initial_app (lit "chat"))
      [Edit (Some sample_draft); Generate thumbnails (lit "2.5");
       Finish remote_thumbnails 0; Tick thumbnails].

(** A page as Dash serves it, reduced to its skeleton. *)
Definition sample_index : str := lit "<html><head><title>Dash</title>".

(** ** More vocabulary *)

(** What a part of a structured content contributes to the combined text:
    its [text] when its [type] is [text], nothing otherwise. *)
Definition part_text (part : list (str * pyval)) : str :=
  match assoc (lit "type") part with
  | Some (PStr t) =>
      if str_eqb t (lit "text")
      then match assoc (lit "text") part with
           | Some (PStr s) => s
           | _ => []
           end
      else []
  | _ => []
  end.

(** A part whose [text], if it is of type [text] and has one, is a text. *)
Definition plain_part (part : list (str * pyval)) : Prop :=
  match assoc (lit "type") part, assoc (lit "text") part with
  | Some (PStr t), Some v =>
      str_eqb t (lit "text") = true -> exists s, v = PStr s
  | _, _ => True
  end.

(** A reply in the [choices] form: no [messages] key, and a first choice
    whose message is the object [m]. *)
Definition first_choice (reply : pyval) (m : list (str * pyval)) : Prop :=
  exists d choice rest,
    reply = PDict d /\
    assoc (lit "messages") d = None /\
    assoc (lit "choices") d = Some (PList (PDict choice :: rest)) /\
    assoc (lit "message") choice = Some (PDict m).

(** A reply in the [messages] form whose last message is the object [m]. *)
Definition last_message (reply : pyval) (m : list (str * pyval)) : Prop :=
  exists d msgs,
    reply = PDict d /\
    assoc (lit "messages") d = Some (PList msgs) /\
    last msgs = Some (PDict m).

(** The key that introduces an image description. *)
Definition DESCRIPTION_KEY : str := lit "IMAGE_DESCRIPTION:".

(** Where a description stops: at the end of the text, at a newline that
    ends the text, at a blank line, or at a newline followed by a number and
    a dot. *)
Definition description_stop (py : Interpreter) (tail : str) : Prop :=
  tail = [] \/ tail = [NL] \/ (exists r, tail = NL :: NL :: r) \/
  (exists d ds r,
     isdecimal py d = true /\ Forall (fun c => isdecimal py c = true) ds /\
     tail = NL :: d :: ds ++ 46 :: r).

(** The lookahead of the description pattern, read off the pattern. *)
Definition description_ends (py : Interpreter) (s : str) : bool :=
  startswith [NL; NL] s
  || match s with
     | c :: d :: s' =>
         (c =? NL) && isdecimal py d
         && startswith [46] (skip_class (isdecimal py) s')
     | _ => false
     end
  || match s with
     | [] => true
     | [c] => c =? NL
     | _ => false
     end.

(** The end of the group of the description pattern, the group having
    started at [s2]. *)
Definition description_close (py : Interpreter) (s2 : str) : cont :=
  fun s' _ =>
    if description_ends py s'
    then Some (s', Some (take (length s2 - length s') s2))
    else None.

(** The description pattern at the head of [s], read off the pattern. *)
Definition match_description (py : Interpreter) (s : str) : option (str * option str) :=
  if startswith DESCRIPTION_KEY s then
    greedy_class isspace
      (fun s2 _ =>
         match s2 with
         | _ :: s3 => lazy_any (description_close py s2) s3 None
         | [] => None
         end)
      (drop (length DESCRIPTION_KEY) s) None
  else None.

(** A description on one line that does not start with white space. *)
Definition one_line (d : str) : Prop :=
  match d with
  | c :: _ => isspace c = false
  | [] => False
  end /\ Forall (fun c => c <> NL) d.

(** [id] is an id made for the generator of kind [k]. *)
Definition id_of_kind (k : Kind) (id : str) : Prop :=
  exists n now, id = make_gen_id k n now.

(** A value that is [None] or a text. *)
Definition none_or_text (v : pyval) : Prop :=
  match v with
  | PNone | PStr _ => True
  | _ => False
  end.

(** What every reachable state satisfies besides [consistent]: the ids and
    the threads are of the kind of the panel that started them, the results
    are of the form their status announces, and an interval that is enabled
    has a job to poll. *)
Record sound (a : App) : Prop := mkSound {
  trigger_kind :
    forall k id, trigger_of k (browser a) = Some id -> id_of_kind k id;
  thread_kind :
    forall t, t ∈ threads (process a) -> id_of_kind (target_kind t) (target_gen_id t);
  generating_thread :
    forall id job,
      generation_status (process a) !! id = Some job -> status job = generating ->
      result job = PNone /\ exists t, t ∈ threads (process a) /\ target_gen_id t = id;
  error_text_form :
    forall k id job,
      id_of_kind k id -> generation_status (process a) !! id = Some job ->
      status job = error ->
      exists cause, result job = PStr (ERROR_PREFIX ++ failure_prefix k ++ cause);
  thumbnail_text :
    forall id job,
      id_of_kind thumbnails id -> generation_status (process a) !! id = Some job ->
      status job = complete -> exists text, result job = PStr text;
  thumbnail_store : none_or_text (result_data (thumbnail_panel (browser a)));
  polling_live :
    forall k, polling_disabled k (browser a) = false ->
      exists id job,
        trigger_of k (browser a) = Some id /\
        generation_status (process a) !! id = Some job
}.

(** What the user sees of the page: the input, the loading indicator, and
    for each generator whether its output is visible, the output and the
    text its copy button copies. *)
Definition view (b : Browser)
    : option str * style * (style * pyval * pyval)
      * (style * option (list component) * option str) :=
  (blog_input b, loading_style b,
   (container_style (hook_panel b), children (hook_panel b), store (hook_panel b)),
   (container_style (thumbnail_panel b), children (thumbnail_panel b),
    store (thumbnail_panel b))).

(** A job that is in the registry and that no trigger of the page names. *)
Definition orphan (a : App) (id : str) : Prop :=
  is_Some (generation_status (process a) !! id) /\
  forall k, trigger_of k (browser a) <> Some id.

(** The closing tag of the head of a page. *)
Definition HEAD_END : str := lit "</head>".

(** The entry a thread writes for the outcome of its generation call. *)
Definition job_of (py : Interpreter) (o : outcome pyval) : Job :=
  match o with
  | Ok r => mkJob complete r
  | Raise e => mkJob error (PStr (ERROR_PREFIX ++ str_of_exn py e))
  end.

(** The threads that carry [id] were started for [content], by the panel of
    kind [k]. *)
Definition started_for (a : App) (id : str) (k : Kind) (content : str) : Prop :=
  issued (browser a) id /\
  forall t, t ∈ threads (process a) -> target_gen_id t = id ->
            target_kind t = k /\ target_blog_content t = content.



(** * Properties *)

(** ** Text *)

Lemma lstrip_all_space (s : str) :
  Forall (fun c => isspace c = true) s -> lstrip s = [].
Proof.
  induction 1 as [|c s Hc _ IH]; simpl; [reflexivity|].
  rewrite Hc. exact IH.
Qed.

Lemma lstrip_nonempty (s : str) :
  Exists (fun c => isspace c = false) s -> lstrip s <> [].
Proof.
  induction 1 as [c s Hc|c s _ IH]; simpl.
  - rewrite Hc. discriminate.
  - destruct (isspace c); [exact IH|discriminate].
Qed.

Lemma lstrip_keeps_nonspace (s : str) :
  Exists (fun c => isspace c = false) s ->
  Exists (fun c => isspace c = false) (lstrip s).
Proof.
  induction 1 as [c s Hc|c s H IH]; simpl.
  - rewrite Hc. by apply Exists_cons_hd.
  - destruct (isspace c) eqn:E; [exact IH|].
    by apply Exists_cons_hd.
Qed.

Lemma strip_all_space (s : str) :
  Forall (fun c => isspace c = true) s -> strip s = [].
Proof.
  intros H. unfold strip. by rewrite (lstrip_all_space s H).
Qed.

Lemma strip_nonempty (s : str) :
  Exists (fun c => isspace c = false) s -> strip s <> [].
Proof.
  intros H. unfold strip, rstrip.
  pose proof (lstrip_keeps_nonspace s H) as H1.
  assert (H2 : Exists (fun c => isspace c = false) (rev (lstrip s))).
  { rewrite Exists_exists in *. destruct H1 as (c & Hin & Hc).
    exists c. split; [|done]. rewrite rev_alt, list_elem_of_In in *.
    rewrite <- rev_alt. by apply -> in_rev. }
  pose proof (lstrip_nonempty _ H2) as H3.
  intros E. apply H3.
  apply (f_equal (@rev N)) in E. rewrite rev_involutive in E. exact E.
Qed.

(** A request is blank exactly when it is absent or has only whitespace. *)
Lemma blank_true (blog_content : option str) :
  blank blog_content = true <->
  forall s, blog_content = Some s -> Forall (fun c => isspace c = true) s.
Proof.
  split.
  - intros Hb s ->. apply Forall_forall. intros c Hin.
    destruct (isspace c) eqn:E; [reflexivity|exfalso].
    assert (Hex : Exists (fun c => isspace c = false) s)
      by (apply Exists_exists; eauto).
    pose proof (strip_nonempty s Hex) as Hne.
    unfold blank in Hb. destruct s as [|x s']; [by inversion Hin|].
    destruct (strip (x :: s')); [done|discriminate].
  - intros H. destruct blog_content as [s|]; [|reflexivity].
    specialize (H s eq_refl). unfold blank.
    destruct s as [|x s']; [reflexivity|]. by rewrite (strip_all_space _ H).
Qed.

(** ** The poll, on one process state *)

Lemma check_thumbnail_same (n : Z) (gen_id : option str) (p : Process) :
  check_thumbnail_generation_status n gen_id p = check_generation_status n gen_id p.
Proof. reflexivity. Qed.

Lemma check_terminal (n : Z) (id : str) (job : Job) (p : Process) :
  id <> [] ->
  generation_status p !! id = Some job ->
  is_terminal (status job) = true ->
  check_generation_status n (Some id) p = ((result job, true), registry_del id p).
Proof.
  intros Hid Hjob Hterm. unfold check_generation_status.
  destruct id as [|c id']; [done|]. by rewrite Hjob, Hterm.
Qed.

Lemma check_running (n : Z) (id : str) (job : Job) (p : Process) :
  id <> [] ->
  generation_status p !! id = Some job ->
  status job = generating ->
  check_generation_status n (Some id) p = ((PNone, false), p).
Proof.
  intros Hid Hjob Hrun. unfold check_generation_status.
  destruct id as [|c id']; [done|]. by rewrite Hjob, Hrun.
Qed.

Lemma check_absent (n : Z) (gen_id : option str) (p : Process) :
  (forall id, gen_id = Some id -> id = [] \/ generation_status p !! id = None) ->
  check_generation_status n gen_id p = ((PNone, true), p).
Proof.
  intros H. unfold check_generation_status.
  destruct gen_id as [[|c id']|]; try reflexivity.
  destruct (H _ eq_refl) as [? | ->]; [done|reflexivity].
Qed.

(** C6.  A poll whose job id is absent ([None] or the empty text) or is not
    a key of the registry returns no result with the interval disabled, and
    leaves the process state, hence the whole registry, as it was; this
    holds for the hooks poll and for the thumbnails poll. *)
Theorem poll_unknown_id_is_inert (n : Z) (gen_id : option str) (p : Process) :
  (forall id, gen_id = Some id -> id = [] \/ generation_status p !! id = None) ->
  check_generation_status n gen_id p = ((PNone, true), p) /\
  check_thumbnail_generation_status n gen_id p = ((PNone, true), p).
Proof.
  intros H. split; [|change (check_generation_status n gen_id p = ((PNone, true), p))];
    by apply check_absent.
Qed.

(** C3.  A request whose content is absent, empty or made of whitespace
    only is rejected by both start callbacks, whatever the click count and
    the clock: the trigger is set to [None], the interval is disabled, and
    the process state is returned as it was, so no registry entry is
    created and no thread is started. *)
Theorem blank_request_is_rejected (n_clicks : Z) (blog_content : option str)
    (now : str) (p : Process) :
  (forall s, blog_content = Some s -> Forall (fun c => isspace c = true) s) ->
  start_generation n_clicks blog_content now p
    = ((set None, set display_none, set display_block, set true, set 0%Z), p) /\
  start_thumbnail_generation n_clicks blog_content now p
    = ((set None, set display_none, set display_block, set true, set 0%Z), p).
Proof.
  intros H. apply blank_true in H.
  unfold start_generation, start_thumbnail_generation. by rewrite H.
Qed.

(** ** Job identifiers *)

Lemma N_of_ascii_inj (a b : ascii) : N_of_ascii a = N_of_ascii b -> a = b.
Proof.
  intros H. rewrite <- (ascii_N_embedding a), <- (ascii_N_embedding b).
  by rewrite H.
Qed.

Lemma lit_inj (a b : string) : lit a = lit b -> a = b.
Proof.
  revert b. induction a as [|x a IH]; intros [|y b]; simpl; try done.
  unfold lit. simpl. intros [= Hxy Hab].
  f_equal; [by apply N_of_ascii_inj|by apply IH].
Qed.

Lemma to_int_not_nil (z : Z) : Z.to_int z <> Pos Nil /\ Z.to_int z <> Neg Nil.
Proof.
  destruct z as [|p|p]; simpl; split; try discriminate;
    intros [= H]; by apply (DecimalPos.Unsigned.to_uint_nonnil p).
Qed.

Lemma str_of_int_inj (n m : Z) : str_of_int n = str_of_int m -> n = m.
Proof.
  unfold str_of_int. intros H%lit_inj.
  apply DecimalZ.to_int_inj.
  destruct (to_int_not_nil n) as [Hn1 Hn2], (to_int_not_nil m) as [Hm1 Hm2].
  pose proof (NilZero.isi _ Hn1 Hn2) as En.
  pose proof (NilZero.isi _ Hm1 Hm2) as Em.
  rewrite H in En. rewrite En in Em. by injection Em.
Qed.

Lemma uint_chars (d : uint) :
  Forall (fun c => numeral_char c = true) (lit (NilEmpty.string_of_uint d)).
Proof.
  induction d; simpl; try (apply Forall_cons; split; [reflexivity|assumption]).
  apply Forall_nil_2.
Qed.

Lemma str_of_int_chars (n : Z) :
  Forall (fun c => numeral_char c = true) (str_of_int n).
Proof.
  unfold str_of_int.
  assert (Hu : forall d, Forall (fun c => numeral_char c = true)
                           (lit (NilZero.string_of_uint d))).
  { intros d. destruct d; try apply uint_chars.
    apply Forall_cons; split; [reflexivity|apply Forall_nil_2]. }
  destruct (Z.to_int n) as [d|d]; simpl; [apply Hu|].
  apply Forall_cons; split; [reflexivity|apply Hu].
Qed.

(** Two texts that agree up to a separator occurring in neither head have
    the same head. *)
Lemma head_before_separator (u : N) (a b x y : str) :
  u ∉ a -> u ∉ b -> a ++ u :: x = b ++ u :: y -> a = b.
Proof.
  revert b. induction a as [|c a IH]; intros [|d b] Ha Hb; simpl; intros E.
  - reflexivity.
  - injection E as -> _. exfalso. apply Hb. by left.
  - injection E as -> _. exfalso. apply Ha. by left.
  - injection E as -> E. f_equal. apply IH; [| |exact E].
    + intros H. apply Ha. by right.
    + intros H. apply Hb. by right.
Qed.

Lemma underscore_not_in_numeral (n : Z) : 95 ∉ str_of_int n.
Proof.
  intros Hin. pose proof (str_of_int_chars n) as H.
  rewrite Forall_forall in H. by specialize (H _ Hin).
Qed.

(** The kind, the click count and the clock reading can be read back from
    a job id. *)
Lemma make_gen_id_inj (k1 k2 : Kind) (n1 n2 : Z) (t1 t2 : str) :
  make_gen_id k1 n1 t1 = make_gen_id k2 n2 t2 -> k1 = k2 /\ n1 = n2 /\ t1 = t2.
Proof.
  assert (Hn : forall a b x y, str_of_int a ++ lit "_" ++ x = str_of_int b ++ lit "_" ++ y ->
                               a = b /\ x = y).
  { intros a b x y E.
    assert (Hab : a = b).
    { apply str_of_int_inj.
      eapply (head_before_separator 95); [| |exact E]; apply underscore_not_in_numeral. }
    subst b. split; [reflexivity|].
    apply app_inv_head in E. by injection E. }
  destruct k1, k2; simpl; unfold lit; simpl; intros E; try discriminate.
  - injection E as E. by destruct (Hn _ _ _ _ E) as [-> ->].
  - injection E as E. by destruct (Hn _ _ _ _ E) as [-> ->].
Qed.

Lemma make_gen_id_nonempty (k : Kind) (n : Z) (now : str) : make_gen_id k n now <> [].
Proof. by destruct k. Qed.

Lemma issued_nonempty (b : Browser) (id : str) : issued b id -> id <> [].
Proof. intros (k & n & now & -> & _). apply make_gen_id_nonempty. Qed.

(** ** The invariant of the reachable states *)

Section Reachable.

Context (py : Interpreter) (hooks_system_prompt thumbnails_system_prompt : str).

Local Abbreviation step' := (step py hooks_system_prompt thumbnails_system_prompt).
Local Abbreviation run' := (run py hooks_system_prompt thumbnails_system_prompt).
Local Abbreviation reachable' := (reachable py hooks_system_prompt thumbnails_system_prompt).

Lemma issued_mono (b b' : Browser) (id : str) :
  (forall k, (clicks k b <= clicks k b')%Z) -> issued b id -> issued b' id.
Proof.
  intros Hle (k & n & now & -> & Hn). exists k, n, now. split; [done|].
  specialize (Hle k). lia.
Qed.

Lemma poll_same (k : Kind) : poll k = check_generation_status.
Proof. by destruct k. Qed.

Lemma check_process (n : Z) (gen_id : option str) (p : Process) :
  snd (check_generation_status n gen_id p) = p \/
  exists id job,
    generation_status p !! id = Some job /\ is_terminal (status job) = true /\
    snd (check_generation_status n gen_id p) = registry_del id p.
Proof.
  unfold check_generation_status.
  destruct gen_id as [[|c id']|]; simpl; auto.
  destruct (generation_status p !! (c :: id')) as [job|] eqn:E; simpl; auto.
  destruct (is_terminal (status job)) eqn:T; simpl; eauto 6.
Qed.

Lemma run_display_frame (k k' : Kind) (b : Browser) :
  clicks k' (run_display py k b) = clicks k' b /\
  trigger_of k' (run_display py k b) = trigger_of k' b /\
  polling_disabled k' (run_display py k b) = polling_disabled k' b /\
  blog_input (run_display py k b) = blog_input b.
Proof.
  destruct k; simpl.
  - unfold run_display_results.
    destruct (display_results _) as [[[? ?] ?] ?]. by destruct k'.
  - unfold run_display_thumbnail_results.
    destruct (display_thumbnail_results _ _) as [[[[? ?] ?] ?]|?]; by destruct k'.
Qed.

Lemma with_check_frame (k k' : Kind) (o : pyval * bool) (b : Browser) :
  clicks k' (with_check k o b) = clicks k' b /\
  trigger_of k' (with_check k o b) = trigger_of k' b /\
  blog_input (with_check k o b) = blog_input b.
Proof. by destruct k, k'. Qed.

Lemma run_check_effect (k : Kind) (a : App) :
  (process (run_check py k a) = process a \/
   exists id job,
     generation_status (process a) !! id = Some job /\ is_terminal (status job) = true /\
     process (run_check py k a) = registry_del id (process a)) /\
  (forall k', clicks k' (browser (run_check py k a)) = clicks k' (browser a)) /\
  (forall k', trigger_of k' (browser (run_check py k a)) = trigger_of k' (browser a)) /\
  blog_input (browser (run_check py k a)) = blog_input (browser a).
Proof.
  destruct a as [p b]. unfold run_check. simpl. rewrite poll_same.
  pose proof (check_process (intervals_of k b) (trigger_of k b) p) as Hp.
  destruct (check_generation_status _ _ p) as [o p']. simpl in *.
  split; [exact Hp|].
  split; [|split].
  - intros k'. destruct (run_display_frame k k' (with_check k o b)) as (-> & _).
    apply with_check_frame.
  - intros k'. destruct (run_display_frame k k' (with_check k o b)) as (_ & -> & _).
    apply with_check_frame.
  - destruct (run_display_frame k k (with_check k o b)) as (_ & _ & _ & ->).
    apply (with_check_frame k k).
Qed.

Lemma consistent_after_check (k : Kind) (a : App) :
  consistent a -> consistent (run_check py k a).
Proof.
  intros [Hr Ht Hg Hc Hd Hrun].
  destruct (run_check_effect k a) as (Hp & Hclicks & Htrig & _).
  assert (Hiss : forall id, issued (browser a) id -> issued (browser (run_check py k a)) id).
  { intros id. apply issued_mono. intros k'. rewrite Hclicks. lia. }
  split.
  - intros id Hsome. apply Hiss, Hr.
    destruct Hp as [E|(id' & job & _ & _ & E)]; rewrite E in Hsome; [done|].
    simpl in Hsome. destruct (decide (id' = id)) as [->|Hne].
    + rewrite lookup_delete_eq in Hsome. by destruct Hsome.
    + by rewrite lookup_delete_ne in Hsome.
  - intros t Hin. apply Hiss, Ht.
    by destruct Hp as [E|(id' & job & _ & _ & E)]; rewrite E in Hin.
  - intros k' id. rewrite Htrig. intros H. by apply Hiss, (Hg k').
  - intros k'. rewrite Hclicks. apply Hc.
  - by destruct Hp as [E|(id' & job & _ & _ & E)]; rewrite E.
  - intros t Hin.
    destruct Hp as [E|(id' & job & Hj & Htm & E)]; rewrite E in Hin |- *; [auto|].
    simpl in *. rewrite lookup_delete_ne; [auto|].
    intros ->. rewrite (Hrun t Hin) in Hj. injection Hj as <-. discriminate Htm.
Qed.

Lemma start_job_cases (k : Kind) (n : Z) (c : option str) (now : str) (p : Process) :
  (blank c = true /\ start_job k n c now p = (rejected, p)) \/
  (blank c = false /\ (0 < n)%Z /\
   start_job k n c now p
     = (started (make_gen_id k n now),
        thread_start (mkThread k (make_gen_id k n now) (text_of c))
          (registry_set (make_gen_id k n now) (mkJob generating PNone) p))) \/
  (blank c = false /\ (n <= 0)%Z /\ start_job k n c now p = (untouched, p)).
Proof.
  destruct k; simpl; unfold start_generation, start_thumbnail_generation;
    destruct (blank c); auto; right;
    destruct (Z.ltb_spec 0 n); auto.
Qed.

Lemma with_start_clicks (k k' : Kind) (o : start_outputs) (n : Z) (b : Browser) :
  clicks k' (with_start k o n b) = if decide (k' = k) then n else clicks k' b.
Proof. destruct o as [[[[? ?] ?] ?] ?]. by destruct k, k'. Qed.

Lemma with_start_trigger (k k' : Kind) (o : start_outputs) (n : Z) (b : Browser) :
  trigger_of k' (with_start k o n b)
  = if decide (k' = k) then apply (fst (fst (fst (fst o)))) (trigger_of k b)
    else trigger_of k' b.
Proof. destruct o as [[[[? ?] ?] ?] ?]. by destruct k, k'. Qed.

(** The id made for the next click has not been issued yet. *)
Lemma next_id_not_issued (k : Kind) (now : str) (b : Browser) :
  ~ issued b (make_gen_id k (clicks k b + 1) now).
Proof.
  intros (k' & n & t & E & Hn). apply make_gen_id_inj in E as (<- & <- & _). lia.
Qed.

(** The state between the start callback and the check it triggers. *)
Lemma consistent_after_start (k : Kind) (now : str) (a : App) :
  consistent a ->
  let n := (clicks k (browser a) + 1)%Z in
  let r := start_job k n (blog_input (browser a)) now (process a) in
  consistent (mkApp (snd r) (with_start k (fst r) n (browser a))).
Proof.
  intros [Hr Ht Hg Hc Hd Hrun] n r.
  assert (Hiss : forall o id, issued (browser a) id ->
                              issued (with_start k o n (browser a)) id).
  { intros o id. apply issued_mono. intros k'. rewrite with_start_clicks.
    case_decide; [subst k'; unfold n|]; lia. }
  assert (Hnew : forall o t, issued (with_start k o n (browser a)) (make_gen_id k n t)).
  { intros o t. exists k, n, t. split; [done|]. rewrite with_start_clicks.
    rewrite decide_True by done. specialize (Hc k). lia. }
  assert (Hfresh : forall t, t ∈ threads (process a) ->
                             target_gen_id t <> make_gen_id k n now).
  { intros t Hin E. apply (next_id_not_issued k now (browser a)).
    fold n. rewrite <- E. by apply Ht. }
  subst r.
  destruct (start_job_cases k n (blog_input (browser a)) now (process a))
    as [(Hb & E)|[(Hb & Hn & E)|(Hb & Hn & E)]]; rewrite E; simpl.
  - split; simpl; auto.
    + intros k' id. rewrite with_start_trigger. case_decide; [done|].
      intros Hk. by apply Hiss, (Hg k').
    + intros k'. rewrite with_start_clicks. case_decide; [|done].
      specialize (Hc k). lia.
  - split; simpl.
    + intros id Hsome. destruct (decide (make_gen_id k n now = id)) as [<-|Hne]; [done|].
      rewrite lookup_insert_ne in Hsome by done. auto.
    + intros t [Hin| ->%list_elem_of_singleton]%elem_of_app; simpl; auto.
    + intros k' id. rewrite with_start_trigger. case_decide.
      * simpl. by intros [= <-].
      * intros Hk. by apply Hiss, (Hg k').
    + intros k'. rewrite with_start_clicks. case_decide; [|done].
      specialize (Hc k). lia.
    + rewrite fmap_app. apply NoDup_app. split; [done|]. split.
      * intros id (t & -> & Hin)%list_elem_of_fmap Hid.
        apply list_elem_of_singleton in Hid. by apply (Hfresh t).
      * apply NoDup_singleton.
    + intros t [Hin| ->%list_elem_of_singleton]%elem_of_app; simpl.
      * rewrite lookup_insert_ne; [auto|]. intros Heq. by apply (Hfresh t).
      * by rewrite lookup_insert_eq.
  - split; simpl; auto.
    + intros k' id. rewrite with_start_trigger. case_decide.
      * simpl. subst k'. intros Hk. by apply Hiss, (Hg k).
      * intros Hk. by apply Hiss, (Hg k').
    + intros k'. rewrite with_start_clicks. case_decide; [|done].
      specialize (Hc k). lia.
Qed.

Lemma consistent_after_click (k : Kind) (now : str) (a : App) :
  consistent a -> consistent (click_generate py k now a).
Proof.
  intros Ha. pose proof (consistent_after_start k now a Ha) as H. simpl in H.
  unfold click_generate.
  destruct (start_job k _ _ now (process a)) as [o p']. simpl in H.
  destruct (writes_n_intervals o); [by apply consistent_after_check|done].
Qed.

Lemma consistent_after_tick (k : Kind) (a : App) :
  consistent a -> consistent (interval_fires py k a).
Proof.
  intros Ha. unfold interval_fires.
  destruct (polling_disabled k (browser a)); [done|].
  apply consistent_after_check.
  destruct Ha as [Hr Ht Hg Hc Hd Hrun]. split; simpl; auto.
  - intros id H. destruct (Hr id H) as (k' & n & t & -> & Hn).
    exists k', n, t. split; [done|]. by destruct k, k'.
  - intros t H. destruct (Ht t H) as (k' & n & t' & -> & Hn).
    exists k', n, t'. split; [done|]. by destruct k, k'.
  - intros k' id H. assert (H' : trigger_of k' (browser a) = Some id) by by destruct k, k'.
    destruct (Hg k' id H') as (k'' & n & t' & -> & Hn).
    exists k'', n, t'. split; [done|]. by destruct k, k''.
  - intros k'. specialize (Hc k'). by destruct k, k'.
Qed.

Lemma NoDup_delete_other {A B : Type} (f : A -> B) (l : list A) (i : nat) (x : A) :
  NoDup (f <$> l) -> l !! i = Some x -> forall y, y ∈ delete i l -> f y <> f x.
Proof.
  intros Hd Hi y Hy E.
  rewrite <- (take_drop_middle l i x Hi) in Hd.
  rewrite fmap_app, fmap_cons in Hd.
  apply NoDup_app in Hd as (_ & Hleft & Hright).
  apply NoDup_cons in Hright as [Hright _].
  rewrite delete_take_drop in Hy.
  apply elem_of_app in Hy as [Hy|Hy].
  - apply (Hleft (f x)); [|by left]. rewrite <- E. by apply list_elem_of_fmap_2.
  - apply Hright. rewrite <- E. by apply list_elem_of_fmap_2.
Qed.

(** The write of a finishing thread: one registry entry, in a terminal
    status. *)
Lemma generate_in_background_set (remote : Remote) (t : Thread) (p : Process) :
  exists job,
    is_terminal (status job) = true /\
    generate_in_background py hooks_system_prompt thumbnails_system_prompt remote t p
    = registry_set (target_gen_id t) job p.
Proof.
  unfold generate_in_background.
  destruct (generate_for _ _ _ _ _ _ _) as [r|e];
    eexists; (split; [|reflexivity]); reflexivity.
Qed.

Lemma consistent_after_finish (remote : Remote) (i : nat) (a : App) :
  consistent a ->
  consistent (thread_finishes py hooks_system_prompt thumbnails_system_prompt remote i a).
Proof.
  intros [Hr Ht Hg Hc Hd Hrun]. unfold thread_finishes.
  destruct (threads (process a) !! i) as [t|] eqn:Hi; [|done].
  destruct (generate_in_background_set remote t
              (mkProcess (endpoint_name (process a)) (generation_status (process a))
                         (delete i (threads (process a)))))
    as (job & _ & ->).
  assert (Hin : t ∈ threads (process a)) by (by eapply list_elem_of_lookup_2).
  split; simpl; auto.
  - intros id Hsome. destruct (decide (target_gen_id t = id)) as [<-|Hne]; [auto|].
    rewrite lookup_insert_ne in Hsome by done. auto.
  - intros t' Hin'. apply Ht. by eapply list_elem_of_delete_inv.
  - rewrite list_fmap_delete. eapply sublist_NoDup; [exact Hd|]. apply sublist_delete.
  - intros t' Hin'. rewrite lookup_insert_ne.
    + apply Hrun. by eapply list_elem_of_delete_inv.
    + intros E. by apply (NoDup_delete_other target_gen_id _ i t Hd Hi t' Hin').
Qed.

Lemma click_clear_frame (a : App) :
  process (click_clear py a) = process a /\
  (forall k, clicks k (browser (click_clear py a)) = clicks k (browser a)) /\
  (forall k, trigger_of k (browser (click_clear py a)) = trigger_of k (browser a)) /\
  (forall k, polling_disabled k (browser (click_clear py a))
             = polling_disabled k (browser a)).
Proof.
  unfold click_clear.
  destruct (clear_all _) as [[o_input o_container] o_result].
  destruct (clear_thumbnails _) as [t_container t_result]. simpl.
  split; [done|].
  split; [|split]; intros k.
  - destruct (run_display_frame thumbnails k (run_display_results
      (mkBrowser (apply o_input (blog_input (browser a))) (clear_clicks (browser a) + 1)
         (loading_style (browser a))
         (mkPanel (n_clicks (hook_panel (browser a))) (trigger (hook_panel (browser a)))
            (apply o_result (result_data (hook_panel (browser a))))
            (interval_disabled (hook_panel (browser a)))
            (n_intervals (hook_panel (browser a)))
            (apply o_container (container_style (hook_panel (browser a))))
            (children (hook_panel (browser a))) (store (hook_panel (browser a))))
         (mkPanel (n_clicks (thumbnail_panel (browser a)))
            (trigger (thumbnail_panel (browser a)))
            (apply t_result (result_data (thumbnail_panel (browser a))))
            (interval_disabled (thumbnail_panel (browser a)))
            (n_intervals (thumbnail_panel (browser a)))
            (apply t_container (container_style (thumbnail_panel (browser a))))
            (children (thumbnail_panel (browser a)))
            (store (thumbnail_panel (browser a))))))) as (E & _).
    simpl in E. rewrite E. clear E.
    match goal with |- clicks k (run_display_results ?b) = _ =>
      destruct (run_display_frame hooks k b) as (E & _) end.
    simpl in E. rewrite E. by destruct k.
  - match goal with |- trigger_of k (run_display_thumbnail_results py ?b) = _ =>
      destruct (run_display_frame thumbnails k b) as (_ & E & _) end.
    simpl in E. rewrite E. clear E.
    match goal with |- trigger_of k (run_display_results ?b) = _ =>
      destruct (run_display_frame hooks k b) as (_ & E & _) end.
    simpl in E. rewrite E. by destruct k.
  - match goal with |- polling_disabled k (run_display_thumbnail_results py ?b) = _ =>
      destruct (run_display_frame thumbnails k b) as (_ & _ & E & _) end.
    simpl in E. rewrite E. clear E.
    match goal with |- polling_disabled k (run_display_results ?b) = _ =>
      destruct (run_display_frame hooks k b) as (_ & _ & E & _) end.
    simpl in E. rewrite E. by destruct k.
Qed.

Lemma consistent_after_clear (a : App) :
  consistent a -> consistent (click_clear py a).
Proof.
  intros [Hr Ht Hg Hc Hd Hrun].
  destruct (click_clear_frame a) as (Hp & Hclicks & Htrig & _).
  assert (Hiss : forall id, issued (browser a) id -> issued (browser (click_clear py a)) id).
  { intros id. apply issued_mono. intros k'. rewrite Hclicks. lia. }
  split.
  - intros id. rewrite Hp. auto.
  - intros t. rewrite Hp. auto.
  - intros k id. rewrite Htrig. intros H. by apply Hiss, (Hg k).
  - intros k. rewrite Hclicks. apply Hc.
  - by rewrite Hp.
  - intros t. rewrite Hp. auto.
Qed.

Lemma consistent_after_edit (v : option str) (a : App) :
  consistent a -> consistent (edit_input v a).
Proof. intros [Hr Ht Hg Hc Hd Hrun]. by split. Qed.

Lemma consistent_step (a : App) (e : event) : consistent a -> consistent (step' a e).
Proof.
  destruct e; simpl.
  - apply consistent_after_click.
  - apply consistent_after_finish.
  - apply consistent_after_tick.
  - apply consistent_after_clear.
  - apply consistent_after_edit.
Qed.

Lemma consistent_run (es : list event) (a : App) : consistent a -> consistent (run' a es).
Proof.
  revert a. induction es as [|e es IH]; intros a Ha; [done|].
  simpl. apply IH. by apply consistent_step.
Qed.

Lemma consistent_initial (endpoint : str) : consistent (initial_app endpoint).
Proof.
  split; simpl.
  - intros id [j Hj]. by rewrite lookup_empty in Hj.
  - intros t Hin. by apply not_elem_of_nil in Hin.
  - by intros [] id.
  - by intros [].
  - apply NoDup_nil_2.
  - intros t Hin. by apply not_elem_of_nil in Hin.
Qed.

Lemma reachable_consistent (a : App) : reachable' a -> consistent a.
Proof. intros (endpoint & es & ->). apply consistent_run, consistent_initial. Qed.

Lemma reachable_step (a : App) (e : event) : reachable' a -> reachable' (step' a e).
Proof.
  intros (endpoint & es & ->). exists endpoint, (es ++ [e]).
  unfold run. by rewrite fold_left_app.
Qed.

Lemma retired_after_check (k : Kind) (a : App) (id : str) :
  retired a id -> retired (run_check py k a) id.
Proof.
  intros (Hi & Hn & Ht).
  destruct (run_check_effect k a) as (Hp & Hclicks & _).
  split; [|split].
  - eapply issued_mono; [|exact Hi]. intros k'. rewrite Hclicks. lia.
  - destruct Hp as [E|(id' & job & _ & _ & E)]; rewrite E; [done|].
    simpl. destruct (decide (id' = id)) as [->|Hne].
    + apply lookup_delete_eq.
    + by rewrite lookup_delete_ne.
  - intros t Hin. apply Ht.
    by destruct Hp as [E|(id' & job & _ & _ & E)]; rewrite E in Hin.
Qed.

Lemma retired_step (a : App) (e : event) (id : str) :
  consistent a -> retired a id -> retired (step' a e) id.
Proof.
  intros Ha (Hi & Hn & Ht). destruct e as [k now|remote i|k| |v]; simpl.
  - unfold click_generate.
    set (n := (clicks k (browser a) + 1)%Z).
    assert (Hne : make_gen_id k n now <> id).
    { intros <-. by apply (next_id_not_issued k now (browser a)). }
    assert (Hmid : retired (mkApp (snd (start_job k n (blog_input (browser a)) now (process a)))
                                  (with_start k (fst (start_job k n (blog_input (browser a))
                                                        now (process a))) n (browser a))) id).
    { split; [|split]; simpl.
      - eapply issued_mono; [|exact Hi]. intros k'. rewrite with_start_clicks.
        case_decide; [subst k'; unfold n|]; lia.
      - destruct (start_job_cases k n (blog_input (browser a)) now (process a))
          as [(_ & E)|[(_ & _ & E)|(_ & _ & E)]]; rewrite E; simpl; auto.
        by rewrite lookup_insert_ne.
      - destruct (start_job_cases k n (blog_input (browser a)) now (process a))
          as [(_ & E)|[(_ & _ & E)|(_ & _ & E)]]; rewrite E; simpl; auto.
        intros t [Hin| ->%list_elem_of_singleton]%elem_of_app; simpl; auto. }
    destruct (start_job k n _ now (process a)) as [o p']. simpl in Hmid.
    destruct (writes_n_intervals o); [by apply retired_after_check|done].
  - unfold thread_finishes.
    destruct (threads (process a) !! i) as [t|] eqn:Hti; [|done].
    destruct (generate_in_background_set remote t
                (mkProcess (endpoint_name (process a)) (generation_status (process a))
                           (delete i (threads (process a)))))
      as (job & _ & ->).
    split; [done|]. split; simpl.
    + rewrite lookup_insert_ne; [done|]. apply Ht. by eapply list_elem_of_lookup_2.
    + intros t' Hin'. apply Ht. by eapply list_elem_of_delete_inv.
  - unfold interval_fires. destruct (polling_disabled k (browser a)); [done|].
    apply retired_after_check. split; [|done].
    destruct Hi as (k' & n & t & -> & Hle). exists k', n, t. split; [done|].
    by destruct k, k'.
  - destruct (click_clear_frame a) as (Hp & Hclicks & _).
    split; [|split].
    + eapply issued_mono; [|exact Hi]. intros k'. rewrite Hclicks. lia.
    + by rewrite Hp.
    + intros t. rewrite Hp. auto.
  - done.
Qed.

Lemma retired_run (es : list event) (a : App) (id : str) :
  consistent a -> retired a id -> retired (run' a es) id.
Proof.
  revert a. induction es as [|e es IH]; intros a Ha Hr; [done|].
  simpl. apply IH; [by apply consistent_step|by apply retired_step].
Qed.

(** The page's own poll of the job its trigger names, once the job is
    terminal. *)
Lemma run_check_terminal (k : Kind) (a : App) (id : str) (job : Job) :
  consistent a ->
  trigger_of k (browser a) = Some id ->
  generation_status (process a) !! id = Some job ->
  is_terminal (status job) = true ->
  run_check py k a
  = mkApp (registry_del id (process a))
          (run_display py k (with_check k (result job, true) (browser a))).
Proof.
  intros Ha Htrig Hjob Hterm. unfold run_check. rewrite poll_same, Htrig.
  rewrite (check_terminal _ id job); [done| |done|done].
  eapply issued_nonempty, (trigger_issued a Ha k id Htrig).
Qed.

End Reachable.

(** ** The click count of the Clear button *)

Section ClearClicks.

Context (py : Interpreter) (hooks_system_prompt thumbnails_system_prompt : str).

Lemma run_display_clear_clicks (k : Kind) (b : Browser) :
  clear_clicks (run_display py k b) = clear_clicks b.
Proof.
  destruct k; simpl.
  - unfold run_display_results. by destruct (display_results _) as [[[? ?] ?] ?].
  - unfold run_display_thumbnail_results.
    by destruct (display_thumbnail_results _ _) as [[[[? ?] ?] ?]|?].
Qed.

Lemma run_check_clear_clicks (k : Kind) (a : App) :
  clear_clicks (browser (run_check py k a)) = clear_clicks (browser a).
Proof.
  unfold run_check. destruct (poll k _ _ _) as [o p']. cbn [browser].
  rewrite run_display_clear_clicks. by destruct k.
Qed.

Lemma clear_clicks_step (a : App) (e : event) :
  (0 <= clear_clicks (browser a))%Z ->
  (0 <= clear_clicks (browser (step py hooks_system_prompt thumbnails_system_prompt a e)))%Z.
Proof.
  intros H. destruct e as [k now|remote i|k| |v]; simpl.
  - unfold click_generate. destruct (start_job k _ _ now (process a)) as [o p'].
    destruct (writes_n_intervals o).
    + rewrite run_check_clear_clicks. cbn [browser].
      destruct o as [[[[? ?] ?] ?] ?]. by destruct k.
    + cbn [browser]. destruct o as [[[[? ?] ?] ?] ?]. by destruct k.
  - unfold thread_finishes. by destruct (threads (process a) !! i).
  - unfold interval_fires. destruct (polling_disabled k (browser a)); [done|].
    rewrite run_check_clear_clicks. by destruct k.
  - unfold click_clear.
    destruct (clear_all _) as [[o_input o_container] o_result].
    destruct (clear_thumbnails _) as [t_container t_result]. cbn [browser].
    pose proof (run_display_clear_clicks thumbnails) as Ht.
    pose proof (run_display_clear_clicks hooks) as Hh.
    simpl in Ht, Hh. rewrite Ht, Hh. cbn [clear_clicks]. lia.
  - done.
Qed.

Lemma reachable_clear_clicks (a : App) :
  reachable py hooks_system_prompt thumbnails_system_prompt a ->
  (0 <= clear_clicks (browser a))%Z.
Proof.
  intros (endpoint & es & ->).
  assert (H : forall es a0, (0 <= clear_clicks (browser a0))%Z ->
            (0 <= clear_clicks
                    (browser (run py hooks_system_prompt thumbnails_system_prompt a0 es)))%Z).
  { clear es. intros es. induction es as [|e es IH]; intros a0 H0; [done|].
    simpl. apply IH. by apply clear_clicks_step. }
  by apply H.
Qed.

End ClearClicks.

(** ** Consume-once *)

Section Claims.

Context (py : Interpreter) (hooks_system_prompt thumbnails_system_prompt : str).

Local Abbreviation run' := (run py hooks_system_prompt thumbnails_system_prompt).
Local Abbreviation reachable' := (reachable py hooks_system_prompt thumbnails_system_prompt).

(** C1.  In every reachable state and for every job id whose registry entry
    is terminal ([complete] or [error]): a poll of that id, by either check
    callback, returns the stored result with the interval disabled and
    deletes the entry; a second poll right after it returns no result with
    the interval disabled and changes nothing; and when the first poll is
    the page's own (its trigger names the id), the id is absent from the
    registry after any further events, so that every later poll of it again
    returns no result with the interval disabled. *)
Theorem consume_once (a : App) (id : str) (job : Job) :
  reachable' a ->
  generation_status (process a) !! id = Some job ->
  is_terminal (status job) = true ->
  (forall k n,
     poll k n (Some id) (process a) = ((result job, true), registry_del id (process a))) /\
  generation_status (registry_del id (process a)) !! id = None /\
  (forall k n, poll k n (Some id) (registry_del id (process a))
               = ((PNone, true), registry_del id (process a))) /\
  (forall k es k' n,
     trigger_of k (browser a) = Some id ->
     let a' := run' (run_check py k a) es in
     generation_status (process a') !! id = None /\
     poll k' n (Some id) (process a') = ((PNone, true), process a')).
Proof.
  intros Hreach Hjob Hterm.
  pose proof (reachable_consistent _ _ _ _ Hreach) as Ha.
  assert (Hid : id <> []).
  { eapply issued_nonempty, (registry_issued a Ha). by rewrite Hjob. }
  split; [|split; [|split]].
  - intros k n. rewrite poll_same. by apply check_terminal.
  - apply lookup_delete_eq.
  - intros k n. rewrite poll_same. apply check_absent.
    intros id' [= <-]. right. apply lookup_delete_eq.
  - intros k es k' n Htrig a'.
    assert (Hret : retired (run_check py k a) id).
    { rewrite (run_check_terminal py k a id job Ha Htrig Hjob Hterm).
      split; [|split]; simpl.
      - eapply issued_mono; [|apply (registry_issued a Ha); by rewrite Hjob].
        intros k''.
        destruct (run_display_frame py k k'' (with_check k (result job, true) (browser a)))
          as (-> & _).
        destruct (with_check_frame k k'' (result job, true) (browser a)) as (-> & _). lia.
      - apply lookup_delete_eq.
      - intros t Hin E. pose proof (threads_running a Ha t Hin) as Hrun.
        rewrite E, Hjob in Hrun. injection Hrun as ->. discriminate Hterm. }
    assert (Hret' : retired a' id).
    { apply retired_run; [|exact Hret]. by apply consistent_after_check. }
    destruct Hret' as (_ & Hnone & _). split; [exact Hnone|].
    rewrite poll_same. apply check_absent. intros id' [= <-]. by right.
Qed.

(** ** Starting a job *)

Lemma blank_false (content : str) :
  Exists (fun c => isspace c = false) content -> blank (Some content) = false.
Proof.
  intros H. pose proof (strip_nonempty content H) as Hs. unfold blank.
  destruct content as [|c s]; [by apply Exists_nil in H|].
  by destruct (strip (c :: s)).
Qed.

(** C2.  For a non-blank content, the start callback of either kind called
    with a positive click count, in any process state, writes the registry
    entry of the id made from the kind, the click count and the clock
    reading, with status [generating] and no result, then starts the thread
    (at that moment the entry is already there and the thread list is still
    the old one), and returns that id with the interval enabled, the thread
    being still pending.  In every reachable state a click on a generate
    button while the input holds that content calls it so, with a click
    count that is positive and an id that is fresh; after the click the
    trigger holds the id whatever the services answer later and whether or
    not a thread has finished. *)
Theorem start_registers_then_dispatches (k : Kind) (now content : str) :
  Exists (fun c => isspace c = false) content ->
  (forall n p,
     (0 < n)%Z ->
     let gen_id := make_gen_id k n now in
     let p1 := registry_set gen_id (mkJob generating PNone) p in
     let p2 := thread_start (mkThread k gen_id content) p1 in
     start_job k n (Some content) now p
       = ((set (Some gen_id), set display_block, set display_none, set false, set 0%Z), p2) /\
     generation_status p1 !! gen_id = Some (mkJob generating PNone) /\
     threads p1 = threads p /\
     threads p2 = threads p ++ [mkThread k gen_id content] /\
     generation_status p2 !! gen_id = Some (mkJob generating PNone)) /\
  (forall a,
     reachable' a ->
     blog_input (browser a) = Some content ->
     let n := (clicks k (browser a) + 1)%Z in
     let gen_id := make_gen_id k n now in
     (0 < n)%Z /\
     generation_status (process a) !! gen_id = None /\
     process (click_generate py k now a)
       = thread_start (mkThread k gen_id content)
           (registry_set gen_id (mkJob generating PNone) (process a)) /\
     polling_disabled k (browser (click_generate py k now a)) = false /\
     forall remote i,
       trigger_of k (browser (click_generate py k now a)) = Some gen_id /\
       trigger_of k (browser (thread_finishes py hooks_system_prompt
                                thumbnails_system_prompt remote i
                                (click_generate py k now a))) = Some gen_id).
Proof.
  intros Hnb.
  assert (Hcall : forall n p, (0 < n)%Z ->
            start_job k n (Some content) now p
            = (started (make_gen_id k n now),
               thread_start (mkThread k (make_gen_id k n now) content)
                 (registry_set (make_gen_id k n now) (mkJob generating PNone) p))).
  { intros n p Hn.
    destruct (start_job_cases k n (Some content) now p)
      as [(Hb & _)|[(_ & _ & E)|(_ & Hle & _)]].
    - by rewrite (blank_false content Hnb) in Hb.
    - exact E.
    - lia. }
  split.
  - intros n p Hn gen_id p1 p2. split; [by apply Hcall|].
    split; [apply lookup_insert_eq|]. split; [reflexivity|]. split; [reflexivity|].
    apply lookup_insert_eq.
  - intros a Hreach Hinput n gen_id.
    pose proof (reachable_consistent _ _ _ _ Hreach) as Ha.
    set (p2 := thread_start (mkThread k gen_id content)
                 (registry_set gen_id (mkJob generating PNone) (process a))).
    assert (Hn : (0 < n)%Z) by (pose proof (clicks_nonneg a Ha k); unfold n; lia).
    assert (Hstart : start_job k n (blog_input (browser a)) now (process a)
                     = (started gen_id, p2)) by (rewrite Hinput; by apply Hcall).
    assert (Hfresh : generation_status (process a) !! gen_id = None).
    { destruct (generation_status (process a) !! gen_id) as [j|] eqn:E; [|done].
      exfalso. apply (next_id_not_issued k now (browser a)).
      apply (registry_issued a Ha). fold n. fold gen_id. by rewrite E. }
    assert (Hclick : click_generate py k now a
                     = run_check py k (mkApp p2 (with_start k (started gen_id) n (browser a)))).
    { unfold click_generate. fold n. by rewrite Hstart. }
    assert (Hcheck : run_check py k (mkApp p2 (with_start k (started gen_id) n (browser a)))
                     = mkApp p2 (run_display py k
                                   (with_check k (PNone, false)
                                      (with_start k (started gen_id) n (browser a))))).
    { unfold run_check. cbn [process browser]. rewrite poll_same, with_start_trigger.
      rewrite decide_True by done. cbn -[check_generation_status].
      rewrite (check_running _ gen_id (mkJob generating PNone)); try done.
      - apply make_gen_id_nonempty.
      - simpl. apply lookup_insert_eq. }
    split; [exact Hn|]. split; [exact Hfresh|].
    rewrite Hclick, Hcheck. cbn [process browser]. split; [reflexivity|].
    assert (Htrig : trigger_of k (run_display py k
                                    (with_check k (PNone, false)
                                       (with_start k (started gen_id) n (browser a))))
                    = Some gen_id).
    { destruct (run_display_frame py k k (with_check k (PNone, false)
                  (with_start k (started gen_id) n (browser a)))) as (_ & -> & _).
      destruct (with_check_frame k k (PNone, false)
                  (with_start k (started gen_id) n (browser a))) as (_ & -> & _).
      rewrite with_start_trigger. by rewrite decide_True. }
    split.
    + destruct (run_display_frame py k k (with_check k (PNone, false)
                  (with_start k (started gen_id) n (browser a)))) as (_ & _ & -> & _).
      by destruct k.
    + intros remote i. split; [exact Htrig|].
      unfold thread_finishes. cbn [process browser].
      by destruct (threads p2 !! i).
Qed.


(** ** A generation that raises *)

(** C4.  In every reachable state, when the thread at position [i] finishes
    and its generation call raises [e]: the thread writes, for its job id,
    the entry with status [error] and result the cross mark followed by
    [ Error: ] and the text of [e]; it is removed from the running threads
    and none is started, so there is no retry and no other running thread
    carries that id; the page is left as it was; and a poll of that id then
    returns that text with the interval disabled and deletes the entry. *)
Theorem raising_generation_is_recorded (a : App) (i : nat) (t : Thread)
    (remote : Remote) (e : exn) :
  reachable' a ->
  threads (process a) !! i = Some t ->
  generate_for py hooks_system_prompt thumbnails_system_prompt remote
    (target_kind t) (endpoint_name (process a)) (target_blog_content t) = Raise e ->
  let a1 := thread_finishes py hooks_system_prompt thumbnails_system_prompt remote i a in
  let message := PStr (CROSS_MARK :: lit " Error: " ++ str_of_exn py e) in
  generation_status (process a1)
    = <[target_gen_id t := mkJob error message]> (generation_status (process a)) /\
  threads (process a1) = delete i (threads (process a)) /\
  (forall t', t' ∈ threads (process a1) -> target_gen_id t' <> target_gen_id t) /\
  browser a1 = browser a /\
  forall k n,
    poll k n (Some (target_gen_id t)) (process a1)
      = ((message, true), registry_del (target_gen_id t) (process a1)) /\
    generation_status (registry_del (target_gen_id t) (process a1)) !! target_gen_id t
      = None.
Proof.
  intros Hreach Hi Hraise a1 message.
  pose proof (reachable_consistent _ _ _ _ Hreach) as Ha.
  assert (E1 : a1 = mkApp (registry_set (target_gen_id t) (mkJob error message)
                             (mkProcess (endpoint_name (process a))
                                        (generation_status (process a))
                                        (delete i (threads (process a)))))
                          (browser a)).
  { unfold a1, thread_finishes. rewrite Hi. unfold generate_in_background.
    cbn [endpoint_name]. by rewrite Hraise. }
  rewrite E1. cbn [process browser registry_set generation_status threads endpoint_name].
  split; [reflexivity|]. split; [reflexivity|]. split.
  - intros t' Hin. by apply (NoDup_delete_other target_gen_id _ i t (threads_distinct a Ha) Hi).
  - split; [reflexivity|]. intros k n. split.
    + rewrite poll_same.
      rewrite (check_terminal n (target_gen_id t) (mkJob error message)); try done.
      * eapply issued_nonempty, (threads_issued a Ha). by eapply list_elem_of_lookup_2.
      * cbn. apply lookup_insert_eq.
    + cbn. apply lookup_delete_eq.
Qed.

(** ** Failures of the generation *)

Lemma query_endpoint_task_raises (remote : Remote) (ep : str) (msgs : pyval) (mt : Z)
    (e : exn) :
  endpoint_task remote ep = Raise e -> _query_endpoint remote ep msgs mt = Raise e.
Proof.
  intros H. unfold _query_endpoint, _validate_endpoint_task_type,
    is_endpoint_supported, _get_endpoint_task_type. by rewrite H.
Qed.

Lemma query_endpoint_unsupported (remote : Remote) (ep : str) (msgs : pyval) (mt : Z)
    (task : pyval) :
  endpoint_task remote ep = Ok task ->
  existsb (fun t => is_text t task) supported_task_types = false ->
  _query_endpoint remote ep msgs mt = Raise (Exception UNSUPPORTED_ENDPOINT).
Proof.
  intros H1 H2. unfold _query_endpoint, _validate_endpoint_task_type,
    is_endpoint_supported, _get_endpoint_task_type. rewrite H1. cbn [bind].
  by rewrite H2.
Qed.

Lemma query_endpoint_supported (remote : Remote) (ep : str) (msgs : pyval) (mt : Z) :
  supported remote ep ->
  _query_endpoint remote ep msgs mt
  = (res <- chat_predict remote ep msgs mt ;;
     has_messages <- py_in (lit "messages") res ;;
     if has_messages then getitem res (lit "messages")
     else
       has_choices <- py_in (lit "choices") res ;;
       if has_choices then
         choices <- getitem res (lit "choices") ;;
         choice <- getitem_first choices ;;
         choice_message <- getitem choice (lit "message") ;;
         choice_content <- py_get choice_message (lit "content") PNone ;;
         match choice_content with
         | PList parts =>
             texts <- text_parts parts ;;
             combined_content <- join_values texts ;;
             role <- py_get choice_message (lit "role") PNone ;;
             Ok (PList [PDict [(lit "role", role);
                               (lit "content", PStr combined_content)]])
         | PStr _ => Ok (PList [choice_message])
         | _ => Raise (Exception UNSUPPORTED_RESPONSE)
         end
       else Raise (Exception UNSUPPORTED_RESPONSE)).
Proof.
  intros (task & H1 & H2). unfold _query_endpoint at 1, _validate_endpoint_task_type,
    is_endpoint_supported, _get_endpoint_task_type. rewrite H1. cbn [bind].
  by rewrite H2.
Qed.

Lemma generate_for_query_raises (remote : Remote) (k : Kind) (ep content : str)
    (e : exn) :
  _query_endpoint remote ep
    (request_of hooks_system_prompt thumbnails_system_prompt k content) 65536 = Raise e ->
  generate_for py hooks_system_prompt thumbnails_system_prompt remote k ep content
  = Raise (Exception (failure_prefix k ++ str_of_exn py e)).
Proof.
  intros H. destruct k; unfold generate_for, generate_hooks, generate_thumbnails,
    thumbnail_concepts, request_of in *; cbn zeta; by rewrite H.
Qed.

Lemma no_descriptions_without_content :
  findall py IMAGE_DESCRIPTION_RE NO_CONTENT = [].
Proof. reflexivity. Qed.

Lemma generate_for_no_content (remote : Remote) (k : Kind) (ep content : str)
    (reply : pyval) :
  supported remote ep ->
  chat_predict remote ep
    (request_of hooks_system_prompt thumbnails_system_prompt k content) 65536 = Ok reply ->
  no_message_content reply ->
  generate_for py hooks_system_prompt thumbnails_system_prompt remote k ep content
  = Ok (no_content_result k).
Proof.
  intros Hs Hreply (d & msgs & m & -> & Hd & Hlast & Hm).
  assert (Hq : _query_endpoint remote ep
                 (request_of hooks_system_prompt thumbnails_system_prompt k content) 65536
               = Ok (PList msgs)).
  { rewrite (query_endpoint_supported _ _ _ _ Hs), Hreply. cbn [bind py_in].
    rewrite Hd. cbn [bind getitem]. by rewrite Hd. }
  destruct k; unfold generate_for, generate_hooks, generate_thumbnails,
    thumbnail_concepts, request_of in *; cbn zeta; rewrite Hq;
    cbn [bind getitem_last]; rewrite Hlast; cbn [bind py_get]; rewrite Hm.
  - reflexivity.
  - cbn [bind]. by rewrite no_descriptions_without_content.
Qed.

(** What the thread writes, by the outcome of its generation call. *)
Lemma generate_in_background_cases (remote : Remote) (t : Thread) (p : Process) :
  let p' := generate_in_background py hooks_system_prompt thumbnails_system_prompt
              remote t p in
  (forall r,
     generate_for py hooks_system_prompt thumbnails_system_prompt remote (target_kind t)
       (endpoint_name p) (target_blog_content t) = Ok r ->
     p' = registry_set (target_gen_id t) (mkJob complete r) p) /\
  (forall e,
     generate_for py hooks_system_prompt thumbnails_system_prompt remote (target_kind t)
       (endpoint_name p) (target_blog_content t) = Raise e ->
     p' = registry_set (target_gen_id t)
            (mkJob error (PStr (CROSS_MARK :: lit " Error: " ++ str_of_exn py e))) p).
Proof.
  unfold generate_in_background. split; intros x H; by rewrite H.
Qed.

(** C5, as the code has it.  A finishing thread always writes exactly one
    terminal entry for its job id and raises nothing.  Whatever its
    generation call raises is recorded with status [error] and the text made
    of the cross mark, [ Error: ] and the text of the exception; this is
    what happens when the task-type query raises, when the endpoint type is
    not supported, when the chat call raises, when the reply has neither
    [messages] nor [choices], when its [messages] list is empty, and when
    the content of its first choice is neither a text nor a list.  A reply
    whose last message has no [content] is not treated as a failure: the
    entry is [complete] and its result is the text [Error: No content in
    response] (followed by the images header for thumbnails). *)
Theorem raised_failures_are_recorded (remote : Remote) (t : Thread) (p : Process) :
  let k := target_kind t in
  let ep := endpoint_name p in
  let request :=
    request_of hooks_system_prompt thumbnails_system_prompt k (target_blog_content t) in
  let p' := generate_in_background py hooks_system_prompt thumbnails_system_prompt
              remote t p in
  let failed (msg : str) :=
    p' = registry_set (target_gen_id t)
           (mkJob error (PStr (CROSS_MARK :: lit " Error: " ++ failure_prefix k ++ msg))) p in
  (exists job, is_terminal (status job) = true /\ p' = registry_set (target_gen_id t) job p) /\
  (forall e,
     generate_for py hooks_system_prompt thumbnails_system_prompt remote k ep
       (target_blog_content t) = Raise e ->
     p' = registry_set (target_gen_id t)
            (mkJob error (PStr (CROSS_MARK :: lit " Error: " ++ str_of_exn py e))) p) /\
  (forall e, endpoint_task remote ep = Raise e -> failed (str_of_exn py e)) /\
  (forall task,
     endpoint_task remote ep = Ok task ->
     existsb (fun s => is_text s task) supported_task_types = false ->
     failed UNSUPPORTED_ENDPOINT) /\
  (supported remote ep ->
   (forall e, chat_predict remote ep request 65536 = Raise e -> failed (str_of_exn py e)) /\
   (forall reply,
      chat_predict remote ep request 65536 = Ok reply ->
      (py_in (lit "messages") reply = Ok false ->
       py_in (lit "choices") reply = Ok false ->
       failed UNSUPPORTED_RESPONSE) /\
      (forall d, reply = PDict d -> assoc (lit "messages") d = Some (PList []) ->
                 failed (error_text py (IndexOutOfRange (PList [])))) /\
      (forall d choices choice m,
         reply = PDict d ->
         assoc (lit "messages") d = None ->
         assoc (lit "choices") d = Some choices ->
         getitem_first choices = Ok choice ->
         getitem choice (lit "message") = Ok (PDict m) ->
         match assoc (lit "content") m with
         | Some (PList _) | Some (PStr _) => False
         | _ => True
         end ->
         failed UNSUPPORTED_RESPONSE) /\
      (no_message_content reply ->
       p' = registry_set (target_gen_id t) (mkJob complete (no_content_result k)) p))).
Proof.
  intros k ep request p' failed.
  destruct (generate_in_background_cases remote t p) as [Hok Hraise].
  fold p' in Hok, Hraise. fold k in Hok, Hraise. fold ep in Hok, Hraise.
  assert (Hq : forall e, _query_endpoint remote ep request 65536 = Raise e ->
                         failed (str_of_exn py e)).
  { intros e H. unfold failed. rewrite (Hraise _ (generate_for_query_raises _ _ _ _ _ H)).
    reflexivity. }
  split; [apply generate_in_background_set|].
  split; [exact Hraise|].
  split; [intros e H; by apply Hq, query_endpoint_task_raises|].
  split; [intros task H1 H2; by apply (Hq (Exception _)), (query_endpoint_unsupported _ _ _ _ task)|].
  intros Hs. split.
  - intros e H. apply Hq. rewrite (query_endpoint_supported _ _ _ _ Hs). by rewrite H.
  - intros reply Hreply. split; [|split; [|split]].
    + intros H1 H2. apply (Hq (Exception _)).
      rewrite (query_endpoint_supported _ _ _ _ Hs), Hreply. cbn [bind].
      rewrite H1. cbn [bind]. by rewrite H2.
    + intros d -> Hd. unfold failed.
      assert (Hm : _query_endpoint remote ep request 65536 = Ok (PList [])).
      { rewrite (query_endpoint_supported _ _ _ _ Hs), Hreply. cbn [bind py_in].
        rewrite Hd. cbn [bind getitem]. by rewrite Hd. }
      rewrite (Hraise (Exception (failure_prefix k
                                    ++ error_text py (IndexOutOfRange (PList []))))).
      * reflexivity.
      * destruct k; unfold generate_for, generate_hooks, generate_thumbnails,
          thumbnail_concepts, request, request_of in *; cbn zeta; by rewrite Hm.
    + intros d choices choice m -> Hd Hc Hfirst Hmsg Hcontent.
      apply (Hq (Exception _)).
      rewrite (query_endpoint_supported _ _ _ _ Hs), Hreply. cbn [bind py_in].
      rewrite Hd. cbn [bind py_in]. rewrite Hc. cbn [bind getitem]. rewrite Hc.
      cbn [bind]. rewrite Hfirst. cbn [bind]. rewrite Hmsg. cbn [bind py_get].
      by destruct (assoc (lit "content") m) as [[]|].
    + intros Hno. apply Hok. by apply (generate_for_no_content _ _ _ _ reply).
Qed.

(** ** The thumbnail payload *)

Lemma image_blocks_imap (remote : Remote) (idx : nat) (descriptions : list str) :
  image_blocks py remote idx descriptions
  = imap (fun i desc => image_block py (idx + i)
                          (_generate_image remote (idx + i) (strip desc)))
         descriptions.
Proof.
  revert idx. induction descriptions as [|desc rest IH]; intros idx; [reflexivity|].
  cbn [image_blocks imap]. rewrite Nat.add_0_r. f_equal.
  rewrite IH. apply imap_ext. intros i x _. cbn. by rewrite Nat.add_succ_r.
Qed.

Lemma generate_image_catches (remote : Remote) (n : nat) (prompt : str) (e : exn) :
  image_predict remote n prompt = Raise e -> _generate_image remote n prompt = PStr [].
Proof. intros H. unfold _generate_image. by rewrite H. Qed.

(** C9.  When the concepts step of a thumbnail generation returns a text,
    the generation returns, whatever the image service does, the text, then
    the header around the [GENERATED IMAGES] line, then one block for each of
    the first two image descriptions found in the text, in order and
    numbered from 1: [Image n:], the opening marker, the image data and the
    closing marker, each on its line, when the image call gave a true value,
    and [Image n:] followed by the cross mark and [ Failed to generate]
    otherwise.  An image call that raises gives the empty text, which is
    false, so it is reported by the second form. *)
Theorem thumbnail_payload_has_one_block_per_description (remote : Remote)
    (ep content text : str) :
  thumbnail_concepts thumbnails_system_prompt remote ep content = Ok (PStr text) ->
  let descriptions := take 2 (findall py IMAGE_DESCRIPTION_RE text) in
  let image (i : nat) (desc : str) := _generate_image remote (S i) (strip desc) in
  let block (i : nat) (desc : str) :=
    if truthy (image i desc)
    then lit "Image " ++ str_of_int (Z.of_nat (S i)) ++ lit ":" ++ [NL]
         ++ lit "[BASE64_IMAGE_DATA]" ++ [NL] ++ format_value py (image i desc) ++ [NL]
         ++ lit "[END_IMAGE_DATA]" ++ [NL; NL]
    else lit "Image " ++ str_of_int (Z.of_nat (S i)) ++ lit ": " ++ [CROSS_MARK]
         ++ lit " Failed to generate" ++ [NL; NL] in
  generate_thumbnails py thumbnails_system_prompt remote ep content
    = Ok (text
          ++ ([NL; NL] ++ times 61 50 ++ [NL] ++ PALETTE :: lit " GENERATED IMAGES"
              ++ [NL] ++ times 61 50 ++ [NL; NL])
          ++ concat (imap block descriptions)) /\
  (length descriptions <= 2)%nat /\
  (forall i desc e,
     image_predict remote (S i) (strip desc) = Raise e ->
     image i desc = PStr [] /\ truthy (image i desc) = false).
Proof.
  intros Hconcepts descriptions image block.
  split; [|split].
  - unfold generate_thumbnails. rewrite Hconcepts. cbn [bind].
    rewrite image_blocks_imap. unfold join. cbn [concat app].
    fold descriptions. do 3 f_equal.
  - unfold descriptions. rewrite length_take. lia.
  - intros i desc e H. unfold image.
    by rewrite (generate_image_catches remote (S i) (strip desc) e H).
Qed.

(** ** Clear *)

Lemma click_clear_eq (a : App) :
  (0 <= clear_clicks (browser a))%Z ->
  let b := browser a in
  let hp := hook_panel b in
  let tp := thumbnail_panel b in
  click_clear py a
  = mkApp (process a)
      (mkBrowser (Some []) (clear_clicks b + 1) (loading_style b)
         (mkPanel (n_clicks hp) (trigger hp) PNone (interval_disabled hp) (n_intervals hp)
                  display_none (children hp) (store hp))
         (mkPanel (n_clicks tp) (trigger tp) PNone (interval_disabled tp) (n_intervals tp)
                  display_none (children tp) (store tp))).
Proof.
  intros H. cbv zeta. unfold click_clear, clear_all, clear_thumbnails.
  destruct (Z.eqb_spec (clear_clicks (browser a) + 1) 0) as [E|_]; [lia|].
  reflexivity.
Qed.

Lemma generate_in_background_result (remote : Remote) (t : Thread) (p : Process) :
  exists job,
    is_terminal (status job) = true /\
    (target_kind t = thumbnails -> exists text, result job = PStr text) /\
    generate_in_background py hooks_system_prompt thumbnails_system_prompt remote t p
    = registry_set (target_gen_id t) job p.
Proof.
  unfold generate_in_background, generate_for.
  destruct (target_kind t).
  - destruct (generate_hooks _ _ _ _ _) as [r|e];
      [exists (mkJob complete r)
      |exists (mkJob error (PStr (ERROR_PREFIX ++ str_of_exn py e)))];
      (split; [reflexivity|split; [intros [=]|reflexivity]]).
  - destruct (generate_thumbnails _ _ _ _ _) as [r|e];
      [exists (mkJob complete (PStr r))
      |exists (mkJob error (PStr (ERROR_PREFIX ++ str_of_exn py e)))];
      (split; [reflexivity|split; [intros _; by eexists|reflexivity]]).
Qed.

Lemma shows_after_display (k : Kind) (b : Browser) (r : pyval) :
  r <> PNone ->
  (k = thumbnails -> exists text, r = PStr text) ->
  shows py k (run_display py k (with_check k (r, true) b)) r.
Proof.
  intros Hr Htext. destruct k; simpl.
  - unfold run_display_results. simpl. by destruct r.
  - destruct (Htext eq_refl) as [text ->]. exists text. split; [done|].
    unfold run_display_thumbnail_results. simpl. done.
Qed.

(** C10.  A click on Clear, in any state, leaves the process state as it
    was, so the registry keeps every entry, running or terminal, and no
    thread is touched, and it changes neither the disabled flag of the two
    intervals nor the two triggers; in a reachable state it empties the
    input and hides the two output containers, and sets the two result
    stores to [None].  Hence a job in flight survives it: if the page is
    polling the job of a running thread when Clear is clicked, then once
    that thread finishes, whatever the services answer, the next tick of
    the interval consumes the job (the entry is deleted, the interval is
    disabled) and, its result not being [None], the page shows it. *)
Theorem clear_only_resets_the_page (a : App) :
  let a1 := click_clear py a in
  process a1 = process a /\
  (forall k, polling_disabled k (browser a1) = polling_disabled k (browser a) /\
             trigger_of k (browser a1) = trigger_of k (browser a)) /\
  (reachable' a ->
   blog_input (browser a1) = Some [] /\
   container_style (hook_panel (browser a1)) = display_none /\
   container_style (thumbnail_panel (browser a1)) = display_none /\
   result_data (hook_panel (browser a1)) = PNone /\
   result_data (thumbnail_panel (browser a1)) = PNone) /\
  (reachable' a ->
   forall i t remote,
     threads (process a) !! i = Some t ->
     trigger_of (target_kind t) (browser a) = Some (target_gen_id t) ->
     polling_disabled (target_kind t) (browser a) = false ->
     let a2 := thread_finishes py hooks_system_prompt thumbnails_system_prompt
                 remote i a1 in
     let a3 := interval_fires py (target_kind t) a2 in
     exists job,
       is_terminal (status job) = true /\
       generation_status (process a2) !! target_gen_id t = Some job /\
       generation_status (process a3) !! target_gen_id t = None /\
       polling_disabled (target_kind t) (browser a3) = true /\
       (result job <> PNone -> shows py (target_kind t) (browser a3) (result job))).
Proof.
  intros a1. destruct (click_clear_frame py a) as (Hp & _ & Htrig & Hdis).
  fold a1 in Hp, Htrig, Hdis.
  split; [exact Hp|]. split; [intros k; by split|]. split.
  - intros Hreach. unfold a1.
    by rewrite (click_clear_eq a (reachable_clear_clicks _ _ _ a Hreach)).
  - intros Hreach i t remote Hi Ht Hd a2 a3.
    pose proof (reachable_consistent _ _ _ _ Hreach) as Ha.
    set (k := target_kind t) in *. set (id := target_gen_id t) in *.
    assert (Hid : id <> []) by (eapply issued_nonempty, (trigger_issued a Ha k id Ht)).
    destruct (generate_in_background_result remote t
                (mkProcess (endpoint_name (process a1)) (generation_status (process a1))
                           (delete i (threads (process a1)))))
      as (job & Hterm & Htext & Hgen).
    assert (E2 : a2 = mkApp (registry_set id job
                               (mkProcess (endpoint_name (process a1))
                                          (generation_status (process a1))
                                          (delete i (threads (process a1)))))
                            (browser a1)).
    { unfold a2, thread_finishes. rewrite Hp at 1. rewrite Hi. by rewrite Hgen. }
    assert (Hjob : generation_status (process a2) !! id = Some job).
    { rewrite E2. cbn. apply lookup_insert_eq. }
    assert (E3 : a3 = mkApp (registry_del id (process a2))
                            (run_display py k
                               (with_check k (result job, true) (with_tick k (browser a2))))).
    { unfold a3, interval_fires.
      assert (Hd2 : polling_disabled k (browser a2) = false).
      { rewrite E2. cbn [browser]. by rewrite Hdis. }
      rewrite Hd2. unfold run_check. cbn [process browser]. rewrite poll_same.
      assert (Ht2 : trigger_of k (with_tick k (browser a2)) = Some id).
      { rewrite E2. cbn [browser]. rewrite <- Ht, <- (Htrig k). by destruct k. }
      rewrite Ht2. by rewrite (check_terminal _ id job _ Hid Hjob Hterm). }
    exists job. split; [exact Hterm|]. split; [exact Hjob|].
    rewrite E3. cbn [process browser]. split; [apply lookup_delete_eq|]. split.
    + destruct (run_display_frame py k k
                  (with_check k (result job, true) (with_tick k (browser a2))))
        as (_ & _ & -> & _). by destruct k.
    + intros Hr. apply shows_after_display; [done|]. exact Htext.
Qed.

End Claims.

(** ** The matcher on the image-block pattern *)

Section Matcher.

Context (py : Interpreter).

Lemma or_else_none {A : Type} (x : option A) : or_else x None = x.
Proof. by destruct x. Qed.

Lemma rmatch_lit (l : str) (k : cont) (s : str) (cap : option str) :
  rmatch py (RLit l) k s cap
  = if startswith l s then k (drop (length l) s) cap else None.
Proof.
  revert s. induction l as [|c l IH]; intros s; [reflexivity|].
  destruct s as [|x s]; [reflexivity|].
  cbn [RLit rmatch one_char startswith length drop].
  destruct (c =? x); [apply IH|reflexivity].
Qed.

Lemma startswith_app (l s : str) : startswith l (l ++ s) = true.
Proof. induction l as [|c l IH]; [reflexivity|]. cbn. by rewrite N.eqb_refl. Qed.

Lemma rmatch_lit_app (l : str) (k : cont) (s : str) (cap : option str) :
  rmatch py (RLit l) k (l ++ s) cap = k s cap.
Proof. by rewrite rmatch_lit, startswith_app, drop_app_length. Qed.

Lemma star_greedy_class (p : N -> bool) (k : cont) (fuel : nat) (s : str)
    (cap : option str) :
  (length s <= fuel)%nat ->
  star_loop (one_char p) true k fuel s cap = greedy_class p k s cap.
Proof.
  revert s. induction fuel as [|fuel IH]; intros s Hlen.
  - destruct s; [reflexivity|simpl in Hlen; lia].
  - destruct s as [|c s]; [reflexivity|].
    cbn [star_loop one_char greedy_class]. destruct (p c); [|reflexivity].
    assert (Hlt : (length s <? length (c :: s))%nat = true)
      by (apply Nat.ltb_lt; simpl; lia).
    rewrite Hlt, IH; [reflexivity|simpl in Hlen; lia].
Qed.

Lemma star_lazy_any (k : cont) (fuel : nat) (s : str) (cap : option str) :
  (length s <= fuel)%nat ->
  star_loop (one_char (fun _ => true)) false k fuel s cap = lazy_any k s cap.
Proof.
  revert s. induction fuel as [|fuel IH]; intros s Hlen.
  - destruct s; [cbn; by rewrite or_else_none|simpl in Hlen; lia].
  - destruct s as [|c s]; [reflexivity|].
    cbn [star_loop one_char lazy_any].
    assert (Hlt : (length s <? length (c :: s))%nat = true)
      by (apply Nat.ltb_lt; simpl; lia).
    rewrite Hlt, IH; [reflexivity|simpl in Hlen; lia].
Qed.

(** A greedy run followed by something that no character of the class can
    start never gives a character back. *)
Lemma greedy_class_commits (p : N -> bool) (k : cont) (s : str) (cap : option str) :
  (forall c s' cap', p c = true -> k (c :: s') cap' = None) ->
  greedy_class p k s cap = k (skip_class p s) cap.
Proof.
  intros Hk. induction s as [|c s IH]; [reflexivity|].
  cbn [greedy_class skip_class]. destruct (p c) eqn:E; [|reflexivity].
  by rewrite IH, (Hk c s cap E), or_else_none.
Qed.

Lemma lazy_any_ext (k1 k2 : cont) (s : str) (cap : option str) :
  (forall s' cap', k1 s' cap' = k2 s' cap') -> lazy_any k1 s cap = lazy_any k2 s cap.
Proof.
  intros H. induction s as [|c s IH]; cbn [lazy_any]; rewrite H; [reflexivity|].
  by rewrite IH.
Qed.

Lemma match_block_correct (s : str) :
  isdecimal py 58 = false ->
  match_here py IMAGE_BLOCK_RE s = match_block py s.
Proof.
  intros Hcolon. unfold match_here, IMAGE_BLOCK_RE, match_block.
  cbn [rmatch]. rewrite rmatch_lit.
  destruct (startswith (lit "Image ") s); [|reflexivity].
  change (length (lit "Image ")) with 6%nat.
  destruct (drop 6 s) as [|c s1]; [reflexivity|].
  unfold RPlus. cbn [rmatch one_char].
  destruct (isdecimal py c); [|reflexivity].
  change (rmatch py RDigit) with (one_char (isdecimal py)).
  rewrite star_greedy_class by lia.
  rewrite greedy_class_commits.
  2:{ intros d s' cap' Hd. rewrite rmatch_lit.
      change (lit ":" ++ [NL] ++ lit "[BASE64_IMAGE_DATA]" ++ [NL])
        with (58 :: ([NL] ++ lit "[BASE64_IMAGE_DATA]" ++ [NL])).
      cbn [startswith]. destruct (N.eqb_spec 58 d) as [<-|_]; [|reflexivity].
      congruence. }
  rewrite rmatch_lit.
  change (lit ":" ++ [NL] ++ lit "[BASE64_IMAGE_DATA]" ++ [NL]) with BLOCK_OPEN.
  destruct (startswith BLOCK_OPEN (skip_class (isdecimal py) s1)); [|reflexivity].
  destruct (drop (length BLOCK_OPEN) (skip_class (isdecimal py) s1)) as [|x s4];
    [reflexivity|].
  cbn [rmatch one_char].
  change (rmatch py RAny) with (one_char (fun _ : N => true)).
  rewrite star_lazy_any by lia.
  apply lazy_any_ext. intros s' cap'. rewrite rmatch_lit. reflexivity.
Qed.

(** *** Occurrences *)

Lemma startswith_stop (sub t : str) (c : N) (r : str) :
  forallb (fun x => negb (x =? c)) sub = true ->
  startswith sub (t ++ c :: r) = startswith sub t.
Proof.
  revert t. induction sub as [|x sub IH]; intros t Hsub; [reflexivity|].
  cbn [forallb] in Hsub. apply andb_true_iff in Hsub as [Hx Hsub].
  destruct t as [|y t]; cbn [app startswith].
  - apply negb_true_iff in Hx. by rewrite Hx.
  - by rewrite IH.
Qed.

Lemma startswith_app_l (a b s : str) :
  startswith (a ++ b) s = true -> startswith a s = true.
Proof.
  revert s. induction a as [|x a IH]; intros s; [reflexivity|].
  destruct s as [|y s]; cbn [app startswith]; [discriminate|].
  intros [-> H]%andb_true_iff. by rewrite (IH s H).
Qed.

Lemma startswith_eq (l s : str) :
  startswith l s = true -> s = l ++ drop (length l) s.
Proof.
  revert s. induction l as [|x l IH]; intros s; [reflexivity|].
  destruct s as [|y s]; cbn [startswith]; [discriminate|].
  intros [Hxy H]%andb_true_iff. apply N.eqb_eq in Hxy as ->.
  cbn. f_equal. by apply IH.
Qed.

Lemma startswith_contains (sub s : str) :
  startswith sub s = true -> contains sub s = true.
Proof. intros H. destruct s; cbn [contains]; by rewrite H. Qed.

Lemma contains_cons (sub : str) (c : N) (s : str) :
  contains sub s = true -> contains sub (c :: s) = true.
Proof. intros H. cbn [contains]. rewrite H. apply orb_true_r. Qed.

Lemma contains_app_r (sub u s : str) :
  contains sub s = true -> contains sub (u ++ s) = true.
Proof. intros H. induction u as [|c u IH]; [done|]. by apply contains_cons. Qed.

Lemma contains_skip_class (sub : str) (p : N -> bool) (s : str) :
  contains sub (skip_class p s) = true -> contains sub s = true.
Proof.
  induction s as [|c s IH]; [done|]. cbn [skip_class].
  destruct (p c); [|done]. intros H. by apply contains_cons, IH.
Qed.

Lemma contains_app_stop (sub t : str) (c : N) (r : str) :
  forallb (fun x => negb (x =? c)) sub = true ->
  contains sub (t ++ c :: r) = contains sub t || contains sub (c :: r).
Proof.
  intros Hsub. induction t as [|y t IH].
  - cbn [app]. destruct sub as [|x sub]; [reflexivity|].
    cbn [contains startswith]. reflexivity.
  - change ((y :: t) ++ c :: r) with (y :: (t ++ c :: r)).
    cbn [contains]. rewrite IH.
    change (y :: (t ++ c :: r)) with ((y :: t) ++ c :: r).
    rewrite (startswith_stop sub (y :: t) c r Hsub).
    destruct t; cbn [contains]; by rewrite orb_assoc.
Qed.

Lemma skip_class_app_stop (p : N -> bool) (t : str) (c : N) (r : str) :
  p c = false -> skip_class p (t ++ c :: r) = skip_class p t ++ c :: r.
Proof.
  intros Hc. induction t as [|x t IH]; cbn [app skip_class]; [by rewrite Hc|].
  by destruct (p x).
Qed.

(** *** No image block starts in the concepts text *)

Lemma open_not_before_header (t r : str) :
  contains BASE64_IMAGE_DATA t = false ->
  startswith BLOCK_OPEN (t ++ NL :: NL :: r) = false.
Proof.
  intros Ht. destruct t as [|c1 [|c2 t3]].
  - reflexivity.
  - assert (E : BLOCK_OPEN = 58 :: 10 :: 91 :: drop 3 BLOCK_OPEN) by reflexivity.
    rewrite E. cbn [app startswith]. unfold NL.
    change (91 =? 10) with false. change (10 =? 10) with true.
    cbn [andb]. apply andb_false_r.
  - change (startswith BLOCK_OPEN ((c1 :: c2 :: t3) ++ NL :: NL :: r))
      with ((58 =? c1) && ((10 =? c2)
            && startswith (BASE64_IMAGE_DATA ++ [NL]) (t3 ++ NL :: NL :: r))).
    destruct (startswith (BASE64_IMAGE_DATA ++ [NL]) (t3 ++ NL :: NL :: r)) eqn:E;
      [|by rewrite !andb_false_r].
    apply startswith_app_l in E. rewrite startswith_stop in E by reflexivity.
    apply startswith_contains in E.
    by rewrite (contains_cons _ c1 _ (contains_cons _ c2 _ E)) in Ht.
Qed.

Lemma no_block_in_text (t r : str) :
  isdecimal py NL = false ->
  contains BASE64_IMAGE_DATA t = false ->
  match_block py (t ++ NL :: NL :: r) = None.
Proof.
  intros Hnl Ht. unfold match_block.
  rewrite startswith_stop by reflexivity.
  destruct (startswith (lit "Image ") t) eqn:E; [|reflexivity].
  apply startswith_eq in E. change (length (lit "Image ")) with 6%nat in E.
  set (t1 := drop 6 t) in *.
  assert (Ht1 : contains BASE64_IMAGE_DATA t1 = false).
  { destruct (contains BASE64_IMAGE_DATA t1) eqn:C; [|reflexivity].
    rewrite E in Ht. by rewrite (contains_app_r _ _ _ C) in Ht. }
  rewrite E. rewrite <- app_assoc.
  change (drop 6 (lit "Image " ++ t1 ++ NL :: NL :: r)) with (t1 ++ NL :: NL :: r).
  destruct t1 as [|c t1']; cbn [app]; [by rewrite Hnl|].
  destruct (isdecimal py c); [|reflexivity].
  cbn zeta. rewrite skip_class_app_stop by exact Hnl.
  rewrite open_not_before_header; [reflexivity|].
  destruct (contains BASE64_IMAGE_DATA (skip_class (isdecimal py) t1')) eqn:C;
    [|reflexivity].
  apply contains_skip_class in C. by rewrite (contains_cons _ c _ C) in Ht1.
Qed.

(** *** [findall], step by step *)

Lemma findall_go_skip (r : regex) (u v : str) :
  findall_go py r (length u) (u ++ v) = findall_go py r 0 v.
Proof.
  induction u as [|c u IH]; [reflexivity|]. exact IH.
Qed.

Lemma findall_no_match (r : regex) (c : N) (s : str) :
  match_here py r (c :: s) = None ->
  findall_go py r 0 (c :: s) = findall_go py r 0 s.
Proof. intros H. cbn [findall_go]. by rewrite H. Qed.

Lemma findall_match (r : regex) (m rest : str) (cap : option str) :
  m <> [] ->
  match_here py r (m ++ rest) = Some (rest, cap) ->
  findall_go py r 0 (m ++ rest) = group_text cap :: findall_go py r 0 rest.
Proof.
  intros Hm H. destruct m as [|c m]; [done|].
  change ((c :: m) ++ rest) with (c :: (m ++ rest)) in *.
  cbn [findall_go]. rewrite H. f_equal.
  replace (length (c :: m ++ rest) - length rest - 1)%nat with (length m).
  - apply findall_go_skip.
  - cbn [length]. rewrite length_app. lia.
Qed.

Lemma findall_skip_chars (u s : str) :
  isdecimal py 58 = false ->
  forallb (fun c => negb (c =? 73)) u = true ->
  findall_go py IMAGE_BLOCK_RE 0 (u ++ s) = findall_go py IMAGE_BLOCK_RE 0 s.
Proof.
  intros Hcolon Hu. induction u as [|c u IH]; [reflexivity|].
  cbn [forallb] in Hu. apply andb_true_iff in Hu as [Hc Hu].
  change ((c :: u) ++ s) with (c :: (u ++ s)).
  rewrite findall_no_match; [by apply IH|].
  rewrite match_block_correct by exact Hcolon. unfold match_block.
  assert (E : lit "Image " = 73 :: drop 1 (lit "Image ")) by reflexivity.
  rewrite E. cbn [startswith].
  apply negb_true_iff in Hc. rewrite N.eqb_sym in Hc. by rewrite Hc.
Qed.

Lemma findall_skip_text (t r : str) :
  isdecimal py 58 = false ->
  isdecimal py NL = false ->
  contains BASE64_IMAGE_DATA t = false ->
  findall_go py IMAGE_BLOCK_RE 0 (t ++ NL :: NL :: r)
  = findall_go py IMAGE_BLOCK_RE 0 (NL :: NL :: r).
Proof.
  intros Hcolon Hnl. induction t as [|c t IH]; intros Ht; [reflexivity|].
  change ((c :: t) ++ NL :: NL :: r) with (c :: (t ++ NL :: NL :: r)).
  rewrite findall_no_match.
  - apply IH. destruct (contains BASE64_IMAGE_DATA t) eqn:C; [|reflexivity].
    by rewrite (contains_cons _ c _ C) in Ht.
  - rewrite match_block_correct by exact Hcolon.
    by apply (no_block_in_text (c :: t)).
Qed.

(** *** The two forms of an image block *)

Lemma lazy_any_finds (s3 pre rest : str) (cap : option str) :
  Forall (fun c => c <> NL) pre ->
  lazy_any (block_close_at s3) (pre ++ BLOCK_CLOSE ++ rest) cap
  = Some (rest, Some (take (length s3 - length (BLOCK_CLOSE ++ rest)) s3)).
Proof.
  induction 1 as [|x pre Hx _ IH].
  - change ([] ++ BLOCK_CLOSE ++ rest) with (NL :: (END_IMAGE_DATA ++ rest)).
    cbn [lazy_any].
    change (NL :: (END_IMAGE_DATA ++ rest)) with (BLOCK_CLOSE ++ rest).
    unfold block_close_at at 1. by rewrite startswith_app, drop_app_length.
  - change ((x :: pre) ++ BLOCK_CLOSE ++ rest) with (x :: (pre ++ BLOCK_CLOSE ++ rest)).
    cbn [lazy_any]. rewrite IH. unfold block_close_at at 1.
    change BLOCK_CLOSE with (NL :: END_IMAGE_DATA) at 1. cbn [startswith].
    destruct (N.eqb_spec NL x) as [E|_]; [by destruct Hx|reflexivity].
Qed.

Lemma match_success_block (d : N) (blob rest : str) :
  isdecimal py d = true ->
  isdecimal py 58 = false ->
  blob <> [] ->
  Forall (fun c => c <> NL) blob ->
  match_block py (lit "Image " ++ d :: BLOCK_OPEN ++ blob ++ BLOCK_CLOSE ++ rest)
  = Some (rest, Some blob).
Proof.
  intros Hd Hcolon Hne Hblob. unfold match_block.
  rewrite startswith_app.
  change 6%nat with (length (lit "Image ")). rewrite drop_app_length. rewrite Hd.
  cbn zeta.
  assert (Hskip : skip_class (isdecimal py) (BLOCK_OPEN ++ blob ++ BLOCK_CLOSE ++ rest)
                  = BLOCK_OPEN ++ blob ++ BLOCK_CLOSE ++ rest).
  { change (BLOCK_OPEN ++ blob ++ BLOCK_CLOSE ++ rest)
      with (58 :: (drop 1 BLOCK_OPEN ++ blob ++ BLOCK_CLOSE ++ rest)).
    cbn [skip_class]. by rewrite Hcolon. }
  rewrite Hskip, startswith_app, drop_app_length.
  destruct blob as [|b0 blob']; [done|].
  change ((b0 :: blob') ++ BLOCK_CLOSE ++ rest)
    with (b0 :: (blob' ++ BLOCK_CLOSE ++ rest)).
  cbv beta iota.
  rewrite lazy_any_finds by (by inversion Hblob).
  do 3 f_equal.
  replace (length (b0 :: blob' ++ BLOCK_CLOSE ++ rest) - length (BLOCK_CLOSE ++ rest))%nat
    with (length (b0 :: blob')).
  - change (b0 :: blob' ++ BLOCK_CLOSE ++ rest)
      with ((b0 :: blob') ++ BLOCK_CLOSE ++ rest).
    apply take_app_length.
  - cbn [length]. rewrite !length_app. lia.
Qed.

Lemma findall_success_block (d : N) (blob rest : str) :
  isdecimal py d = true ->
  isdecimal py 58 = false ->
  blob <> [] ->
  Forall (fun c => c <> NL) blob ->
  findall_go py IMAGE_BLOCK_RE 0
    (lit "Image " ++ d :: BLOCK_OPEN ++ blob ++ BLOCK_CLOSE ++ NL :: NL :: rest)
  = blob :: findall_go py IMAGE_BLOCK_RE 0 rest.
Proof.
  intros Hd Hcolon Hne Hblob.
  replace (lit "Image " ++ d :: BLOCK_OPEN ++ blob ++ BLOCK_CLOSE ++ NL :: NL :: rest)
    with ((lit "Image " ++ d :: BLOCK_OPEN ++ blob ++ BLOCK_CLOSE) ++ NL :: NL :: rest)
    by (rewrite <- !app_assoc; cbn [app]; by rewrite <- !app_assoc).
  rewrite (findall_match IMAGE_BLOCK_RE _ _ (Some blob)).
  - cbn [group_text]. f_equal.
  - by destruct (lit "Image ").
  - rewrite match_block_correct by exact Hcolon.
    rewrite <- (match_success_block d blob (NL :: NL :: rest)) by done.
    f_equal. rewrite <- !app_assoc. cbn [app]. by rewrite <- !app_assoc.
Qed.

Lemma findall_failed_block (d : N) (rest : str) :
  d = 49 \/ d = 50 ->
  isdecimal py d = true ->
  isdecimal py 58 = false ->
  findall_go py IMAGE_BLOCK_RE 0
    (lit "Image " ++ d :: lit ": " ++ CROSS_MARK :: lit " Failed to generate"
     ++ NL :: NL :: rest)
  = findall_go py IMAGE_BLOCK_RE 0 rest.
Proof.
  intros Hcases Hd Hcolon.
  assert (E : lit "Image " = 73 :: lit "mage ") by reflexivity.
  rewrite E. cbn [app]. rewrite findall_no_match.
  - replace (lit "mage " ++ d :: lit ": " ++ CROSS_MARK :: lit " Failed to generate"
             ++ NL :: NL :: rest)
      with ((lit "mage " ++ d :: lit ": " ++ CROSS_MARK :: lit " Failed to generate"
             ++ [NL; NL]) ++ rest)
      by (rewrite <- !app_assoc; cbn [app]; by rewrite <- !app_assoc).
    apply findall_skip_chars; [exact Hcolon|].
    by destruct Hcases as [-> | ->].
  - rewrite match_block_correct by exact Hcolon. unfold match_block.
    change (73 :: (lit "mage " ++ d :: lit ": " ++ CROSS_MARK
                   :: lit " Failed to generate" ++ NL :: NL :: rest))
      with (lit "Image " ++ d :: 58 :: 32 :: CROSS_MARK
            :: lit " Failed to generate" ++ NL :: NL :: rest).
    rewrite startswith_app.
    change 6%nat with (length (lit "Image ")). rewrite drop_app_length. rewrite Hd.
    cbn zeta. cbn [skip_class]. rewrite Hcolon.
    assert (E' : BLOCK_OPEN = 58 :: 10 :: drop 2 BLOCK_OPEN) by reflexivity.
    rewrite E'. cbn [startswith]. change (10 =? 32) with false.
    by rewrite andb_false_r.
Qed.

Lemma ascii_digits_facts :
  ascii_digits py ->
  isdecimal py 58 = false /\ isdecimal py NL = false /\
  isdecimal py 49 = true /\ isdecimal py 50 = true.
Proof. intros H. repeat split; by rewrite H. Qed.

Lemma falsy_no_data (img : pyval) : truthy img = false -> image_data img = None.
Proof. destruct img as [| | |[|c s]| |]; try done. Qed.

Lemma base64_not_newline (blob : str) :
  Forall (fun c => is_base64 c = true) blob -> Forall (fun c => c <> NL) blob.
Proof. intros H. eapply Forall_impl; [exact H|]. by intros c Hc ->. Qed.

Lemma findall_block (d : N) (img : pyval) (rest : str) :
  d = 49 \/ d = 50 ->
  ascii_digits py ->
  base64_or_failed img ->
  findall_go py IMAGE_BLOCK_RE 0 (block_text py d img ++ rest)
  = option_list (image_data img) ++ findall_go py IMAGE_BLOCK_RE 0 rest.
Proof.
  intros Hd Hpy Himg.
  destruct (ascii_digits_facts Hpy) as (Hcolon & Hnl & H1 & H2).
  assert (Hdig : isdecimal py d = true) by (by destruct Hd as [-> | ->]).
  unfold block_text. destruct Himg as [Hf|(blob & -> & Hne & Hblob)].
  - rewrite Hf, (falsy_no_data img Hf). cbn [option_list app].
    assert (E : (lit "Image " ++ d :: lit ": " ++ CROSS_MARK :: lit " Failed to generate"
                 ++ [NL; NL]) ++ rest
                = lit "Image " ++ d :: lit ": " ++ CROSS_MARK :: lit " Failed to generate"
                  ++ NL :: NL :: rest).
    { rewrite <- !app_assoc. cbn [app]. rewrite <- !app_assoc. reflexivity. }
    rewrite E. by apply findall_failed_block.
  - destruct blob as [|b0 blob']; [done|]. cbn [truthy image_data option_list format_value].
    assert (E : (lit "Image " ++ d :: BLOCK_OPEN ++ (b0 :: blob') ++ BLOCK_CLOSE ++ [NL; NL])
                ++ rest
                = lit "Image " ++ d :: BLOCK_OPEN ++ (b0 :: blob') ++ BLOCK_CLOSE
                  ++ NL :: NL :: rest).
    { rewrite <- !app_assoc. cbn [app]. rewrite <- !app_assoc. cbn [app].
      rewrite <- !app_assoc. reflexivity. }
    rewrite E. apply findall_success_block; try done.
    by apply base64_not_newline.
Qed.

Lemma image_block_text (img : pyval) :
  image_block py 1 img = block_text py 49 img /\
  image_block py 2 img = block_text py 50 img.
Proof.
  unfold image_block, block_text. by destruct (truthy img).
Qed.

Lemma findall_header (rest : str) :
  isdecimal py 58 = false ->
  findall_go py IMAGE_BLOCK_RE 0 (IMAGES_HEADER ++ rest)
  = findall_go py IMAGE_BLOCK_RE 0 rest.
Proof.
  intros Hcolon.
  set (h1 := [NL; NL] ++ times 61 50 ++ [NL] ++ PALETTE :: lit " GENERATED ").
  set (h2 := lit "AGES" ++ [NL] ++ times 61 50 ++ [NL; NL]).
  change (IMAGES_HEADER ++ rest) with (h1 ++ (73 :: 77 :: (h2 ++ rest))).
  rewrite (findall_skip_chars h1) by (exact Hcolon || reflexivity).
  rewrite findall_no_match
    by (rewrite match_block_correct by exact Hcolon; reflexivity).
  change (77 :: (h2 ++ rest)) with ((77 :: h2) ++ rest).
  by apply findall_skip_chars.
Qed.

Lemma findall_payload (text : str) (images : list pyval) :
  ascii_digits py ->
  contains BASE64_IMAGE_DATA text = false ->
  (length images <= 2)%nat ->
  Forall base64_or_failed images ->
  findall py IMAGE_BLOCK_RE (thumbnail_payload py text images) = omap image_data images.
Proof.
  intros Hpy Htext Hlen Himgs.
  destruct (ascii_digits_facts Hpy) as (Hcolon & Hnl & _).
  unfold findall, thumbnail_payload, join. cbn [app concat].
  change (IMAGES_HEADER ++ ?x) with (NL :: NL :: (drop 2 IMAGES_HEADER ++ x)).
  rewrite findall_skip_text by done.
  change (NL :: NL :: (drop 2 IMAGES_HEADER ++ ?x)) with (IMAGES_HEADER ++ x).
  rewrite findall_header by done.
  destruct images as [|i1 [|i2 [|i3 more]]]; [reflexivity| | |cbn in Hlen; lia].
  - apply Forall_cons in Himgs as [Hi1 _].
    cbn [imap concat]. rewrite (proj1 (image_block_text i1)).
    rewrite (findall_block 49) by auto. cbn [omap list_omap].
    by destruct (image_data i1).
  - apply Forall_cons in Himgs as [Hi1 Himgs]. apply Forall_cons in Himgs as [Hi2 _].
    cbn [imap concat]. unfold compose.
    rewrite (proj1 (image_block_text i1)), (proj2 (image_block_text i2)).
    rewrite (findall_block 49) by auto. rewrite (findall_block 50) by auto.
    cbn [omap list_omap]. by destruct (image_data i1), (image_data i2).
Qed.

End Matcher.

(** ** The hand-off of a thumbnail payload *)

Lemma split_go_other (sep cur : str) (c : N) (s : str) :
  startswith sep (c :: s) = false ->
  split_go sep 0 cur (c :: s) = split_go sep 0 (c :: cur) s.
Proof. intros H. cbn [split_go]. by rewrite H. Qed.

Lemma split_go_text (sep cur t r : str) :
  forallb (fun x => negb (x =? NL)) sep = true ->
  contains sep t = false ->
  split_go sep 0 cur (t ++ NL :: r) = split_go sep 0 (rev t ++ cur) (NL :: r).
Proof.
  intros Hsep. revert cur. induction t as [|c t IH]; intros cur Ht; [reflexivity|].
  change ((c :: t) ++ NL :: r) with (c :: (t ++ NL :: r)).
  cbn [contains] in Ht. apply orb_false_iff in Ht as [Hc Ht].
  rewrite split_go_other.
  - rewrite IH by exact Ht. cbn [rev]. by rewrite <- app_assoc.
  - change (c :: (t ++ NL :: r)) with ((c :: t) ++ NL :: r).
    by rewrite startswith_stop.
Qed.

Lemma split_go_chars (cur u s : str) :
  forallb (fun c => negb (c =? PALETTE)) u = true ->
  split_go GENERATED_IMAGES 0 cur (u ++ s)
  = split_go GENERATED_IMAGES 0 (rev u ++ cur) s.
Proof.
  revert cur. induction u as [|c u IH]; intros cur Hu; [reflexivity|].
  cbn [forallb] in Hu. apply andb_true_iff in Hu as [Hc Hu].
  change ((c :: u) ++ s) with (c :: (u ++ s)).
  rewrite split_go_other.
  - rewrite IH by exact Hu. cbn [rev]. by rewrite <- app_assoc.
  - unfold GENERATED_IMAGES. cbn [startswith].
    apply negb_true_iff in Hc. rewrite N.eqb_sym in Hc. by rewrite Hc.
Qed.

(** The first part of the split is what precedes the marker of the header. *)
Lemma split_payload (text after : str) :
  contains GENERATED_IMAGES text = false ->
  exists parts,
    split GENERATED_IMAGES (text ++ IMAGES_HEADER ++ after)
    = (text ++ [NL; NL] ++ times 61 50 ++ [NL]) :: parts.
Proof.
  intros Ht. unfold split.
  set (rule := times 61 50 ++ [NL]).
  change (IMAGES_HEADER ++ after)
    with (NL :: ((NL :: rule) ++ (GENERATED_IMAGES ++ ([NL] ++ times 61 50 ++ [NL; NL]
                                                     ++ after)))).
  rewrite split_go_text by (exact Ht || reflexivity).
  change (NL :: ((NL :: rule) ++ ?x)) with ((NL :: NL :: rule) ++ x).
  rewrite split_go_chars by reflexivity.
  unfold GENERATED_IMAGES at 2. cbn [app split_go].
  change (PALETTE :: (lit " GENERATED IMAGES" ++ ?x)) with (GENERATED_IMAGES ++ x).
  rewrite startswith_app. eexists. f_equal.
  by rewrite app_nil_r, rev_app_distr, !rev_involutive.
Qed.

(** The first part of a split is what precedes the first separator. *)
Lemma split_go_before (sep cur s : str) :
  exists parts, split_go sep 0 cur s = (rev cur ++ before sep s) :: parts.
Proof.
  revert cur. induction s as [|c s IH]; intros cur.
  - exists []. cbn. by rewrite app_nil_r.
  - cbn [split_go before]. destruct (startswith sep (c :: s)).
    + eexists. by rewrite app_nil_r.
    + destruct (IH (c :: cur)) as [parts ->]. exists parts.
      cbn [rev]. by rewrite <- app_assoc.
Qed.

Lemma split_before (sep s : str) :
  exists parts, split sep s = before sep s :: parts.
Proof. apply (split_go_before sep [] s). Qed.

Lemma before_occurrence (sep s : str) :
  contains sep s = true ->
  exists after, s = before sep s ++ sep ++ after.
Proof.
  induction s as [|c s IH].
  - cbn [contains before]. rewrite orb_false_r. intros H.
    destruct sep; [by exists []|discriminate].
  - cbn [contains before]. destruct (startswith sep (c :: s)) eqn:E.
    + intros _. exists (drop (length sep) (c :: s)). by apply startswith_eq.
    + cbn [orb]. intros H. destruct (IH H) as [after Hafter].
      exists after. cbn [app]. by rewrite <- Hafter.
Qed.

Lemma before_prefix (sep u v : str) :
  exists w, u = before sep (u ++ sep ++ v) ++ w.
Proof.
  induction u as [|c u [w IH]].
  - exists []. cbn [app]. destruct (sep ++ v) as [|x y] eqn:E; [reflexivity|].
    cbn [before]. by rewrite <- E, startswith_app.
  - change ((c :: u) ++ sep ++ v) with (c :: (u ++ sep ++ v)). cbn [before].
    destruct (startswith sep (c :: u ++ sep ++ v)).
    + by exists (c :: u).
    + exists w. cbn [app]. by rewrite <- IH.
Qed.

Lemma lstrip_suffix (s : str) : exists u, s = u ++ lstrip s.
Proof.
  induction s as [|c s [u IH]]; [by exists []|]. cbn [lstrip].
  destruct (isspace c); [|by exists []].
  exists (c :: u). cbn. by rewrite <- IH.
Qed.

Lemma strip_inside (s : str) : exists u v, s = u ++ strip s ++ v.
Proof.
  destruct (lstrip_suffix s) as [u Hu].
  destruct (lstrip_suffix (rev (lstrip s))) as [w Hw].
  exists u, (rev w). unfold strip, rstrip. rewrite <- rev_app_distr, <- Hw.
  by rewrite rev_involutive.
Qed.

Lemma contains_app_l (sub s v : str) :
  contains sub s = true -> contains sub (s ++ v) = true.
Proof.
  induction s as [|c s IH].
  - cbn [contains]. rewrite orb_false_r. intros H.
    destruct sub; [by destruct v|discriminate].
  - cbn [contains app]. intros [H|H]%orb_true_iff.
    + apply startswith_eq in H.
      assert (E : c :: s ++ v = sub ++ (drop (length sub) (c :: s) ++ v))
        by (by rewrite app_assoc, <- H).
      rewrite E, startswith_app. reflexivity.
    + rewrite (IH H). apply orb_true_r.
Qed.

Lemma strip_keeps_out (sub s : str) :
  contains sub s = false -> contains sub (strip s) = false.
Proof.
  intros H. destruct (contains sub (strip s)) eqn:E; [|reflexivity].
  destruct (strip_inside s) as (u & v & Hs).
  rewrite Hs in H. by rewrite (contains_app_r _ u _ (contains_app_l _ _ v E)) in H.
Qed.

Lemma base64_not_space (c : N) : is_base64 c = true -> isspace c = false.
Proof.
  intros H.
  assert (Hc : 43 <= c /\ c <= 122).
  { unfold is_base64 in H.
    rewrite !orb_true_iff, !andb_true_iff, !N.leb_le, !N.eqb_eq in H. lia. }
  unfold isspace.
  repeat (apply orb_false_intro);
    first [apply andb_false_iff; right; apply N.leb_gt; lia
          |apply andb_false_iff; left; apply N.leb_gt; lia
          |apply N.eqb_neq; lia].
Qed.

Lemma strip_base64 (blob : str) :
  Forall (fun c => is_base64 c = true) blob -> strip blob = blob.
Proof.
  intros H. unfold strip, rstrip.
  assert (Hl : forall s, Forall (fun c => is_base64 c = true) s -> lstrip s = s).
  { intros [|c s] Hs; [reflexivity|]. cbn [lstrip].
    apply Forall_cons in Hs as [Hc _]. by rewrite (base64_not_space c Hc). }
  rewrite (Hl blob H), Hl; [apply rev_involutive|].
  rewrite Forall_forall in *. intros c Hc. apply H.
  rewrite list_elem_of_In in *. by apply in_rev.
Qed.

Lemma thumbnail_images_base64 (idx : nat) (blobs : list str) :
  Forall (fun blob => blob <> [] /\ Forall (fun c => is_base64 c = true) blob) blobs ->
  thumbnail_images idx blobs = shown_images idx blobs.
Proof.
  intros H. revert idx. induction H as [|blob blobs [Hne Hb] _ IH]; intros idx;
    [reflexivity|].
  cbn [thumbnail_images]. rewrite (strip_base64 blob Hb).
  destruct blob as [|c blob']; [done|]. unfold shown_images. cbn [imap].
  rewrite Nat.add_0_r. f_equal. rewrite IH. unfold shown_images.
  apply imap_ext. intros j x _. cbn. by rewrite Nat.add_succ_r.
Qed.

Section Handoff.

Context (py : Interpreter) (thumbnails_system_prompt : str).

Lemma imap_imap {A B C : Type} (f : nat -> A -> B) (g : nat -> B -> C) (l : list A) :
  imap g (imap f l) = imap (fun i x => g i (f i x)) l.
Proof.
  revert f g. induction l as [|x l IH]; intros f g; [reflexivity|].
  cbn [imap]. f_equal. apply IH.
Qed.

Lemma generate_thumbnails_payload (remote : Remote) (ep content text : str) :
  thumbnail_concepts thumbnails_system_prompt remote ep content = Ok (PStr text) ->
  generate_thumbnails py thumbnails_system_prompt remote ep content
  = Ok (thumbnail_payload py text
          (imap (fun i desc => _generate_image remote (S i) (strip desc))
                (take 2 (findall py IMAGE_DESCRIPTION_RE text)))).
Proof.
  intros H. unfold generate_thumbnails. rewrite H. cbn [bind].
  unfold thumbnail_payload. by rewrite image_blocks_imap, imap_imap.
Qed.

Lemma image_data_base64 (images : list pyval) :
  Forall base64_or_failed images ->
  Forall (fun blob => blob <> [] /\ Forall (fun c => is_base64 c = true) blob)
         (omap image_data images).
Proof.
  intros H. apply Forall_forall. intros blob (img & Hin & Hdata)%list_elem_of_omap.
  rewrite Forall_forall in H. destruct (H img Hin) as [Hf|(b & -> & Hne & Hb)].
  - by rewrite (falsy_no_data img Hf) in Hdata.
  - destruct b as [|c b']; [done|]. by injection Hdata as <-.
Qed.

Lemma display_payload (text : str) (images : list pyval) :
  ascii_digits py ->
  contains BASE64_IMAGE_DATA text = false ->
  (length images <= 2)%nat ->
  Forall base64_or_failed images ->
  let payload := thumbnail_payload py text images in
  let concepts := before GENERATED_IMAGES payload in
  let blobs := omap image_data images in
  display_thumbnail_text py payload
  = (set (ThumbnailConcepts (strip concepts)
          :: match blobs with
             | [] => []
             | _ => GeneratedImagesHeading :: shown_images 1 blobs
             end),
     set display_none, set display_block, set (strip concepts)).
Proof.
  intros Hpy Hframe Hlen Himgs. cbv zeta.
  unfold display_thumbnail_text.
  rewrite (findall_payload py text images Hpy Hframe Hlen Himgs).
  destruct (split_before GENERATED_IMAGES (thumbnail_payload py text images))
    as [parts Hparts].
  rewrite Hparts. cbv zeta iota beta.
  rewrite (thumbnail_images_base64 1 _ (image_data_base64 images Himgs)).
  reflexivity.
Qed.

Lemma payload_parts (text : str) (images : list pyval) :
  thumbnail_payload py text images
  = (text ++ [NL; NL] ++ times 61 50 ++ [NL]) ++ GENERATED_IMAGES
    ++ ([NL] ++ times 61 50 ++ [NL; NL]
        ++ concat (imap (fun i img => image_block py (S i) img) images)).
Proof.
  unfold thumbnail_payload, join. cbn [app concat]. rewrite <- !app_assoc. reflexivity.
Qed.

Lemma no_frame_before_marker (text : str) :
  contains BASE64_IMAGE_DATA text = false ->
  contains BASE64_IMAGE_DATA (text ++ [NL; NL] ++ times 61 50 ++ [NL]) = false.
Proof.
  intros H.
  change (text ++ [NL; NL] ++ times 61 50 ++ [NL])
    with (text ++ NL :: ([NL] ++ times 61 50 ++ [NL])).
  rewrite contains_app_stop by reflexivity. by rewrite H.
Qed.

(** C8, as the code has it.  Take a thumbnail generation whose concepts
    step returns a text that does not contain the opening marker of image
    data, and whose image calls each fail or give base64 text, with [\d]
    reading the ASCII digits as usual.  The hand-off splits the payload at
    the first [GENERATED IMAGES] marker: the payload is the first part, the
    marker and the rest, and the first part is the concepts text and the
    rule line when the text does not contain the marker itself.  The first
    part, trimmed, is what is shown as the concepts and what is stored as
    the copy payload, and it holds no image data marker.  The data of each
    image call that succeeded, and nothing else, is shown as an image, in
    order, under the images heading. *)
Theorem thumbnail_handoff_splits_at_marker (remote : Remote) (ep content text : str) :
  ascii_digits py ->
  thumbnail_concepts thumbnails_system_prompt remote ep content = Ok (PStr text) ->
  contains (lit "[BASE64_IMAGE_DATA]") text = false ->
  let images :=
    imap (fun i desc => _generate_image remote (S i) (strip desc))
         (take 2 (findall py IMAGE_DESCRIPTION_RE text)) in
  Forall base64_or_failed images ->
  let marker := PALETTE :: lit " GENERATED IMAGES" in
  let blobs := omap image_data images in
  exists payload after parts,
    let concepts := before marker payload in
    generate_thumbnails py thumbnails_system_prompt remote ep content = Ok payload /\
    payload = concepts ++ marker ++ after /\
    split marker payload = concepts :: parts /\
    (contains marker text = false ->
     concepts = text ++ [NL; NL] ++ times 61 50 ++ [NL]) /\
    display_thumbnail_text py payload
    = (set (ThumbnailConcepts (strip concepts)
            :: match blobs with
               | [] => []
               | _ => GeneratedImagesHeading :: shown_images 1 blobs
               end),
       set display_none, set display_block, set (strip concepts)) /\
    contains (lit "[BASE64_IMAGE_DATA]") (strip concepts) = false.
Proof.
  intros Hpy Hconcepts Hframe images Himgs marker blobs.
  assert (Hlen : (length images <= 2)%nat).
  { unfold images. rewrite length_imap, length_take. lia. }
  set (payload := thumbnail_payload py text images).
  assert (Hocc : contains marker payload = true).
  { unfold payload. rewrite payload_parts.
    apply contains_app_r, startswith_contains, startswith_app. }
  destruct (before_occurrence marker payload Hocc) as [after Hafter].
  destruct (split_before marker payload) as [parts Hparts].
  exists payload, after, parts. cbv zeta.
  split; [by apply generate_thumbnails_payload|].
  split; [exact Hafter|]. split; [exact Hparts|]. split; [|split].
  - intros Hmark.
    destruct (split_payload text
                (concat (imap (fun i img => image_block py (S i) img) images)) Hmark)
      as [parts' Hparts'].
    assert (E : split marker payload
                = (text ++ [NL; NL] ++ times 61 50 ++ [NL]) :: parts').
    { unfold payload, thumbnail_payload, join. cbn [app concat]. exact Hparts'. }
    rewrite Hparts in E. by injection E.
  - by apply display_payload.
  - apply strip_keeps_out.
    destruct (contains (lit "[BASE64_IMAGE_DATA]") (before marker payload)) eqn:E;
      [|reflexivity].
    destruct (before_prefix marker (text ++ [NL; NL] ++ times 61 50 ++ [NL])
                ([NL] ++ times 61 50 ++ [NL; NL]
                 ++ concat (imap (fun i img => image_block py (S i) img) images)))
      as [w Hw].
    rewrite <- payload_parts in Hw. fold payload in Hw.
    pose proof (no_frame_before_marker text Hframe) as Hno.
    rewrite Hw in Hno. unfold BASE64_IMAGE_DATA in Hno.
    by rewrite (contains_app_l _ _ w E) in Hno.
Qed.

End Handoff.

(** * Further properties *)

(** ** The endpoint calls *)

Lemma str_eqb_eq (a b : str) : str_eqb a b = true <-> a = b.
Proof.
  revert b. induction a as [|x a IH]; intros [|y b]; simpl; try done.
  rewrite andb_true_iff, N.eqb_eq, IH. split; [by intros [-> ->]|by intros [= -> ->]].
Qed.

Lemma supported_texts (task : pyval) :
  existsb (fun t => is_text t task) supported_task_types = true <->
  exists t, task = PStr t /\ t ∈ supported_task_types.
Proof.
  rewrite existsb_exists. split.
  - intros (t & Hin & Ht). destruct task; try done. simpl in Ht.
    apply str_eqb_eq in Ht as ->. exists t. split; [done|].
    by apply list_elem_of_In.
  - intros (t & -> & Hin). exists t. split; [by apply list_elem_of_In|].
    simpl. by apply str_eqb_eq.
Qed.

(** X1.  The endpoint type is checked before anything is sent.  An endpoint is
    supported exactly when its task type is one of the three texts
    [agent/v1/chat], [agent/v2/chat] and [llm/v1/chat]; when it is not, or
    when the task-type query raises, [_query_endpoint] raises without
    calling the chat endpoint: its outcome is the same whatever the chat
    service would have answered. *)
Theorem unsupported_endpoint_is_not_queried (r1 r2 : Remote) (ep : str)
    (msgs : pyval) (mt : Z) :
  endpoint_task r1 ep = endpoint_task r2 ep ->
  is_endpoint_supported r1 ep <> Ok true ->
  (forall r : Remote,
     is_endpoint_supported r ep = Ok true <->
     exists t, endpoint_task r ep = Ok (PStr t) /\ t ∈ supported_task_types) /\
  _query_endpoint r1 ep msgs mt = _query_endpoint r2 ep msgs mt /\
  (forall task, endpoint_task r1 ep = Ok task ->
                _query_endpoint r1 ep msgs mt = Raise (Exception UNSUPPORTED_ENDPOINT)) /\
  (forall e, endpoint_task r1 ep = Raise e -> _query_endpoint r1 ep msgs mt = Raise e).
Proof.
  intros Hsame Hno. split; [|split; [|split]].
  - intros r. unfold is_endpoint_supported, _get_endpoint_task_type.
    destruct (endpoint_task r ep) as [task|e]; cbn [bind].
    + split.
      * intros [= H]. apply supported_texts in H as (t & -> & Hin). by exists t.
      * intros (t & [= ->] & Hin). f_equal. apply supported_texts. by exists t.
    + split; [done|]. by intros (t & [=] & _).
  - unfold _query_endpoint, _validate_endpoint_task_type, is_endpoint_supported,
      _get_endpoint_task_type in *. rewrite <- Hsame.
    destruct (endpoint_task r1 ep) as [task|e]; cbn [bind] in *; [|done].
    destruct (existsb _ _); [done|]. reflexivity.
  - intros task Htask. apply (query_endpoint_unsupported _ _ _ _ task Htask).
    unfold is_endpoint_supported, _get_endpoint_task_type in Hno.
    rewrite Htask in Hno. cbn [bind] in Hno.
    by destruct (existsb _ _).
  - intros e. apply query_endpoint_task_raises.
Qed.

Section Endpoints.

Context (py : Interpreter) (hooks_system_prompt thumbnails_system_prompt : str).

(** X2.  A reply with a [messages] key is answered by the value of that key as
    it is, whatever else the reply holds ([choices] included), and
    [query_endpoint] returns the last of the messages; an empty list of
    messages makes it raise the interpreter's index error. *)
Theorem messages_reply_is_returned_as_it_is (remote : Remote) (ep : str)
    (msgs : pyval) (mt : Z) (d : list (str * pyval)) (v : pyval) :
  supported remote ep ->
  chat_predict remote ep msgs mt = Ok (PDict d) ->
  assoc (lit "messages") d = Some v ->
  _query_endpoint remote ep msgs mt = Ok v /\
  (forall ms m, v = PList ms -> last ms = Some m ->
                query_endpoint remote ep msgs mt = Ok m) /\
  (v = PList [] ->
   query_endpoint remote ep msgs mt = Raise (Interp (IndexOutOfRange (PList [])))).
Proof.
  intros Hs Hreply Hd.
  assert (Hq : _query_endpoint remote ep msgs mt = Ok v).
  { rewrite (query_endpoint_supported _ _ _ _ Hs), Hreply. cbn [bind py_in].
    rewrite Hd. cbn [bind getitem]. by rewrite Hd. }
  split; [exact Hq|]. unfold query_endpoint. rewrite Hq. cbn [bind]. split.
  - intros ms m -> Hlast. cbn [getitem_last]. by rewrite Hlast.
  - by intros ->.
Qed.

Lemma query_first_choice (remote : Remote) (ep : str) (msgs : pyval) (mt : Z)
    (reply : pyval) (m : list (str * pyval)) :
  supported remote ep ->
  chat_predict remote ep msgs mt = Ok reply ->
  first_choice reply m ->
  _query_endpoint remote ep msgs mt
  = match assoc (lit "content") m with
    | Some (PList parts) =>
        texts <- text_parts parts ;;
        combined_content <- join_values texts ;;
        Ok (PList [PDict [(lit "role", default PNone (assoc (lit "role") m));
                          (lit "content", PStr combined_content)]])
    | Some (PStr _) => Ok (PList [PDict m])
    | _ => Raise (Exception UNSUPPORTED_RESPONSE)
    end.
Proof.
  intros Hs Hreply (d & choice & rest & -> & Hm & Hc & Hmsg).
  rewrite (query_endpoint_supported _ _ _ _ Hs), Hreply. cbn [bind py_in].
  rewrite Hm. cbn [bind py_in]. rewrite Hc. cbn [bind getitem]. rewrite Hc.
  cbn [bind getitem_first getitem]. rewrite Hmsg. cbn [bind py_get].
  by destruct (assoc (lit "content") m) as [[]|].
Qed.

(** X3.  A [choices] reply whose first message has a text as content: the message
    is returned unchanged, with whatever other keys it has, the other
    choices are not looked at, and the hooks (and the thumbnail concepts)
    are that text, character for character. *)
Theorem first_choice_text_is_returned_verbatim (remote : Remote) (ep content : str)
    (reply : pyval) (m : list (str * pyval)) (c : str) :
  supported remote ep ->
  (forall msgs, chat_predict remote ep msgs 65536 = Ok reply) ->
  first_choice reply m ->
  assoc (lit "content") m = Some (PStr c) ->
  (forall msgs, _query_endpoint remote ep msgs 65536 = Ok (PList [PDict m])) /\
  (forall msgs, query_endpoint remote ep msgs 65536 = Ok (PDict m)) /\
  generate_hooks py hooks_system_prompt remote ep content = Ok (PStr c) /\
  thumbnail_concepts thumbnails_system_prompt remote ep content = Ok (PStr c).
Proof.
  intros Hs Hreply Hfirst Hc.
  assert (Hq : forall msgs, _query_endpoint remote ep msgs 65536 = Ok (PList [PDict m])).
  { intros msgs. rewrite (query_first_choice _ _ _ _ reply m Hs (Hreply msgs) Hfirst).
    by rewrite Hc. }
  split; [exact Hq|]. split; [|split].
  - intros msgs. unfold query_endpoint. by rewrite Hq.
  - unfold generate_hooks. cbn zeta. rewrite Hq. cbn [bind getitem_last last py_get].
    by rewrite Hc.
  - unfold thumbnail_concepts. cbn zeta. rewrite Hq. cbn [bind getitem_last last py_get].
    by rewrite Hc.
Qed.

Lemma text_parts_plain (parts : list (list (str * pyval))) :
  Forall plain_part parts ->
  exists texts,
    text_parts (PDict <$> parts) = Ok (PStr <$> texts) /\
    concat texts = concat (part_text <$> parts).
Proof.
  induction 1 as [|part parts Hpart _ (texts & IH & Hcat)]; [by exists []|].
  cbn [fmap list_fmap text_parts py_get bind]. fold (fmap (M := list) PDict parts).
  unfold plain_part in Hpart. unfold part_text at 1. cbn [concat].
  destruct (assoc (lit "type") part) as [ty|] eqn:Hty; cbn [default is_text].
  - destruct ty; cbn [is_text]; try (exists texts; by rewrite IH).
    destruct (str_eqb s (lit "text")) eqn:Hs.
    + destruct (assoc (lit "text") part) as [v|] eqn:Hv; cbn [default bind].
      * destruct (Hpart eq_refl) as (t & ->). rewrite IH. cbn [bind].
        exists (t :: texts). split; [done|]. cbn [concat]. by rewrite Hcat.
      * rewrite IH. cbn [bind]. exists ([] :: texts). split; [done|].
        cbn [concat]. by rewrite Hcat.
    + exists texts. by rewrite IH.
  - exists texts. by rewrite IH.
Qed.

Lemma join_values_texts (texts : list str) :
  join_values (PStr <$> texts) = Ok (concat texts).
Proof.
  induction texts as [|t texts IH]; [done|].
  cbn [fmap list_fmap join_values]. fold (fmap (M := list) PStr texts).
  by rewrite IH.
Qed.

(** X4.  A [choices] reply whose first message has a list of parts as content:
    the answer is a single message that keeps the role of the first message
    and nothing else of it, and whose content is the texts of the parts of
    type [text], joined in order with nothing between them; the parts of
    another type, or with no type, contribute nothing, and a part of type
    [text] without a [text] contributes the empty text. *)
Theorem structured_content_is_flattened (remote : Remote) (ep : str) (msgs : pyval)
    (mt : Z) (reply : pyval) (m : list (str * pyval))
    (parts : list (list (str * pyval))) :
  supported remote ep ->
  chat_predict remote ep msgs mt = Ok reply ->
  first_choice reply m ->
  assoc (lit "content") m = Some (PList (PDict <$> parts)) ->
  Forall plain_part parts ->
  _query_endpoint remote ep msgs mt
  = Ok (PList [PDict [(lit "role", default PNone (assoc (lit "role") m));
                      (lit "content", PStr (concat (part_text <$> parts)))]]) /\
  query_endpoint remote ep msgs mt
  = Ok (PDict [(lit "role", default PNone (assoc (lit "role") m));
               (lit "content", PStr (concat (part_text <$> parts)))]).
Proof.
  intros Hs Hreply Hfirst Hc Hparts.
  assert (Hq : _query_endpoint remote ep msgs mt
               = Ok (PList [PDict [(lit "role", default PNone (assoc (lit "role") m));
                                   (lit "content", PStr (concat (part_text <$> parts)))]])).
  { rewrite (query_first_choice _ _ _ _ reply m Hs Hreply Hfirst), Hc.
    destruct (text_parts_plain parts Hparts) as (texts & -> & <-). cbn [bind].
    by rewrite join_values_texts. }
  split; [exact Hq|]. unfold query_endpoint. by rewrite Hq.
Qed.

End Endpoints.

Section Malformed.

Context (py : Interpreter) (hooks_system_prompt thumbnails_system_prompt : str).

Lemma text_parts_app (a b : list pyval) :
  text_parts (a ++ b)
  = (ta <- text_parts a ;; tb <- text_parts b ;; Ok (ta ++ tb)).
Proof.
  induction a as [|part a IH]; cbn [app text_parts bind].
  - by destruct (text_parts b).
  - destruct (py_get part (lit "type") PNone) as [ty|e]; cbn [bind]; [|done].
    destruct (is_text (lit "text") ty); [|exact IH].
    destruct (py_get part (lit "text") (PStr [])) as [t|e]; cbn [bind]; [|done].
    rewrite IH. destruct (text_parts a) as [ta|e]; cbn [bind]; [|done].
    by destruct (text_parts b).
Qed.

Lemma text_parts_dicts (parts : list (list (str * pyval))) :
  exists texts, text_parts (PDict <$> parts) = Ok texts.
Proof.
  induction parts as [|part parts (texts & IH)]; [by exists []|].
  cbn [fmap list_fmap text_parts py_get bind]. fold (fmap (M := list) PDict parts).
  rewrite IH. destruct (is_text _ _); cbn [bind]; eauto.
Qed.

Lemma join_values_stops (texts : list str) (v : pyval) (rest : list pyval) :
  (forall s, v <> PStr s) ->
  join_values ((PStr <$> texts) ++ v :: rest) = Raise (Interp (JoinNonText v)).
Proof.
  intros Hv. induction texts as [|t texts IH].
  - cbn. destruct v; try reflexivity. by destruct (Hv s).
  - cbn [fmap list_fmap app join_values]. fold (fmap (M := list) PStr texts).
    by rewrite IH.
Qed.

(** X5.  Structured content that is not as expected.  A part that is not an
    object (a bare text, a number, [None]) makes [_query_endpoint] raise the
    interpreter's attribute error for that part, whatever follows it; when
    all the parts are objects, the first part of type [text] whose [text] is
    not a text makes it raise the type error of the join, for that value.
    Neither is turned into the message about supported endpoints. *)
Theorem malformed_parts_raise (remote : Remote) (ep : str) (msgs : pyval)
    (mt : Z) (reply : pyval) (m : list (str * pyval)) :
  supported remote ep ->
  chat_predict remote ep msgs mt = Ok reply ->
  first_choice reply m ->
  (forall pre bad post,
     assoc (lit "content") m = Some (PList ((PDict <$> pre) ++ bad :: post)) ->
     (forall d, bad <> PDict d) ->
     _query_endpoint remote ep msgs mt = Raise (Interp (NoAttribute bad))) /\
  (forall pre bad post v,
     assoc (lit "content") m = Some (PList (PDict <$> (pre ++ bad :: post))) ->
     Forall plain_part pre ->
     assoc (lit "type") bad = Some (PStr (lit "text")) ->
     assoc (lit "text") bad = Some v ->
     (forall s, v <> PStr s) ->
     _query_endpoint remote ep msgs mt = Raise (Interp (JoinNonText v))).
Proof.
  intros Hs Hreply Hfirst.
  rewrite (query_first_choice _ _ _ _ reply m Hs Hreply Hfirst). split.
  - intros pre bad post -> Hbad. rewrite text_parts_app.
    destruct (text_parts_dicts pre) as (texts & ->). cbn [bind text_parts].
    destruct bad; try reflexivity. by destruct (Hbad d).
  - intros pre bad post v -> Hpre Hty Htext Hv.
    rewrite fmap_app, text_parts_app.
    destruct (text_parts_plain pre Hpre) as (texts & -> & _). cbn [bind].
    rewrite fmap_cons. cbn [text_parts py_get bind]. rewrite Hty, Htext.
    cbn [is_text bind]. change (str_eqb (lit "text") (lit "text")) with true.
    cbv iota. destruct (text_parts_dicts post) as (tpost & ->). cbn [bind].
    by rewrite join_values_stops.
Qed.

(** X6.  A reply that has no [messages] and whose [choices] are not as expected
    raises the interpreter's own error: the index error when the list of
    choices is empty, the key error when the first choice has no [message];
    and a reply that is [None], a number or a boolean, in which the keys
    cannot be looked up, raises the type error of [in]. *)
Theorem malformed_choices_raise (remote : Remote) (ep : str) (msgs : pyval)
    (mt : Z) (reply : pyval) :
  supported remote ep ->
  chat_predict remote ep msgs mt = Ok reply ->
  (forall d, reply = PDict d -> assoc (lit "messages") d = None ->
     (assoc (lit "choices") d = Some (PList []) ->
      _query_endpoint remote ep msgs mt = Raise (Interp (IndexOutOfRange (PList [])))) /\
     (forall choice rest,
        assoc (lit "choices") d = Some (PList (PDict choice :: rest)) ->
        assoc (lit "message") choice = None ->
        _query_endpoint remote ep msgs mt
        = Raise (Interp (KeyMissing (PStr (lit "message")))))) /\
  (match reply with PNone | PBool _ | PInt _ => True | _ => False end ->
   _query_endpoint remote ep msgs mt = Raise (Interp (NotIterable reply))).
Proof.
  intros Hs Hreply. rewrite (query_endpoint_supported _ _ _ _ Hs), Hreply.
  cbn [bind]. split.
  - intros d -> Hm. cbn [py_in]. rewrite Hm. cbn [bind py_in]. split.
    + intros Hc. rewrite Hc. cbn [bind getitem]. by rewrite Hc.
    + intros choice rest Hc Hmsg. rewrite Hc. cbn [bind getitem]. rewrite Hc.
      cbn [bind getitem_first getitem]. by rewrite Hmsg.
  - by destruct reply.
Qed.

(** X7.  The content of the last message is not checked by [generate_hooks]: a
    content that is not a text ([None] for a JSON null, a list, a number) is
    returned as the hooks.  [generate_thumbnails] searches the content for
    descriptions, so the same reply makes it raise, with its prefix and the
    text of the interpreter's type error. *)
Theorem content_that_is_not_text (remote : Remote) (ep content : str)
    (reply : pyval) (m : list (str * pyval)) (v : pyval) :
  supported remote ep ->
  (forall msgs, chat_predict remote ep msgs 65536 = Ok reply) ->
  last_message reply m ->
  assoc (lit "content") m = Some v ->
  (forall s, v <> PStr s) ->
  generate_hooks py hooks_system_prompt remote ep content = Ok v /\
  generate_thumbnails py thumbnails_system_prompt remote ep content
  = Raise (Exception (lit "Failed to generate thumbnails: "
                      ++ error_text py (NotText v))).
Proof.
  intros Hs Hreply (d & ms & -> & Hd & Hlast) Hc Hv.
  assert (Hq : forall msgs, _query_endpoint remote ep msgs 65536 = Ok (PList ms)).
  { intros msgs. rewrite (query_endpoint_supported _ _ _ _ Hs), Hreply.
    cbn [bind py_in]. rewrite Hd. cbn [bind getitem]. by rewrite Hd. }
  split.
  - unfold generate_hooks. cbn zeta. rewrite Hq. cbn [bind getitem_last].
    rewrite Hlast. cbn [bind py_get]. by rewrite Hc.
  - unfold generate_thumbnails, thumbnail_concepts. cbn zeta. rewrite Hq.
    cbn [bind getitem_last]. rewrite Hlast. cbn [bind py_get]. rewrite Hc.
    cbn [bind]. destruct v; try reflexivity. by destruct (Hv s).
Qed.

End Malformed.

Section Footprint.

Context (py : Interpreter) (hooks_system_prompt thumbnails_system_prompt : str).

Local Abbreviation generate' :=
  (generate_for py hooks_system_prompt thumbnails_system_prompt).

Lemma query_endpoint_ext (r1 r2 : Remote) (ep : str) (msgs : pyval) (mt : Z) :
  endpoint_task r1 ep = endpoint_task r2 ep ->
  chat_predict r1 ep msgs mt = chat_predict r2 ep msgs mt ->
  _query_endpoint r1 ep msgs mt = _query_endpoint r2 ep msgs mt.
Proof.
  intros H1 H2. unfold _query_endpoint, _validate_endpoint_task_type,
    is_endpoint_supported, _get_endpoint_task_type. by rewrite H1, H2.
Qed.

Lemma image_blocks_ext (r1 r2 : Remote) (idx : nat) (descriptions : list str) :
  (forall n prompt, image_predict r1 n prompt = image_predict r2 n prompt) ->
  image_blocks py r1 idx descriptions = image_blocks py r2 idx descriptions.
Proof.
  intros H. revert idx. induction descriptions as [|d ds IH]; intros idx; [done|].
  cbn [image_blocks]. rewrite IH. unfold _generate_image. by rewrite H.
Qed.

(** X8.  What a generation asks of the services.  It queries the task type of
    its endpoint and, if that is supported, makes one chat call, with the
    system prompt as first message, [BLOG_CONTENT:], a blank line and the
    blog content as it is as second message, and [max_tokens] 65536; a
    thumbnail generation calls the image service besides, a hooks
    generation does not.  Two sets of services that answer these calls
    alike give the same outcome. *)
Theorem generation_asks_one_question (r1 r2 : Remote) (k : Kind) (ep content : str) :
  let system_prompt :=
    match k with
    | hooks => hooks_system_prompt
    | thumbnails => thumbnails_system_prompt
    end in
  let messages :=
    PList [PDict [(lit "role", PStr (lit "system")); (lit "content", PStr system_prompt)];
           PDict [(lit "role", PStr (lit "user"));
                  (lit "content", PStr (lit "BLOG_CONTENT:" ++ [NL; NL] ++ content))]] in
  endpoint_task r1 ep = endpoint_task r2 ep ->
  chat_predict r1 ep messages 65536 = chat_predict r2 ep messages 65536 ->
  (k = thumbnails ->
   forall n prompt, image_predict r1 n prompt = image_predict r2 n prompt) ->
  generate' r1 k ep content = generate' r2 k ep content.
Proof.
  intros system_prompt messages Htask Hchat Himage.
  pose proof (query_endpoint_ext r1 r2 ep messages 65536 Htask Hchat) as Hq.
  subst messages system_prompt.
  destruct k; cbv beta iota in Hq;
    unfold generate_for, generate_hooks, generate_thumbnails, thumbnail_concepts,
      chat_messages; cbn zeta; rewrite Hq.
  - reflexivity.
  - destruct (_query_endpoint r2 ep _ 65536) as [msgs|e]; cbn [bind]; [|done].
    destruct (getitem_last msgs) as [response|e]; cbn [bind]; [|done].
    destruct (py_get response _ _) as [[]|e]; cbn [bind]; try done.
    by rewrite (image_blocks_ext r1 r2 _ _ (Himage eq_refl)).
Qed.

End Footprint.

(** X9.  What [_generate_image] returns.  A value other than the empty text is
    returned only when the image service answered with an object whose
    [data] is a list that starts with an object holding that value under
    [b64_json]; and for such an answer the value under [b64_json] of the
    first image is returned (the empty text when it has none), the other
    images and the other keys being ignored. *)
Theorem image_is_the_first_b64_json (remote : Remote) (n : nat) (prompt : str) :
  let image := _generate_image remote n prompt in
  (image <> PStr [] ->
   exists d first rest,
     image_predict remote n prompt = Ok (PDict d) /\
     assoc (lit "data") d = Some (PList (PDict first :: rest)) /\
     assoc (lit "b64_json") first = Some image) /\
  (forall d first rest,
     image_predict remote n prompt = Ok (PDict d) ->
     assoc (lit "data") d = Some (PList (PDict first :: rest)) ->
     image = default (PStr []) (assoc (lit "b64_json") first)).
Proof.
  cbv zeta. unfold _generate_image. split.
  - destruct (image_predict remote n prompt) as [[| | | | |d]|e]; cbn [bind]; try done.
    destruct (assoc (lit "data") d) as [images|] eqn:Hd; [|done].
    destruct images as [|b|z|s|l|d']; cbn [truthy]; try done.
    + destruct b; cbn [py_len bind]; done.
    + destruct (negb (z =? 0)%Z); cbn [py_len bind]; done.
    + destruct s as [|c s]; [done|]. cbn [py_len bind length Nat.ltb Nat.leb].
      cbn [getitem_first bind py_get]. done.
    + destruct l as [|first rest]; [done|]. cbn [py_len bind length Nat.ltb Nat.leb].
      cbn [getitem_first bind].
      destruct first as [| | | | |f]; cbn [py_get]; try done.
      destruct (assoc (lit "b64_json") f) as [x|] eqn:Hf; [|done].
      intros _. by exists d, f, rest.
    + destruct d' as [|kv d']; [done|]. cbn [py_len bind length Nat.ltb Nat.leb].
      cbn [getitem_first bind]. done.
  - intros d first rest -> Hd. cbn [bind]. rewrite Hd.
    cbn [truthy py_len bind length Nat.ltb Nat.leb getitem_first py_get].
    by destruct (assoc (lit "b64_json") first).
Qed.

(** ** The image descriptions *)

Section Descriptions.

Context (py : Interpreter).

Lemma lookahead_correct (s : str) (cap : option str) :
  isdecimal py 46 = false ->
  rmatch py (RAhead (RAlt (RLit [NL; NL])
                    (RAlt (RSeq (RChar NL) (RSeq (RPlus true RDigit) (RChar 46)))
                          REnd)))
         (fun s' cap' => Some (s', cap')) s cap
  = if description_ends py s then Some (s, cap) else None.
Proof.
  intros Hdot. cbn [rmatch]. rewrite rmatch_lit. unfold description_ends.
  destruct (startswith [NL; NL] s) eqn:E1; [reflexivity|]. cbn [or_else orb].
  unfold RPlus. cbn [rmatch].
  change (rmatch py RDigit) with (one_char (isdecimal py)).
  destruct s as [|c s]; [reflexivity|]. cbn [one_char].
  destruct (N.eqb_spec NL c) as [<-|Hc].
  - rewrite N.eqb_refl. cbn [andb].
    destruct s as [|d s]; [reflexivity|]. cbn [one_char].
    destruct (isdecimal py d) eqn:Hd; cbn [andb orb or_else].
    + rewrite star_greedy_class by lia.
      rewrite greedy_class_commits.
      2:{ intros x s' cap' Hx. cbn [one_char].
          destruct (N.eqb_spec 46 x) as [<-|_]; [congruence|reflexivity]. }
      destruct (skip_class (isdecimal py) s) as [|x s'] eqn:Hs; cbn [startswith one_char].
      * reflexivity.
      * destruct (46 =? x); reflexivity.
    + reflexivity.
  - assert (Hc' : (c =? NL) = false) by (apply N.eqb_neq; congruence).
    rewrite Hc'. cbn [andb orb or_else]. by destruct s.
Qed.

Lemma greedy_class_ext (p : N -> bool) (k1 k2 : cont) (s : str) (cap : option str) :
  (forall s' cap', k1 s' cap' = k2 s' cap') ->
  greedy_class p k1 s cap = greedy_class p k2 s cap.
Proof.
  intros H. induction s as [|c s IH]; cbn [greedy_class]; [apply H|].
  by rewrite IH, H.
Qed.

Lemma lazy_any_cap (k : cont) (s : str) (cap1 cap2 : option str) :
  (forall s' c1 c2, k s' c1 = k s' c2) -> lazy_any k s cap1 = lazy_any k s cap2.
Proof.
  intros H. induction s as [|c s IH]; cbn [lazy_any]; rewrite (H _ cap1 cap2);
    [reflexivity|]. by rewrite IH.
Qed.

Lemma match_description_correct (s : str) :
  isdecimal py 46 = false ->
  match_here py IMAGE_DESCRIPTION_RE s = match_description py s.
Proof.
  intros Hdot. unfold match_here, IMAGE_DESCRIPTION_RE, match_description.
  set (look := RAhead _).
  cbn [rmatch]. rewrite rmatch_lit. fold DESCRIPTION_KEY.
  destruct (startswith DESCRIPTION_KEY s); [|reflexivity].
  change (rmatch py RSpace) with (one_char isspace).
  rewrite star_greedy_class by lia.
  apply greedy_class_ext. intros s2 cap.
  unfold RPlus. cbn [rmatch].
  change (rmatch py RAny) with (one_char (fun _ : N => true)).
  destruct s2 as [|c s3]; [reflexivity|]. cbn [one_char].
  rewrite star_lazy_any by lia.
  rewrite (lazy_any_cap _ s3 cap None) by done.
  apply lazy_any_ext. intros s' cap'. subst look.
  by rewrite lookahead_correct.
Qed.

(** *** Before the key *)

Lemma startswith_lookup (l s : str) (i : nat) :
  startswith l s = true -> (i < length l)%nat -> s !! i = l !! i.
Proof.
  revert s i. induction l as [|c l IH]; intros s i H Hi; [simpl in Hi; lia|].
  destruct s as [|x s]; [done|]. cbn [startswith] in H.
  apply andb_true_iff in H as [Hc H]. apply N.eqb_eq in Hc as ->.
  destruct i as [|i]; [done|]. cbn [lookup list_lookup]. apply IH; [done|].
  simpl in Hi. lia.
Qed.

Lemma startswith_prefix (l v s : str) :
  startswith l (v ++ s) = true -> (length l <= length v)%nat -> startswith l v = true.
Proof.
  revert v. induction l as [|c l IH]; intros v H Hlen; [done|].
  destruct v as [|x v]; [simpl in Hlen; lia|]. cbn [app startswith] in *.
  apply andb_true_iff in H as [-> H]. cbn [andb]. apply IH; [done|].
  simpl in Hlen. lia.
Qed.

(** The key ends with its only colon, so no occurrence of it straddles the
    start of another one. *)
Lemma key_not_astride (v r : str) :
  v <> [] ->
  contains DESCRIPTION_KEY v = false ->
  startswith DESCRIPTION_KEY (v ++ DESCRIPTION_KEY ++ r) = false.
Proof.
  intros Hv Hno. destruct (startswith _ _) eqn:E; [|reflexivity].
  destruct (decide (length DESCRIPTION_KEY <= length v)%nat) as [Hlen|Hlen].
  - apply startswith_prefix in E; [|done].
    by rewrite (startswith_contains _ _ E) in Hno.
  - pose proof (startswith_lookup _ _ 17 E) as H17.
    change (length DESCRIPTION_KEY) with 18%nat in *.
    rewrite lookup_app_r in H17 by lia.
    rewrite lookup_app_l in H17 by (change (length DESCRIPTION_KEY) with 18%nat; lia).
    specialize (H17 ltac:(lia)).
    assert (Hn : (0 < length v)%nat) by (destruct v; [done|simpl; lia]).
    remember (17 - length v)%nat as j eqn:Hj.
    assert (Hj' : (j < 17)%nat) by lia. clear -H17 Hj'.
    do 17 (destruct j as [|j]; [discriminate H17|]). lia.
Qed.

Lemma contains_false_cons (sub : str) (c : N) (s : str) :
  contains sub (c :: s) = false ->
  startswith sub (c :: s) = false /\ contains sub s = false.
Proof. cbn [contains]. by intros [? ?]%orb_false_iff. Qed.

Lemma findall_before_key (pre r : str) :
  isdecimal py 46 = false ->
  contains DESCRIPTION_KEY pre = false ->
  findall_go py IMAGE_DESCRIPTION_RE 0 (pre ++ DESCRIPTION_KEY ++ r)
  = findall_go py IMAGE_DESCRIPTION_RE 0 (DESCRIPTION_KEY ++ r).
Proof.
  intros Hdot. induction pre as [|c pre IH]; intros Hno; [reflexivity|].
  change ((c :: pre) ++ DESCRIPTION_KEY ++ r) with (c :: (pre ++ DESCRIPTION_KEY ++ r)).
  rewrite findall_no_match.
  - apply IH. by apply contains_false_cons in Hno as [_ ?].
  - rewrite match_description_correct by done. unfold match_description.
    change (c :: pre ++ DESCRIPTION_KEY ++ r) with ((c :: pre) ++ DESCRIPTION_KEY ++ r).
    by rewrite key_not_astride.
Qed.

Lemma findall_without_key (text : str) :
  isdecimal py 46 = false ->
  contains DESCRIPTION_KEY text = false ->
  findall py IMAGE_DESCRIPTION_RE text = [].
Proof.
  intros Hdot. unfold findall. induction text as [|c text IH]; intros Hno; [reflexivity|].
  apply contains_false_cons in Hno as [Hs Hno].
  rewrite findall_no_match; [by apply IH|].
  rewrite match_description_correct by done. unfold match_description. by rewrite Hs.
Qed.

(** *** One description *)

Lemma greedy_class_takes_all (p : N -> bool) (k : cont) (ws : str) (c : N) (r : str)
    (cap : option str) (x : str * option str) :
  Forall (fun c => p c = true) ws ->
  p c = false ->
  k (c :: r) cap = Some x ->
  greedy_class p k (ws ++ c :: r) cap = Some x.
Proof.
  intros Hws Hc Hk. induction Hws as [|w ws Hw _ IH]; cbn [app greedy_class].
  - by rewrite Hc.
  - by rewrite Hw, IH.
Qed.

Lemma skip_class_all (p : N -> bool) (ds : str) (c : N) (r : str) :
  Forall (fun c => p c = true) ds -> p c = false ->
  skip_class p (ds ++ c :: r) = c :: r.
Proof.
  intros Hds Hc. induction Hds as [|d ds Hd _ IH]; cbn [app skip_class].
  - by rewrite Hc.
  - by rewrite Hd.
Qed.

Lemma description_stop_ends (tail : str) :
  isdecimal py 46 = false ->
  description_stop py tail -> description_ends py tail = true.
Proof.
  intros Hdot [->|[->|[(r & ->)|(d & ds & r & Hd & Hds & ->)]]]; try reflexivity.
  unfold description_ends. cbn [startswith]. rewrite N.eqb_refl, Hd.
  rewrite skip_class_all by done. cbn [startswith andb]. rewrite N.eqb_refl.
  cbn [andb]. by rewrite orb_true_r.
Qed.

Lemma description_not_ended (x : N) (s : str) :
  x <> NL -> description_ends py (x :: s) = false.
Proof.
  intros Hx. unfold description_ends. cbn [startswith].
  assert (E1 : (NL =? x) = false) by (apply N.eqb_neq; congruence).
  assert (E2 : (x =? NL) = false) by (by apply N.eqb_neq).
  rewrite E1, E2. cbn [andb orb]. destruct s as [|y s]; [reflexivity|].
  by destruct s.
Qed.

Lemma lazy_any_to_stop (s2 desc tail : str) (cap : option str) :
  Forall (fun c => c <> NL) desc ->
  description_ends py tail = true ->
  lazy_any (description_close py s2) (desc ++ tail) cap
  = Some (tail, Some (take (length s2 - length tail) s2)).
Proof.
  intros Hdesc Htail. induction Hdesc as [|x desc Hx _ IH]; cbn [app].
  - destruct tail; cbn [lazy_any]; unfold description_close at 1; by rewrite Htail.
  - cbn [lazy_any]. unfold description_close at 1.
    rewrite (description_not_ended x (desc ++ tail) Hx). exact IH.
Qed.

Lemma match_description_line (ws desc tail : str) :
  isdecimal py 46 = false ->
  Forall (fun c => isspace c = true) ws ->
  one_line desc ->
  description_stop py tail ->
  match_here py IMAGE_DESCRIPTION_RE (DESCRIPTION_KEY ++ ws ++ desc ++ tail)
  = Some (tail, Some desc).
Proof.
  intros Hdot Hws [Hhead Hline] Hstop.
  rewrite match_description_correct by done. unfold match_description.
  rewrite startswith_app, drop_app_length.
  destruct desc as [|c desc]; [done|].
  change ((c :: desc) ++ tail) with (c :: (desc ++ tail)).
  apply greedy_class_takes_all; [done|done|].
  apply Forall_cons in Hline as [_ Hline].
  rewrite (lazy_any_to_stop _ desc tail None Hline (description_stop_ends _ Hdot Hstop)).
  do 2 f_equal. cbn [length]. rewrite length_app.
  replace (S (length desc + length tail) - length tail)%nat with (S (length desc)) by lia.
  change (c :: desc ++ tail) with ((c :: desc) ++ tail).
  by rewrite take_app_length'.
Qed.

Lemma findall_description (ws desc tail : str) :
  isdecimal py 46 = false ->
  Forall (fun c => isspace c = true) ws ->
  one_line desc ->
  description_stop py tail ->
  findall_go py IMAGE_DESCRIPTION_RE 0 (DESCRIPTION_KEY ++ ws ++ desc ++ tail)
  = desc :: findall_go py IMAGE_DESCRIPTION_RE 0 tail.
Proof.
  intros Hdot Hws Hdesc Hstop.
  pose proof (match_description_line ws desc tail Hdot Hws Hdesc Hstop) as H.
  replace (DESCRIPTION_KEY ++ ws ++ desc ++ tail)
    with ((DESCRIPTION_KEY ++ ws ++ desc) ++ tail) in * by (by rewrite <- !app_assoc).
  assert (Hm : DESCRIPTION_KEY ++ ws ++ desc <> [])
    by (change DESCRIPTION_KEY with (73 :: drop 1 DESCRIPTION_KEY); done).
  by rewrite (findall_match py _ _ _ _ Hm H).
Qed.

(** X10.  The descriptions [generate_thumbnails] finds.  Where the text holds the
    key [IMAGE_DESCRIPTION:] for the first time, followed by white space and
    by a description that is on one line and is followed by the end of the
    text, a blank line, or a line that starts with a number and a dot, the
    first description found is that line, as it is (the white space after
    the key is not part of it), and the search goes on after it. *)
Theorem description_is_the_line_after_the_key (pre ws desc tail : str) :
  ascii_digits py ->
  contains (lit "IMAGE_DESCRIPTION:") pre = false ->
  Forall (fun c => isspace c = true) ws ->
  one_line desc ->
  description_stop py tail ->
  findall py IMAGE_DESCRIPTION_RE (pre ++ lit "IMAGE_DESCRIPTION:" ++ ws ++ desc ++ tail)
  = desc :: findall py IMAGE_DESCRIPTION_RE tail.
Proof.
  intros Hpy Hpre Hws Hdesc Hstop.
  assert (Hdot : isdecimal py 46 = false) by (by rewrite Hpy).
  fold DESCRIPTION_KEY in *. unfold findall.
  rewrite findall_before_key by done. by apply findall_description.
Qed.

End Descriptions.

Section Illustrations.

Context (py : Interpreter) (thumbnails_system_prompt : str).

(** X11.  A concepts text without the key [IMAGE_DESCRIPTION:] gives a payload
    made of the text and the images header alone: no image is requested,
    so the payload does not depend on the image service. *)
Theorem no_description_no_image (remote : Remote) (ep content text : str) :
  ascii_digits py ->
  thumbnail_concepts thumbnails_system_prompt remote ep content = Ok (PStr text) ->
  contains (lit "IMAGE_DESCRIPTION:") text = false ->
  generate_thumbnails py thumbnails_system_prompt remote ep content
  = Ok (text ++ [NL; NL] ++ times 61 50 ++ [NL] ++ PALETTE :: lit " GENERATED IMAGES"
        ++ [NL] ++ times 61 50 ++ [NL; NL]) /\
  forall image_service,
    generate_thumbnails py thumbnails_system_prompt
      {| endpoint_task := endpoint_task remote;
         chat_predict := chat_predict remote;
         image_predict := image_service |} ep content
    = generate_thumbnails py thumbnails_system_prompt remote ep content.
Proof.
  intros Hpy Hconcepts Hno.
  assert (Hdot : isdecimal py 46 = false) by (by rewrite Hpy).
  assert (H : forall r, thumbnail_concepts thumbnails_system_prompt r ep content
                        = Ok (PStr text) ->
                        generate_thumbnails py thumbnails_system_prompt r ep content
                        = Ok (text ++ IMAGES_HEADER)).
  { intros r Hr. rewrite (generate_thumbnails_payload py _ r ep content text Hr).
    fold DESCRIPTION_KEY in Hno. rewrite (findall_without_key py text Hdot Hno).
    unfold thumbnail_payload, join. cbn [take imap app concat]. by rewrite app_nil_r. }
  split; [by apply H|].
  intros image_service. rewrite (H remote Hconcepts). by apply H.
Qed.

(** X12.  Images are requested for the first two descriptions, each stripped, in
    order, and for nothing else: when the concepts text holds a first
    description and, after a blank line, a second one, the payload is the
    text, the images header, and the blocks of the two images, whatever
    follows the second description (further concepts included). *)
Theorem first_two_descriptions_are_illustrated (remote : Remote) (ep content : str)
    (pre1 ws1 d1 pre2 ws2 d2 tail : str) :
  let text :=
    pre1 ++ lit "IMAGE_DESCRIPTION:" ++ ws1 ++ d1 ++ [NL; NL]
    ++ pre2 ++ lit "IMAGE_DESCRIPTION:" ++ ws2 ++ d2 ++ tail in
  ascii_digits py ->
  thumbnail_concepts thumbnails_system_prompt remote ep content = Ok (PStr text) ->
  contains (lit "IMAGE_DESCRIPTION:") pre1 = false ->
  contains (lit "IMAGE_DESCRIPTION:") pre2 = false ->
  Forall (fun c => isspace c = true) ws1 ->
  Forall (fun c => isspace c = true) ws2 ->
  one_line d1 ->
  one_line d2 ->
  description_stop py tail ->
  take 2 (findall py IMAGE_DESCRIPTION_RE text) = [d1; d2] /\
  generate_thumbnails py thumbnails_system_prompt remote ep content
  = Ok (text ++ IMAGES_HEADER
        ++ image_block py 1 (_generate_image remote 1 (strip d1))
        ++ image_block py 2 (_generate_image remote 2 (strip d2))).
Proof.
  intros text Hpy Hconcepts Hpre1 Hpre2 Hws1 Hws2 Hd1 Hd2 Hstop.
  assert (Hdot : isdecimal py 46 = false) by (by rewrite Hpy).
  fold DESCRIPTION_KEY in *.
  assert (Hfind : take 2 (findall py IMAGE_DESCRIPTION_RE text) = [d1; d2]).
  { unfold findall, text.
    rewrite findall_before_key by done.
    rewrite findall_description; [|done|done|done|right; right; left; by eexists].
    change ([NL; NL] ++ pre2 ++ DESCRIPTION_KEY ++ ws2 ++ d2 ++ tail)
      with ((NL :: NL :: pre2) ++ DESCRIPTION_KEY ++ ws2 ++ d2 ++ tail).
    rewrite findall_before_key; [|done|].
    - by rewrite findall_description.
    - cbn [contains]. rewrite Hpre2.
      change DESCRIPTION_KEY with (73 :: drop 1 DESCRIPTION_KEY). reflexivity. }
  split; [exact Hfind|].
  rewrite (generate_thumbnails_payload py _ remote ep content text Hconcepts), Hfind.
  unfold thumbnail_payload, join. cbn [imap app concat]. by rewrite app_nil_r.
Qed.

End Illustrations.

(** ** What callback 7 shows and stores *)

Section Display.

Context (py : Interpreter).

Lemma startswith_app_r (l u v : str) :
  startswith l u = true -> startswith l (u ++ v) = true.
Proof.
  revert u. induction l as [|c l IH]; intros u H; [done|].
  destruct u as [|x u]; [done|]. cbn [app startswith] in *.
  apply andb_true_iff in H as [-> H]. by rewrite IH.
Qed.

Lemma before_is_prefix (sep s : str) : exists w, s = before sep s ++ w.
Proof.
  induction s as [|c s (w & IH)]; [by exists []|]. cbn [before].
  destruct (startswith sep (c :: s)); [by exists (c :: s)|].
  exists w. cbn [app]. by rewrite <- IH.
Qed.

Lemma before_free (sep s : str) :
  sep <> [] -> contains sep (before sep s) = false.
Proof.
  intros Hsep. induction s as [|c s IH]; cbn [before].
  - by destruct sep.
  - destruct (startswith sep (c :: s)) eqn:E; [by destruct sep|].
    cbn [contains]. rewrite IH, orb_false_r.
    destruct (startswith sep (c :: before sep s)) eqn:E'; [|done].
    destruct (before_is_prefix sep s) as (w & Hw).
    apply (startswith_app_r _ _ w) in E'. cbn [app] in E'.
    rewrite <- Hw in E'. congruence.
Qed.

Lemma before_without (sep s : str) : contains sep s = false -> before sep s = s.
Proof.
  induction s as [|c s IH]; [done|]. cbn [contains before].
  intros [-> H]%orb_false_iff. by rewrite IH.
Qed.

(** X13.  What callback 7 shows and stores, for any text.  The loading indicator
    is hidden and the container shown; the first component is the concepts
    section; its text, which is also the text stored for the copy button,
    is the text before the first [GENERATED IMAGES] marker, stripped: it
    never holds the marker, and it is the whole result, stripped, when the
    result has no marker (the text of a failed generation, for one). *)
Theorem copy_text_is_what_precedes_the_marker (result : str) :
  let concepts := strip (before (PALETTE :: lit " GENERATED IMAGES") result) in
  (exists images,
     display_thumbnail_text py result
     = (set (ThumbnailConcepts concepts :: images),
        set display_none, set display_block, set concepts)) /\
  contains (PALETTE :: lit " GENERATED IMAGES") concepts = false /\
  (contains (PALETTE :: lit " GENERATED IMAGES") result = false ->
   concepts = strip result) /\
  display_thumbnail_results py (PStr result) = Ok (display_thumbnail_text py result).
Proof.
  cbv zeta. fold GENERATED_IMAGES. split; [|split; [|split]].
  - unfold display_thumbnail_text.
    destruct (split_before GENERATED_IMAGES result) as (parts & ->).
    by eexists.
  - apply strip_keeps_out, before_free. done.
  - intros H. by rewrite before_without.
  - reflexivity.
Qed.

End Display.

(** ** What every reachable state satisfies *)

Section Sound.

Context (py : Interpreter) (hooks_system_prompt thumbnails_system_prompt : str).

Local Abbreviation step' := (step py hooks_system_prompt thumbnails_system_prompt).
Local Abbreviation run' := (run py hooks_system_prompt thumbnails_system_prompt).
Local Abbreviation reachable' := (reachable py hooks_system_prompt thumbnails_system_prompt).

Lemma id_kind_unique (k k' : Kind) (id : str) :
  id_of_kind k id -> id_of_kind k' id -> k = k'.
Proof.
  intros (n & now & ->) (n' & now' & E). by apply make_gen_id_inj in E as (? & _).
Qed.

(** The three outcomes of a poll of the page. *)
Lemma run_check_cases (k : Kind) (a : App) :
  (run_check py k a
   = mkApp (process a) (run_display py k (with_check k (PNone, true) (browser a)))) \/
  (exists id job,
     trigger_of k (browser a) = Some id /\
     generation_status (process a) !! id = Some job /\
     is_terminal (status job) = true /\
     run_check py k a
     = mkApp (registry_del id (process a))
             (run_display py k (with_check k (result job, true) (browser a)))) \/
  (exists id job,
     trigger_of k (browser a) = Some id /\
     generation_status (process a) !! id = Some job /\
     status job = generating /\
     run_check py k a
     = mkApp (process a) (run_display py k (with_check k (PNone, false) (browser a)))).
Proof.
  unfold run_check. rewrite (poll_same k). unfold check_generation_status.
  destruct (trigger_of k (browser a)) as [[|c id]|]; auto.
  destruct (generation_status (process a) !! (c :: id)) as [job|] eqn:E; auto.
  destruct (status job) eqn:S; cbn [is_terminal].
  - right. right. by exists (c :: id), job.
  - right. left. exists (c :: id), job. by rewrite S.
  - right. left. exists (c :: id), job. by rewrite S.
Qed.

Lemma run_display_result (k : Kind) (b : Browser) :
  result_data (thumbnail_panel (run_display py k b)) = result_data (thumbnail_panel b) /\
  result_data (hook_panel (run_display py k b)) = result_data (hook_panel b).
Proof.
  destruct k; cbn [run_display].
  - unfold run_display_results. by destruct (display_results _) as [[[? ?] ?] ?].
  - unfold run_display_thumbnail_results.
    by destruct (display_thumbnail_results _ _) as [[[[? ?] ?] ?]|?].
Qed.

Lemma with_check_polling (k k' : Kind) (o : pyval * bool) (b : Browser) :
  polling_disabled k' (with_check k o b)
  = if decide (k' = k) then snd o else polling_disabled k' b.
Proof. by destruct k, k'. Qed.

Lemma after_check_polling (k k' : Kind) (o : pyval * bool) (b : Browser) :
  polling_disabled k' (run_display py k (with_check k o b))
  = if decide (k' = k) then snd o else polling_disabled k' b.
Proof.
  destruct (run_display_frame py k k' (with_check k o b)) as (_ & _ & -> & _).
  apply with_check_polling.
Qed.

Lemma after_check_trigger (k k' : Kind) (o : pyval * bool) (b : Browser) :
  trigger_of k' (run_display py k (with_check k o b)) = trigger_of k' b.
Proof.
  destruct (run_display_frame py k k' (with_check k o b)) as (_ & -> & _).
  apply with_check_frame.
Qed.

Lemma after_check_thumbnail_result (k : Kind) (o : pyval * bool) (b : Browser) :
  result_data (thumbnail_panel (run_display py k (with_check k o b)))
  = match k with
    | hooks => result_data (thumbnail_panel b)
    | thumbnails => fst o
    end.
Proof.
  destruct (run_display_result k (with_check k o b)) as [-> _]. by destruct k.
Qed.

Lemma sound_after_check (k : Kind) (a : App) : sound a -> sound (run_check py k a).
Proof.
  intros [Htk Hth Hgen Herr Htext Hstore Hlive].
  destruct (run_check_cases k a)
    as [E|[(id & job & Htrig & Hjob & Hterm & E)|(id & job & Htrig & Hjob & Hrun & E)]];
    rewrite E; clear E.
  - split; cbn [process browser]; auto.
    + intros k' id'. rewrite after_check_trigger. apply Htk.
    + rewrite after_check_thumbnail_result. by destruct k.
    + intros k'. rewrite after_check_polling, after_check_trigger.
      case_decide; [done|]. apply Hlive.
  - assert (Hother : forall id' job', generation_status (registry_del id (process a)) !! id'
                                      = Some job' ->
                                      generation_status (process a) !! id' = Some job').
    { intros id' job'. cbn. by intros [_ ?]%lookup_delete_Some. }
    split; cbn [process browser].
    + intros k' id'. rewrite after_check_trigger. apply Htk.
    + exact Hth.
    + intros id' job' H. apply Hother in H. by apply Hgen.
    + intros k' id' job' Hk H. apply Hother in H. by apply (Herr k' id').
    + intros id' job' Hk H. apply Hother in H. by apply (Htext id').
    + rewrite after_check_thumbnail_result. destruct k; [done|]. cbn [fst].
      pose proof (Htk thumbnails id Htrig) as Hk.
      destruct (status job) eqn:S; [done| |].
      * by destruct (Htext id job Hk Hjob S) as (text & ->).
      * by destruct (Herr thumbnails id job Hk Hjob S) as (cause & ->).
    + intros k'. rewrite after_check_polling, after_check_trigger.
      case_decide as Hkk; [done|]. intros Hd.
      destruct (Hlive k' Hd) as (id' & job' & Htrig' & Hjob').
      exists id', job'. split; [done|]. cbn. rewrite lookup_delete_ne; [done|].
      intros <-. apply Hkk.
      exact (id_kind_unique _ _ _ (Htk k' id Htrig') (Htk k id Htrig)).
  - split; cbn [process browser]; auto.
    + intros k' id'. rewrite after_check_trigger. apply Htk.
    + rewrite after_check_thumbnail_result. by destruct k.
    + intros k'. rewrite after_check_polling, after_check_trigger.
      case_decide as Hkk; [|apply Hlive]. subst k'. intros _. by exists id, job.
Qed.

Lemma with_start_polling (k k' : Kind) (o : start_outputs) (n : Z) (b : Browser) :
  polling_disabled k' (with_start k o n b)
  = if decide (k' = k) then apply (snd (fst o)) (polling_disabled k b)
    else polling_disabled k' b.
Proof. destruct o as [[[[? ?] ?] ?] ?]. by destruct k, k'. Qed.

Lemma with_start_result (k : Kind) (o : start_outputs) (n : Z) (b : Browser) :
  result_data (thumbnail_panel (with_start k o n b)) = result_data (thumbnail_panel b) /\
  result_data (hook_panel (with_start k o n b)) = result_data (hook_panel b).
Proof. destruct o as [[[[? ?] ?] ?] ?]. by destruct k. Qed.

(** The state between the start callback and the check it triggers. *)
Lemma sound_after_start (k : Kind) (now : str) (a : App) :
  sound a ->
  let n := (clicks k (browser a) + 1)%Z in
  let r := start_job k n (blog_input (browser a)) now (process a) in
  sound (mkApp (snd r) (with_start k (fst r) n (browser a))).
Proof.
  intros [Htk Hth Hgen Herr Htext Hstore Hlive] n r. subst r.
  destruct (start_job_cases k n (blog_input (browser a)) now (process a))
    as [(Hb & E)|[(Hb & Hn & E)|(Hb & Hn & E)]]; rewrite E; cbn [fst snd].
  - split; cbn [process browser]; auto.
    + intros k' id. rewrite with_start_trigger. case_decide; [done|]. apply Htk.
    + by rewrite (proj1 (with_start_result _ _ _ _)).
    + intros k'. rewrite with_start_polling, with_start_trigger.
      case_decide; [done|]. apply Hlive.
  - set (id := make_gen_id k n now).
    assert (Hold : forall id' job',
               generation_status
                 (thread_start (mkThread k id (text_of (blog_input (browser a))))
                    (registry_set id (mkJob generating PNone) (process a))) !! id'
               = Some job' ->
               (id' = id /\ job' = mkJob generating PNone) \/
               generation_status (process a) !! id' = Some job').
    { intros id' job'. cbn. intros [[<- <-]|[_ ?]]%lookup_insert_Some; auto. }
    split; cbn [process browser].
    + intros k' id'. rewrite with_start_trigger. case_decide as Hk; [|apply Htk].
      subst k'. cbn. intros [= <-]. by exists n, now.
    + cbn. intros t [Hin| ->%list_elem_of_singleton]%elem_of_app; [auto|].
      by exists n, now.
    + intros id' job' [[-> ->]|H]%Hold Hs.
      * split; [done|]. exists (mkThread k id (text_of (blog_input (browser a)))).
        split; [|done]. cbn. apply elem_of_app. right. by apply list_elem_of_singleton.
      * destruct (Hgen id' job' H Hs) as (Hr & t & Hin & Ht). split; [done|].
        exists t. split; [|done]. cbn. apply elem_of_app. by left.
    + intros k' id' job' Hk [[-> ->]|H]%Hold Hs; [done|]. by apply (Herr k' id').
    + intros id' job' Hk [[-> ->]|H]%Hold Hs; [done|]. by apply (Htext id').
    + by rewrite (proj1 (with_start_result _ _ _ _)).
    + intros k'. rewrite with_start_polling, with_start_trigger.
      case_decide as Hk.
      * subst k'. intros _. exists id, (mkJob generating PNone). split; [done|].
        cbn. apply lookup_insert_eq.
      * intros Hd. destruct (Hlive k' Hd) as (id' & job' & Htrig & Hjob).
        destruct (decide (id' = id)) as [->|Hne].
        -- exists id, (mkJob generating PNone). split; [done|]. cbn.
           apply lookup_insert_eq.
        -- exists id', job'. split; [done|]. cbn. by rewrite lookup_insert_ne.
  - split; cbn [process browser]; auto.
    + intros k' id. rewrite with_start_trigger. case_decide as Hk; [|apply Htk].
      subst k'. cbn. apply Htk.
    + by rewrite (proj1 (with_start_result _ _ _ _)).
    + intros k'. rewrite with_start_polling, with_start_trigger.
      case_decide as Hk; [|apply Hlive]. subst k'. cbn. apply Hlive.
Qed.

Lemma sound_after_click (k : Kind) (now : str) (a : App) :
  sound a -> sound (click_generate py k now a).
Proof.
  intros Ha. pose proof (sound_after_start k now a Ha) as H. cbv zeta in H.
  unfold click_generate.
  destruct (start_job k _ _ now (process a)) as [o p']. cbn [fst snd] in H.
  destruct (writes_n_intervals o); [by apply sound_after_check|done].
Qed.

Lemma sound_after_tick (k : Kind) (a : App) :
  sound a -> sound (interval_fires py k a).
Proof.
  intros Ha. unfold interval_fires.
  destruct (polling_disabled k (browser a)); [done|].
  apply sound_after_check.
  destruct Ha as [Htk Hth Hgen Herr Htext Hstore Hlive].
  split; cbn [process browser]; auto.
  - intros k' id H. apply (Htk k'). by destruct k, k'.
  - by destruct k.
  - intros k' H. assert (H' : polling_disabled k' (browser a) = false) by by destruct k, k'.
    destruct (Hlive k' H') as (id & job & Htrig & Hjob). exists id, job.
    split; [by destruct k, k'|done].
Qed.

(** What a generation call raises carries the prefix of its kind, and what
    a thumbnail generation returns is a text. *)
Lemma generate_for_outcome (remote : Remote) (k : Kind) (ep content : str) :
  match generate_for py hooks_system_prompt thumbnails_system_prompt remote k ep content with
  | Ok r => k = thumbnails -> exists text, r = PStr text
  | Raise e => exists cause, e = Exception (failure_prefix k ++ str_of_exn py cause)
  end.
Proof.
  destruct k; unfold generate_for, generate_hooks, generate_thumbnails; cbn zeta.
  - destruct (bind _ _) as [r|e]; [done|by exists e].
  - destruct (bind _ _) as [r|e]; [intros _; by eexists|by exists e].
Qed.

Lemma elem_of_delete_other {A : Type} (l : list A) (i : nat) (x y : A) :
  l !! i = Some x -> y ∈ l -> y <> x -> y ∈ delete i l.
Proof.
  intros Hi Hy Hne. rewrite <- (take_drop_middle l i x Hi) in Hy.
  rewrite delete_take_drop.
  apply elem_of_app in Hy as [Hy|Hy]; [apply elem_of_app; by left|].
  apply elem_of_cons in Hy as [->|Hy]; [done|]. apply elem_of_app. by right.
Qed.

Lemma sound_after_finish (remote : Remote) (i : nat) (a : App) :
  sound a ->
  sound (thread_finishes py hooks_system_prompt thumbnails_system_prompt remote i a).
Proof.
  intros [Htk Hth Hgen Herr Htext Hstore Hlive]. unfold thread_finishes.
  destruct (threads (process a) !! i) as [t|] eqn:Hi; [|done].
  assert (Hin : t ∈ threads (process a)) by (by eapply list_elem_of_lookup_2).
  pose proof (Hth t Hin) as Hkind.
  pose proof (generate_for_outcome remote (target_kind t) (endpoint_name (process a))
                (target_blog_content t)) as Hout.
  unfold generate_in_background. cbn [endpoint_name].
  set (p0 := mkProcess (endpoint_name (process a)) (generation_status (process a))
                       (delete i (threads (process a)))).
  assert (Hjob : exists job,
             is_terminal (status job) = true /\
             (status job = error ->
              exists cause, result job
                            = PStr (ERROR_PREFIX ++ failure_prefix (target_kind t) ++ cause)) /\
             (status job = complete -> target_kind t = thumbnails ->
              exists text, result job = PStr text) /\
             match generate_for py hooks_system_prompt thumbnails_system_prompt remote
                     (target_kind t) (endpoint_name (process a)) (target_blog_content t) with
             | Ok r => registry_set (target_gen_id t) (mkJob complete r) p0
             | Raise e =>
                 registry_set (target_gen_id t)
                   (mkJob error (PStr (ERROR_PREFIX ++ str_of_exn py e))) p0
             end = registry_set (target_gen_id t) job p0).
  { revert Hout. destruct (generate_for _ _ _ _ _ _ _) as [r|e]; intros Hout.
    - exists (mkJob complete r). split; [done|]. split; [done|]. split; [|done].
      intros _. exact Hout.
    - destruct Hout as (cause & ->).
      exists (mkJob error (PStr (ERROR_PREFIX ++ failure_prefix (target_kind t)
                                 ++ str_of_exn py cause))).
      split; [done|]. split; [|done]. intros _. by eexists. }
  destruct Hjob as (job & Hterm & Herr' & Htext' & ->).
  assert (Hold : forall id' job',
             generation_status (registry_set (target_gen_id t) job p0) !! id' = Some job' ->
             (id' = target_gen_id t /\ job' = job) \/
             (id' <> target_gen_id t /\
              generation_status (process a) !! id' = Some job')).
  { intros id' job'. cbn. intros [[<- <-]|[? ?]]%lookup_insert_Some; auto. }
  split; cbn [process browser]; auto.
  - cbn. intros t' Hin'. apply Hth. by eapply list_elem_of_delete_inv.
  - intros id' job' [[-> ->]|[Hne H]]%Hold Hs.
    + rewrite Hs in Hterm. discriminate Hterm.
    + destruct (Hgen id' job' H Hs) as (Hr & t' & Hin' & Ht'). split; [done|].
      exists t'. split; [|done]. cbn. apply (elem_of_delete_other _ i t); [done|done|].
      intros ->. by apply Hne.
  - intros k id' job' Hk [[-> ->]|[_ H]]%Hold Hs; [|by apply (Herr k id')].
    rewrite (id_kind_unique _ _ _ Hk Hkind). by apply Herr'.
  - intros id' job' Hk [[-> ->]|[_ H]]%Hold Hs; [|by apply (Htext id')].
    apply Htext'; [done|]. symmetry. exact (id_kind_unique _ _ _ Hk Hkind).
  - intros k Hd. destruct (Hlive k Hd) as (id' & job' & Htrig & Hjob').
    destruct (decide (id' = target_gen_id t)) as [->|Hne].
    + exists (target_gen_id t), job. split; [done|]. cbn. apply lookup_insert_eq.
    + exists id', job'. split; [done|]. cbn. by rewrite lookup_insert_ne.
Qed.


Lemma click_clear_thumbnail_result (a : App) :
  result_data (thumbnail_panel (browser (click_clear py a))) = PNone \/
  result_data (thumbnail_panel (browser (click_clear py a)))
  = result_data (thumbnail_panel (browser a)).
Proof.
  unfold click_clear, clear_all, clear_thumbnails.
  destruct (clear_clicks (browser a) + 1 =? 0)%Z; cbn [browser].
  all: match goal with
       | |- context [run_display_thumbnail_results py ?b] =>
           destruct (run_display_result thumbnails b) as [E _];
           cbn [run_display] in E; rewrite E; clear E
       end.
  all: match goal with
       | |- context [run_display_results ?b] =>
           destruct (run_display_result hooks b) as [E _];
           cbn [run_display] in E; rewrite E; clear E
       end.
  all: cbn; auto.
Qed.

Lemma sound_after_clear (a : App) : sound a -> sound (click_clear py a).
Proof.
  intros [Htk Hth Hgen Herr Htext Hstore Hlive].
  destruct (click_clear_frame py a) as (Hp & _ & Htrig & Hdis).
  split.
  - intros k id. rewrite Htrig. apply Htk.
  - rewrite Hp. exact Hth.
  - rewrite Hp. exact Hgen.
  - rewrite Hp. exact Herr.
  - rewrite Hp. exact Htext.
  - by destruct (click_clear_thumbnail_result a) as [-> | ->].
  - intros k. rewrite Hdis, Htrig, Hp. apply Hlive.
Qed.

Lemma sound_after_edit (v : option str) (a : App) : sound a -> sound (edit_input v a).
Proof. intros [Htk Hth Hgen Herr Htext Hstore Hlive]. by split. Qed.

Lemma sound_step (a : App) (e : event) : sound a -> sound (step' a e).
Proof.
  destruct e; cbn [step].
  - apply sound_after_click.
  - apply sound_after_finish.
  - apply sound_after_tick.
  - apply sound_after_clear.
  - apply sound_after_edit.
Qed.

Lemma sound_run (es : list event) (a : App) : sound a -> sound (run' a es).
Proof.
  revert a. induction es as [|e es IH]; intros a Ha; [done|].
  cbn. apply IH. by apply sound_step.
Qed.

Lemma sound_initial (endpoint : str) : sound (initial_app endpoint).
Proof.
  split; cbn.
  - by intros [] id.
  - intros t Hin. by apply not_elem_of_nil in Hin.
  - intros id job Hj. by rewrite lookup_empty in Hj.
  - intros k id job _ Hj. by rewrite lookup_empty in Hj.
  - intros id job _ Hj. by rewrite lookup_empty in Hj.
  - done.
  - by intros [].
Qed.

Lemma reachable_sound (a : App) : reachable' a -> sound a.
Proof. intros (endpoint & es & ->). apply sound_run, sound_initial. Qed.

(** ** What the registry holds *)

(** X14.  In every reachable state, a thumbnails job in the registry holds a text
    once it is terminal and [None] before, and the result store of the
    thumbnails panel holds [None] or a text: callback 7 is never given a
    value it cannot split, and never raises. *)
Theorem thumbnail_results_are_texts (a : App) :
  reachable' a ->
  (forall n now job,
     generation_status (process a) !! make_gen_id thumbnails n now = Some job ->
     if is_terminal (status job) then exists text, result job = PStr text
     else result job = PNone) /\
  none_or_text (result_data (thumbnail_panel (browser a))) /\
  exists outputs,
    display_thumbnail_results py (result_data (thumbnail_panel (browser a))) = Ok outputs.
Proof.
  intros Hreach. destruct (reachable_sound a Hreach) as [_ _ Hgen Herr Htext Hstore _].
  split; [|split; [exact Hstore|]].
  - intros n now job Hjob.
    assert (Hk : id_of_kind thumbnails (make_gen_id thumbnails n now)) by (by exists n, now).
    destruct (status job) eqn:S; cbn [is_terminal].
    + by apply (Hgen _ job Hjob).
    + by apply (Htext _ job Hk Hjob).
    + destruct (Herr thumbnails _ job Hk Hjob S) as (cause & ->). by eexists.
  - destruct (result_data (thumbnail_panel (browser a))); try done; by eexists.
Qed.

(** X15.  In every reachable state a registry entry is [generating] exactly while
    the thread of its job runs, and it holds no result until then; and every
    running thread has its entry. *)
Theorem generating_exactly_while_the_thread_runs (a : App) (id : str) (job : Job) :
  reachable' a ->
  generation_status (process a) !! id = Some job ->
  (status job = generating <->
   exists t, t ∈ threads (process a) /\ target_gen_id t = id) /\
  (status job = generating -> result job = PNone) /\
  (forall t, t ∈ threads (process a) ->
             generation_status (process a) !! target_gen_id t
             = Some (mkJob generating PNone)).
Proof.
  intros Hreach Hjob.
  pose proof (reachable_consistent _ _ _ _ Hreach) as Hc.
  destruct (reachable_sound a Hreach) as [_ _ Hgen _ _ _ _].
  split; [split|split].
  - intros Hs. by apply (Hgen id job Hjob).
  - intros (t & Hin & <-). rewrite (threads_running a Hc t Hin) in Hjob.
    by injection Hjob as <-.
  - intros Hs. by apply (Hgen id job Hjob).
  - apply (threads_running a Hc).
Qed.

(** X16.  In every reachable state the result of a failed job is a text that
    starts with the cross mark and [ Error: ] followed by the prefix of the
    generator that made the id: [Failed to generate hooks: ] for an id
    [gen_...], [Failed to generate thumbnails: ] for an id [thumb_...]. *)
Theorem failed_jobs_hold_a_prefixed_message (a : App) (k : Kind) (n : Z)
    (now : str) (job : Job) :
  reachable' a ->
  generation_status (process a) !! make_gen_id k n now = Some job ->
  status job = error ->
  exists cause,
    result job
    = PStr (CROSS_MARK :: lit " Error: "
            ++ match k with
               | hooks => lit "Failed to generate hooks: "
               | thumbnails => lit "Failed to generate thumbnails: "
               end ++ cause).
Proof.
  intros Hreach Hjob Hs. destruct (reachable_sound a Hreach) as [_ _ _ Herr _ _ _].
  destruct (Herr k (make_gen_id k n now) job) as (cause & ->);
    [by exists n, now|done|done|].
  exists cause. by destruct k.
Qed.

(** ** Polling *)

Lemma with_tick_frame (k k' : Kind) (b : Browser) :
  trigger_of k' (with_tick k b) = trigger_of k' b /\
  polling_disabled k' (with_tick k b) = polling_disabled k' b /\
  view (with_tick k b) = view b /\
  intervals_of k (with_tick k b) = (intervals_of k b + 1)%Z.
Proof. by destruct k, k'. Qed.

Lemma id_of_kind_nonempty (k : Kind) (id : str) : id_of_kind k id -> id <> [].
Proof. intros (n & now & ->). apply make_gen_id_nonempty. Qed.

Lemma tick_terminal (k : Kind) (a : App) (id : str) (job : Job) :
  id <> [] ->
  trigger_of k (browser a) = Some id ->
  polling_disabled k (browser a) = false ->
  generation_status (process a) !! id = Some job ->
  is_terminal (status job) = true ->
  interval_fires py k a
  = mkApp (registry_del id (process a))
          (run_display py k (with_check k (result job, true) (with_tick k (browser a)))).
Proof.
  intros Hid Htrig Hd Hjob Hterm. unfold interval_fires. rewrite Hd.
  unfold run_check. cbn [process browser]. rewrite (poll_same k).
  rewrite (proj1 (with_tick_frame k k _)), Htrig.
  by rewrite (check_terminal _ id job _ Hid Hjob Hterm).
Qed.

Lemma tick_running (k : Kind) (a : App) (id : str) (job : Job) :
  id <> [] ->
  trigger_of k (browser a) = Some id ->
  polling_disabled k (browser a) = false ->
  generation_status (process a) !! id = Some job ->
  status job = generating ->
  interval_fires py k a
  = mkApp (process a)
          (run_display py k (with_check k (PNone, false) (with_tick k (browser a)))).
Proof.
  intros Hid Htrig Hd Hjob Hrun. unfold interval_fires. rewrite Hd.
  unfold run_check. cbn [process browser]. rewrite (poll_same k).
  rewrite (proj1 (with_tick_frame k k _)), Htrig.
  by rewrite (check_running _ id job _ Hid Hjob Hrun).
Qed.

(** X17.  In every reachable state an interval that is enabled has a job to poll:
    the trigger of its panel names a job of its kind that is in the
    registry.  Either that job is terminal, and the next tick consumes it
    and disables the interval, or it is generating, and its thread runs. *)
Theorem enabled_interval_has_a_job (a : App) (k : Kind) :
  reachable' a ->
  polling_disabled k (browser a) = false ->
  exists id job n now,
    trigger_of k (browser a) = Some id /\
    id = make_gen_id k n now /\
    generation_status (process a) !! id = Some job /\
    (is_terminal (status job) = true ->
     let a' := interval_fires py k a in
     generation_status (process a') !! id = None /\
     polling_disabled k (browser a') = true) /\
    (status job = generating ->
     exists i t, threads (process a) !! i = Some t /\
                 target_gen_id t = id /\ target_kind t = k).
Proof.
  intros Hreach Hd.
  destruct (reachable_sound a Hreach) as [Htk Hth Hgen _ _ _ Hlive].
  destruct (Hlive k Hd) as (id & job & Htrig & Hjob).
  destruct (Htk k id Htrig) as (n & now & Hid).
  exists id, job, n, now. split; [done|]. split; [done|]. split; [done|]. split.
  - intros Hterm a'. unfold a'.
    rewrite (tick_terminal k a id job); [|subst id; apply make_gen_id_nonempty|done..].
    cbn [process browser]. split; [cbn; apply lookup_delete_eq|].
    rewrite after_check_polling. by rewrite decide_True.
  - intros Hs. destruct (Hgen id job Hjob Hs) as (_ & t & Hin & Ht).
    apply list_elem_of_lookup_1 in Hin as [i Hi]. exists i, t.
    split; [done|]. split; [done|].
    apply (id_kind_unique _ _ id); [|by apply Htk].
    rewrite <- Ht. apply Hth. by eapply list_elem_of_lookup_2.
Qed.

Lemma view_after_none (k : Kind) (d : bool) (b : Browser) :
  view (run_display py k (with_check k (PNone, d) b)) = view b.
Proof. by destruct k. Qed.

(** X18.  Polling does not give up.  While the job that the trigger names is
    generating, any number of ticks of its interval leaves the process, the
    trigger and what the page shows as they were, and the interval
    enabled; only the tick counter advances. *)
Theorem polling_goes_on_while_generating (a : App) (k : Kind) (id : str)
    (job : Job) (n : nat) :
  reachable' a ->
  trigger_of k (browser a) = Some id ->
  generation_status (process a) !! id = Some job ->
  status job = generating ->
  polling_disabled k (browser a) = false ->
  let a' := run' a (repeat (Tick k) n) in
  process a' = process a /\
  trigger_of k (browser a') = Some id /\
  polling_disabled k (browser a') = false /\
  intervals_of k (browser a') = (intervals_of k (browser a) + Z.of_nat n)%Z /\
  view (browser a') = view (browser a).
Proof.
  intros Hreach Htrig Hjob Hrun Hd.
  assert (Hid : id <> []).
  { eapply issued_nonempty, (trigger_issued a (reachable_consistent _ _ _ _ Hreach) k id Htrig). }
  clear Hreach. cbv zeta. revert a Htrig Hjob Hd.
  induction n as [|n IH]; intros a Htrig Hjob Hd.
  - cbn. rewrite Z.add_0_r. done.
  - cbn [repeat run fold_left step].
    pose proof (tick_running k a id job Hid Htrig Hd Hjob Hrun) as E.
    assert (Ht1 : trigger_of k (browser (interval_fires py k a)) = Some id).
    { rewrite E. cbn [browser]. rewrite after_check_trigger.
      by rewrite (proj1 (with_tick_frame k k _)). }
    assert (Hj1 : generation_status (process (interval_fires py k a)) !! id = Some job)
      by (by rewrite E).
    assert (Hd1 : polling_disabled k (browser (interval_fires py k a)) = false).
    { rewrite E. cbn [browser]. rewrite after_check_polling. by rewrite decide_True. }
    destruct (IH _ Ht1 Hj1 Hd1) as (Hp & Ht & Hdis & Hn & Hv).
    fold (run' (interval_fires py k a) (repeat (Tick k) n)).
    rewrite Hp, Ht, Hdis, Hn, Hv. rewrite E. cbn [process browser].
    split; [done|]. split; [done|]. split; [done|]. split.
    + assert (Hi : intervals_of k (run_display py k
                     (with_check k (PNone, false) (with_tick k (browser a))))
                   = (intervals_of k (browser a) + 1)%Z) by (by destruct k).
      rewrite Hi. lia.
    + rewrite view_after_none. apply (with_tick_frame k k).
Qed.

(** X19.  A job that ends with the result [None] is consumed without a trace.
    When the page polls a terminal hooks job whose result is [None] (the
    content of the reply was a JSON null), the entry is deleted and the
    interval disabled, but nothing is displayed: the input, the loading
    indicator, the outputs and the copy stores stay as they were, and
    further ticks change nothing. *)
Theorem none_result_is_never_shown (a : App) (id : str) (job : Job) :
  reachable' a ->
  trigger_of hooks (browser a) = Some id ->
  polling_disabled hooks (browser a) = false ->
  generation_status (process a) !! id = Some job ->
  is_terminal (status job) = true ->
  result job = PNone ->
  let a' := interval_fires py hooks a in
  generation_status (process a') !! id = None /\
  polling_disabled hooks (browser a') = true /\
  view (browser a') = view (browser a) /\
  interval_fires py hooks a' = a'.
Proof.
  intros Hreach Htrig Hd Hjob Hterm Hres a'.
  assert (Hid : id <> []).
  { eapply issued_nonempty,
      (trigger_issued a (reachable_consistent _ _ _ _ Hreach) hooks id Htrig). }
  assert (E : a' = mkApp (registry_del id (process a))
                         (run_display py hooks
                            (with_check hooks (PNone, true) (with_tick hooks (browser a))))).
  { unfold a'. rewrite (tick_terminal hooks a id job Hid Htrig Hd Hjob Hterm).
    by rewrite Hres. }
  assert (Hd' : polling_disabled hooks (browser a') = true).
  { rewrite E. cbn [browser]. rewrite after_check_polling. by rewrite decide_True. }
  split; [rewrite E; cbn; apply lookup_delete_eq|]. split; [exact Hd'|]. split.
  - rewrite E. cbn [browser]. rewrite view_after_none. apply (with_tick_frame hooks hooks).
  - unfold interval_fires at 1. by rewrite Hd'.
Qed.

(** ** Jobs that are left behind *)

Lemma orphan_after_check (k : Kind) (a : App) (id : str) :
  orphan a id -> orphan (run_check py k a) id.
Proof.
  intros [Hsome Hno].
  destruct (run_check_cases k a)
    as [E|[(id' & job & Htrig & _ & _ & E)|(id' & job & _ & _ & _ & E)]];
    rewrite E; clear E; (split; cbn [process browser];
      [|intros k'; rewrite after_check_trigger; apply Hno]); try done.
  cbn. rewrite lookup_delete_ne; [done|]. intros ->. by apply (Hno k).
Qed.

Lemma orphan_step (a : App) (e : event) (id : str) :
  consistent a -> orphan a id -> orphan (step' a e) id.
Proof.
  intros Ha [Hsome Hno]. destruct e as [k now|remote i|k| |v]; cbn [step].
  - unfold click_generate.
    set (n := (clicks k (browser a) + 1)%Z).
    assert (Hne : make_gen_id k n now <> id).
    { intros <-. apply (next_id_not_issued k now (browser a)).
      by apply (registry_issued a Ha). }
    assert (Hmid : orphan (mkApp (snd (start_job k n (blog_input (browser a)) now (process a)))
                                 (with_start k (fst (start_job k n (blog_input (browser a))
                                                       now (process a))) n (browser a))) id).
    { destruct (start_job_cases k n (blog_input (browser a)) now (process a))
        as [(_ & E)|[(_ & _ & E)|(_ & _ & E)]]; rewrite E; cbn [fst snd].
      - split; cbn [process browser]; [done|].
        intros k'. rewrite with_start_trigger. case_decide; [done|apply Hno].
      - split; cbn [process browser].
        + cbn. by rewrite lookup_insert_ne.
        + intros k'. rewrite with_start_trigger. case_decide; [|apply Hno].
          cbn. intros [= E']. by apply Hne.
      - split; cbn [process browser]; [done|].
        intros k'. rewrite with_start_trigger. case_decide as Hk; [|apply Hno].
        subst k'. cbn. apply Hno. }
    destruct (start_job k n _ now (process a)) as [o p']. cbn [fst snd] in Hmid.
    destruct (writes_n_intervals o); [by apply orphan_after_check|done].
  - unfold thread_finishes.
    destruct (threads (process a) !! i) as [t|] eqn:Hti; [|done].
    destruct (generate_in_background_set py hooks_system_prompt thumbnails_system_prompt
                remote t
                (mkProcess (endpoint_name (process a)) (generation_status (process a))
                           (delete i (threads (process a)))))
      as (job & _ & ->).
    split; [|done]. cbn. apply lookup_insert_is_Some.
    destruct (decide (target_gen_id t = id)); auto.
  - unfold interval_fires. destruct (polling_disabled k (browser a)); [done|].
    apply orphan_after_check. split; [done|]. intros k'. cbn [browser].
    rewrite (proj1 (with_tick_frame k k' _)). apply Hno.
  - destruct (click_clear_frame py a) as (Hp & _ & Htrig & _).
    split; [by rewrite Hp|]. intros k. rewrite Htrig. apply Hno.
  - done.
Qed.

Lemma orphan_run (es : list event) (a : App) (id : str) :
  consistent a -> orphan a id -> orphan (run' a es) id.
Proof.
  revert a. induction es as [|e es IH]; intros a Ha Ho; [done|].
  cbn. apply IH; [by apply consistent_step|by apply orphan_step].
Qed.

(** X20.  Only the job that a trigger names is ever polled, so a job whose id no
    trigger names stays in the registry for good.  A click on a generate
    button while the job of the previous click is still in the registry
    (running, or finished and not yet polled) replaces the trigger and
    leaves that job behind; and from then on, whatever happens on the page,
    its entry is never deleted and no trigger names it again. *)
Theorem superseded_job_is_never_removed (a : App) (id : str) :
  reachable' a ->
  (forall k now,
     trigger_of k (browser a) = Some id ->
     is_Some (generation_status (process a) !! id) ->
     orphan (click_generate py k now a) id) /\
  (orphan a id -> forall es, orphan (run' a es) id).
Proof.
  intros Hreach. pose proof (reachable_consistent _ _ _ _ Hreach) as Ha.
  pose proof (reachable_sound a Hreach) as Hs. split.
  - intros k now Htrig Hsome.
    assert (Hid : id_of_kind k id) by (by apply (trigger_kind a Hs)).
    unfold click_generate.
    set (n := (clicks k (browser a) + 1)%Z).
    assert (Hne : make_gen_id k n now <> id).
    { intros <-. apply (next_id_not_issued k now (browser a)).
      by apply (registry_issued a Ha). }
    assert (Hmid : orphan (mkApp (snd (start_job k n (blog_input (browser a)) now (process a)))
                                 (with_start k (fst (start_job k n (blog_input (browser a))
                                                       now (process a))) n (browser a))) id).
    { assert (Hother : forall k', k' <> k -> trigger_of k' (browser a) <> Some id).
      { intros k' Hk H. apply Hk.
        exact (id_kind_unique _ _ id (trigger_kind a Hs k' id H) Hid). }
      destruct (start_job_cases k n (blog_input (browser a)) now (process a))
        as [(_ & E)|[(_ & _ & E)|(_ & Hn & E)]]; rewrite E; cbn [fst snd].
      - split; cbn [process browser]; [done|].
        intros k'. rewrite with_start_trigger. case_decide; [done|by apply Hother].
      - split; cbn [process browser].
        + cbn. by rewrite lookup_insert_ne.
        + intros k'. rewrite with_start_trigger. case_decide; [|by apply Hother].
          cbn. intros [= E']. by apply Hne.
      - pose proof (clicks_nonneg a Ha k). unfold n in Hn. lia. }
    destruct (start_job k n _ now (process a)) as [o p']. cbn [fst snd] in Hmid.
    destruct (writes_n_intervals o); [by apply orphan_after_check|done].
  - intros Ho es. by apply orphan_run.
Qed.

(** ** The two generators side by side *)

(** X21.  The callbacks of one generator leave the panel of the other as it is:
    a click on Generate Hooks and a tick of the hooks interval change
    nothing of the thumbnails panel (its click count, trigger, result,
    interval, container, output and copy store), and conversely.  In a
    reachable state a tick of one interval does not touch the registry
    entry that the other trigger names either.  (The loading indicator is
    not part of a panel: the two generators share it.) *)
Theorem generators_have_separate_panels (a : App) (now : str) :
  thumbnail_panel (browser (click_generate py hooks now a)) = thumbnail_panel (browser a) /\
  thumbnail_panel (browser (interval_fires py hooks a)) = thumbnail_panel (browser a) /\
  hook_panel (browser (click_generate py thumbnails now a)) = hook_panel (browser a) /\
  hook_panel (browser (interval_fires py thumbnails a)) = hook_panel (browser a) /\
  (reachable' a ->
   forall k k' id,
     k <> k' -> trigger_of k' (browser a) = Some id ->
     generation_status (process (interval_fires py k a)) !! id
     = generation_status (process a) !! id).
Proof.
  assert (Hcheck : forall a0,
             thumbnail_panel (browser (run_check py hooks a0)) = thumbnail_panel (browser a0) /\
             hook_panel (browser (run_check py thumbnails a0)) = hook_panel (browser a0)).
  { intros a0. unfold run_check. split.
    - destruct (poll hooks _ _ _) as [o p']. cbn [browser run_display].
      unfold run_display_results. by destruct (display_results _) as [[[? ?] ?] ?].
    - destruct (poll thumbnails _ _ _) as [o p']. cbn [browser run_display].
      unfold run_display_thumbnail_results.
      by destruct (display_thumbnail_results _ _) as [[[[? ?] ?] ?]|?]. }
  assert (Hclick : forall k a0,
             exists o p',
               click_generate py k now a0
               = (if writes_n_intervals o
                  then run_check py k
                         (mkApp p' (with_start k o (clicks k (browser a0) + 1) (browser a0)))
                  else mkApp p' (with_start k o (clicks k (browser a0) + 1) (browser a0)))).
  { intros k a0. unfold click_generate.
    destruct (start_job k _ _ now (process a0)) as [o p']. by exists o, p'. }
  split; [|split; [|split; [|split]]].
  - destruct (Hclick hooks a) as (o & p' & ->).
    destruct (writes_n_intervals o); [rewrite (proj1 (Hcheck _))|]; cbn [browser];
      by destruct o as [[[[? ?] ?] ?] ?].
  - unfold interval_fires. destruct (polling_disabled hooks (browser a)); [done|].
    by rewrite (proj1 (Hcheck _)).
  - destruct (Hclick thumbnails a) as (o & p' & ->).
    destruct (writes_n_intervals o); [rewrite (proj2 (Hcheck _))|]; cbn [browser];
      by destruct o as [[[[? ?] ?] ?] ?].
  - unfold interval_fires. destruct (polling_disabled thumbnails (browser a)); [done|].
    by rewrite (proj2 (Hcheck _)).
  - intros Hreach k k' id Hk Htrig.
    pose proof (reachable_sound a Hreach) as Hs.
    unfold interval_fires. destruct (polling_disabled k (browser a)); [done|].
    destruct (run_check_cases k (mkApp (process a) (with_tick k (browser a))))
      as [E|[(id' & job & Htrig' & _ & _ & E)|(id' & job & _ & _ & _ & E)]];
      rewrite E; clear E; cbn [process browser]; try done.
    cbn. rewrite lookup_delete_ne; [done|]. intros ->. apply Hk.
    cbn [browser] in Htrig'. rewrite (proj1 (with_tick_frame k k _)) in Htrig'.
    exact (id_kind_unique _ _ id (trigger_kind a Hs k id Htrig')
             (trigger_kind a Hs k' id Htrig)).
Qed.

End Sound.
(** ** From the click to the page *)

Section RoundTrip.

Context (py : Interpreter) (hooks_system_prompt thumbnails_system_prompt : str).

Local Abbreviation step' := (step py hooks_system_prompt thumbnails_system_prompt).
Local Abbreviation run' := (run py hooks_system_prompt thumbnails_system_prompt).
Local Abbreviation generate' :=
  (generate_for py hooks_system_prompt thumbnails_system_prompt).



Lemma endpoint_after_check (k : Kind) (a : App) :
  endpoint_name (process (run_check py k a)) = endpoint_name (process a).
Proof.
  destruct (run_check_effect py k a) as ([->|(id & job & _ & _ & ->)] & _); done.
Qed.

Lemma endpoint_step (a : App) (e : event) :
  endpoint_name (process (step' a e)) = endpoint_name (process a).
Proof.
  destruct e as [k now|remote i|k| |v]; cbn [step].
  - unfold click_generate.
    destruct (start_job_cases k (clicks k (browser a) + 1) (blog_input (browser a)) now
                (process a)) as [(_ & E)|[(_ & _ & E)|(_ & _ & E)]]; rewrite E;
      cbn [writes_n_intervals rejected started untouched];
      try rewrite endpoint_after_check; done.
  - unfold thread_finishes. destruct (threads (process a) !! i) as [t|]; [|done].
    cbn [process].
    by destruct (generate_in_background_set py hooks_system_prompt
                   thumbnails_system_prompt remote t
                   (mkProcess (endpoint_name (process a)) (generation_status (process a))
                              (delete i (threads (process a))))) as (job & _ & ->).
  - unfold interval_fires. destruct (polling_disabled k (browser a)); [done|].
    by rewrite endpoint_after_check.
  - by rewrite (proj1 (click_clear_frame py a)).
  - done.
Qed.

Lemma endpoint_run (es : list event) (a : App) :
  endpoint_name (process (run' a es)) = endpoint_name (process a).
Proof.
  revert a. induction es as [|e es IH]; intros a; [done|].
  change (endpoint_name (process (run' (step' a e) es)) = endpoint_name (process a)).
  by rewrite IH, endpoint_step.
Qed.

Lemma started_for_after_check (k0 : Kind) (a : App) (id : str) (k : Kind) (content : str) :
  started_for a id k content -> started_for (run_check py k0 a) id k content.
Proof.
  intros [Hi Ht]. destruct (run_check_effect py k0 a) as (Hp & Hclicks & _).
  split.
  - eapply issued_mono; [|exact Hi]. intros k'. rewrite Hclicks. lia.
  - intros t Hin. apply Ht.
    by destruct Hp as [E|(id' & job & _ & _ & E)]; rewrite E in Hin.
Qed.

Lemma started_for_step (a : App) (e : event) (id : str) (k : Kind) (content : str) :
  started_for a id k content -> started_for (step' a e) id k content.
Proof.
  intros [Hi Ht]. destruct e as [k0 now|remote i|k0| |v]; cbn [step].
  - unfold click_generate.
    set (n := (clicks k0 (browser a) + 1)%Z).
    assert (Hne : make_gen_id k0 n now <> id).
    { intros <-. by apply (next_id_not_issued k0 now (browser a)). }
    assert (Hmid : started_for
                     (mkApp (snd (start_job k0 n (blog_input (browser a)) now (process a)))
                            (with_start k0 (fst (start_job k0 n (blog_input (browser a))
                                                   now (process a))) n (browser a)))
                     id k content).
    { split; cbn [process browser].
      - eapply issued_mono; [|exact Hi]. intros k'. rewrite with_start_clicks.
        case_decide; [subst k'; unfold n|]; lia.
      - destruct (start_job_cases k0 n (blog_input (browser a)) now (process a))
          as [(_ & E)|[(_ & _ & E)|(_ & _ & E)]]; rewrite E; cbn [snd]; try exact Ht.
        cbn. intros t [Hin| ->%list_elem_of_singleton]%elem_of_app; [by apply Ht|].
        cbn. intros E'. by destruct Hne. }
    destruct (start_job k0 n _ now (process a)) as [o p']. cbn [fst snd] in Hmid.
    destruct (writes_n_intervals o); [by apply started_for_after_check|done].
  - unfold thread_finishes.
    destruct (threads (process a) !! i) as [t|] eqn:Hti; [|done].
    destruct (generate_in_background_set py hooks_system_prompt thumbnails_system_prompt
                remote t
                (mkProcess (endpoint_name (process a)) (generation_status (process a))
                           (delete i (threads (process a)))))
      as (job & _ & ->).
    split; [done|]. cbn. intros t' Hin'. apply Ht. by eapply list_elem_of_delete_inv.
  - unfold interval_fires. destruct (polling_disabled k0 (browser a)); [done|].
    apply started_for_after_check. split; [|done].
    destruct Hi as (k' & n & t & -> & Hle). exists k', n, t. split; [done|].
    by destruct k0, k'.
  - destruct (click_clear_frame py a) as (Hp & Hclicks & _).
    split.
    + eapply issued_mono; [|exact Hi]. intros k'. rewrite Hclicks. lia.
    + rewrite Hp. exact Ht.
  - done.
Qed.

Lemma started_for_run (es : list event) (a : App) (id : str) (k : Kind) (content : str) :
  started_for a id k content -> started_for (run' a es) id k content.
Proof.
  revert a. induction es as [|e es IH]; intros a H; [done|].
  cbn. apply IH. by apply started_for_step.
Qed.

(** The thread of a job, found running some time after the click that
    started it, writes the outcome of the generation for the text of that
    click. *)
Lemma thread_finishes_entry (endpoint : str) (earlier later : list event)
    (k : Kind) (now content : str) (remote : Remote) (i : nat) (t : Thread) :
  let a := run' (initial_app endpoint) earlier in
  let id := make_gen_id k (clicks k (browser a) + 1) now in
  let a1 := run' (click_generate py k now a) later in
  blog_input (browser a) = Some content ->
  threads (process a1) !! i = Some t ->
  target_gen_id t = id ->
  thread_finishes py hooks_system_prompt thumbnails_system_prompt remote i a1
  = mkApp (registry_set id (job_of py (generate' remote k endpoint content))
             (mkProcess (endpoint_name (process a1)) (generation_status (process a1))
                        (delete i (threads (process a1)))))
          (browser a1).
Proof.
  intros a id a1 Hinput Hi Hid.
  assert (Ha : consistent a) by apply consistent_run, consistent_initial.
  assert (Hstart : started_for (click_generate py k now a) id k content).
  { unfold click_generate. fold id.
    set (n := (clicks k (browser a) + 1)%Z) in *.
    assert (Hmid : started_for
                     (mkApp (snd (start_job k n (blog_input (browser a)) now (process a)))
                            (with_start k (fst (start_job k n (blog_input (browser a))
                                                  now (process a))) n (browser a)))
                     id k content).
    { assert (Hold : forall t', t' ∈ threads (process a) -> target_gen_id t' <> id).
      { intros t' Hin E. apply (next_id_not_issued k now (browser a)).
        fold n. fold id. rewrite <- E. by apply (threads_issued a Ha). }
      split; cbn [process browser].
      - exists k, n, now. split; [done|]. rewrite with_start_clicks.
        rewrite decide_True by done. pose proof (clicks_nonneg a Ha k). lia.
      - destruct (start_job_cases k n (blog_input (browser a)) now (process a))
          as [(_ & E)|[(_ & _ & E)|(_ & _ & E)]]; rewrite E; cbn [snd];
          try (intros t' Hin E'; by destruct (Hold t' Hin)).
        cbn. intros t' [Hin| ->%list_elem_of_singleton]%elem_of_app E'.
        + by destruct (Hold t' Hin).
        + cbn. by rewrite Hinput. }
    destruct (start_job k n _ now (process a)) as [o p']. cbn [fst snd] in Hmid.
    destruct (writes_n_intervals o);
      [by apply started_for_after_check|done]. }
  pose proof (started_for_run later _ id k content Hstart) as [_ Hthreads].
  fold a1 in Hthreads.
  destruct (Hthreads t (list_elem_of_lookup_2 _ _ _ Hi) Hid) as [Hk Hc].
  assert (Hep : endpoint_name (process a1) = endpoint).
  { unfold a1. rewrite endpoint_run. change (click_generate py k now a)
      with (step' a (Generate k now)). rewrite endpoint_step. unfold a.
    by rewrite endpoint_run. }
  unfold thread_finishes. rewrite Hi. unfold generate_in_background.
  cbn [endpoint_name target_kind]. rewrite Hk, Hc, Hid. rewrite Hep at 1.
  unfold job_of. by destruct (generate' remote k endpoint content).
Qed.

(** X22.  A job generates for the text of its click.  When a generate button is
    clicked with the text [content] in the input, then whatever happens on
    the page before the thread of the job ends (edits of the input, Clear,
    other clicks, ticks, other threads ending), the thread writes for the id
    of the job the outcome of the generation of its kind for [content] and
    for the endpoint the generator was built with: the result with status
    [complete], or the error text with status [error]. *)
Theorem job_generates_for_the_text_of_its_click (endpoint : str) (earlier later : list event)
    (k : Kind) (now content : str) (remote : Remote) (i : nat) (t : Thread) :
  let a := run' (initial_app endpoint) earlier in
  let id := make_gen_id k (clicks k (browser a) + 1) now in
  let a1 := run' (click_generate py k now a) later in
  blog_input (browser a) = Some content ->
  threads (process a1) !! i = Some t ->
  target_gen_id t = id ->
  generation_status
    (process (thread_finishes py hooks_system_prompt thumbnails_system_prompt remote i a1))
    !! id
  = Some (job_of py (generate' remote k endpoint content)).
Proof.
  intros a id a1 Hinput Hi Hid.
  pose proof (thread_finishes_entry endpoint earlier later k now content remote i t
                Hinput Hi Hid) as E. cbv zeta in E. fold a id a1 in E.
  rewrite E. cbn. apply lookup_insert_eq.
Qed.









End RoundTrip.


(** ** The style sheet *)

Section CssProperties.

Context (custom_css : str).

Lemma replace_go_skip (old new u v : str) :
  replace_go old new (length u) (u ++ v) = replace_go old new 0 v.
Proof. induction u as [|c u IH]; [reflexivity|]. exact IH. Qed.

Lemma replace_occurrence (old new s : str) :
  old <> [] ->
  replace old new (old ++ s) = new ++ replace old new s.
Proof.
  intros Hold. destruct old as [|c old]; [done|]. unfold replace.
  change ((c :: old) ++ s) with (c :: (old ++ s)). cbn [replace_go].
  change (c :: old ++ s) with ((c :: old) ++ s). rewrite startswith_app.
  f_equal. replace (length (c :: old) - 1)%nat with (length old) by (simpl; lia).
  apply replace_go_skip.
Qed.

Lemma replace_other (old new : str) (c : N) (s : str) :
  startswith old (c :: s) = false ->
  replace old new (c :: s) = c :: replace old new s.
Proof. intros H. unfold replace. cbn [replace_go]. by rewrite H. Qed.

Lemma replace_without (old new s : str) :
  contains old s = false -> replace old new s = s.
Proof.
  induction s as [|c s IH]; [done|]. intros H.
  apply contains_false_cons in H as [Hs Hc].
  rewrite replace_other by done. by rewrite IH.
Qed.

(** The tag starts with its only [<], so no occurrence of it straddles the
    start of another one. *)
Lemma head_end_not_astride (v r : str) :
  v <> [] ->
  contains HEAD_END v = false ->
  startswith HEAD_END (v ++ HEAD_END ++ r) = false.
Proof.
  intros Hv Hno. destruct (startswith _ _) eqn:E; [|reflexivity].
  destruct (decide (length HEAD_END <= length v)%nat) as [Hlen|Hlen].
  - apply startswith_prefix in E; [|done].
    by rewrite (startswith_contains _ _ E) in Hno.
  - change (length HEAD_END) with 7%nat in Hlen.
    assert (Hn : (0 < length v)%nat) by (destruct v; [done|simpl; lia]).
    pose proof (startswith_lookup _ _ (length v) E) as Hl.
    change (length HEAD_END) with 7%nat in Hl. specialize (Hl ltac:(lia)).
    rewrite lookup_app_r in Hl by lia. rewrite Nat.sub_diag in Hl.
    cbn [app lookup list_lookup] in Hl.
    change (HEAD_END ++ r) with (60 :: (drop 1 HEAD_END ++ r)) in Hl.
    cbn [lookup list_lookup] in Hl. clear -Hl Hn Hlen.
    destruct (length v) as [|j]; [lia|].
    do 6 (destruct j as [|j]; [discriminate Hl|]). lia.
Qed.

Lemma replace_before_head_end (new pre r : str) :
  contains HEAD_END pre = false ->
  replace HEAD_END new (pre ++ HEAD_END ++ r)
  = pre ++ replace HEAD_END new (HEAD_END ++ r).
Proof.
  induction pre as [|c pre IH]; intros Hno; [reflexivity|].
  change ((c :: pre) ++ HEAD_END ++ r) with (c :: (pre ++ HEAD_END ++ r)).
  rewrite replace_other.
  - cbn [app]. f_equal. apply IH. by apply contains_false_cons in Hno as [_ ?].
  - change (c :: pre ++ HEAD_END ++ r) with ((c :: pre) ++ HEAD_END ++ r).
    by apply head_end_not_astride.
Qed.

(** X24.  [_add_custom_css] puts the style element right before every closing
    head tag and changes nothing else: a page without the tag is left as it
    is (the style is then not added at all), and from the first tag on the
    rest of the page is treated the same way.  Hence it is not idempotent:
    on a page with one tag, running it a second time adds a second copy of
    the style element. *)
Theorem style_goes_before_each_head_end (pre post : str) :
  let style := lit "<style>" ++ custom_css ++ lit "</style>" in
  contains (lit "</head>") pre = false ->
  _add_custom_css custom_css pre = pre /\
  _add_custom_css custom_css (pre ++ lit "</head>" ++ post)
  = pre ++ style ++ lit "</head>" ++ _add_custom_css custom_css post /\
  (contains (lit "</head>") post = false ->
   contains (lit "</head>") (pre ++ style) = false ->
   _add_custom_css custom_css (_add_custom_css custom_css (pre ++ lit "</head>" ++ post))
   = pre ++ style ++ style ++ lit "</head>" ++ post).
Proof.
  intros style Hpre. fold HEAD_END in *. unfold _add_custom_css. fold HEAD_END.
  assert (Hnew : lit "<style>" ++ custom_css ++ lit "</style></head>"
                 = style ++ HEAD_END).
  { unfold style. rewrite <- !app_assoc. reflexivity. }
  rewrite Hnew.
  assert (Hone : forall u v, contains HEAD_END u = false ->
                   replace HEAD_END (style ++ HEAD_END) (u ++ HEAD_END ++ v)
                   = u ++ style ++ HEAD_END ++ replace HEAD_END (style ++ HEAD_END) v).
  { intros u v Hu. rewrite replace_before_head_end by done.
    rewrite replace_occurrence by done. by rewrite <- !app_assoc. }
  split; [by apply replace_without|]. split; [by apply Hone|].
  intros Hpost Hstyle. rewrite (Hone pre post Hpre).
  rewrite (replace_without _ _ post Hpost).
  replace (pre ++ style ++ HEAD_END ++ post) with ((pre ++ style) ++ HEAD_END ++ post)
    by (by rewrite <- !app_assoc).
  rewrite (Hone (pre ++ style) post Hstyle).
  rewrite (replace_without _ _ post Hpost). by rewrite <- !app_assoc.
Qed.

End CssProperties.

(** ** The claims that fail, at a concrete input *)

(** C5, refuted as stated.  The chat endpoint answers with a single message
    that has no [content]: the thread records the job as [complete], not as
    [error], with the text [Error: No content in response] as its result. *)
Lemma reply_without_content_completes :
  no_message_content reply_without_content /\
  generation_status
    (generate_in_background ascii_interpreter [] [] remote_without_content
       sample_thread (mkProcess (lit "chat") ∅ []))
  !! sample_id
  = Some (mkJob complete (PStr (lit "Error: No content in response"))) /\
  status (mkJob complete (PStr (lit "Error: No content in response"))) <> error.
Proof.
  split; [|split; [|discriminate]].
  - exists [(lit "messages", PList [PDict [(lit "role", PStr (lit "assistant"))]])],
           [PDict [(lit "role", PStr (lit "assistant"))]],
           [(lit "role", PStr (lit "assistant"))].
    repeat split.
  - apply lookup_insert_eq.
Qed.

(** C8, refuted as stated.  The concepts text holds a framed block and no
    image description: the payload generation returns is the text and the
    header; the hand-off shows the framed data [QUJD] as an image, and the
    copy payload it stores contains that data and its opening marker. *)
Lemma framed_concepts_are_copied :
  exists payload children copied,
    generate_thumbnails ascii_interpreter [] remote_framed (lit "chat") sample_draft
    = Ok payload /\
    display_thumbnail_text ascii_interpreter payload
    = (set children, set display_none, set display_block, set copied) /\
    children !! 2%nat
    = Some (ThumbnailImage (lit "Thumbnail 1") (lit "data:image/png;base64,QUJD")) /\
    contains (lit "QUJD") copied = true /\
    contains (lit "[BASE64_IMAGE_DATA]") copied = true.
Proof.
  eexists _, _, _. split; [vm_compute; reflexivity|].
  split; [vm_compute; reflexivity|].
  split; [reflexivity|]. split; vm_compute; reflexivity.
Qed.

(** ** The theorems at concrete inputs *)

Lemma app_ready_reachable : reachable ascii_interpreter [] [] app_ready.
Proof. by exists (lit "chat"), [Edit (Some sample_draft)]. Defined.

Lemma app_started_reachable : reachable ascii_interpreter [] [] app_started.
Proof.
  by exists (lit "chat"), [Edit (Some sample_draft); Generate hooks (lit "1.5")].
Defined.

Lemma app_finished_reachable : reachable ascii_interpreter [] [] app_finished.
Proof.
  by exists (lit "chat"),
            [Edit (Some sample_draft); Generate hooks (lit "1.5"); Finish remote_hooks 0].
Defined.

Lemma ascii_interpreter_digits : ascii_digits ascii_interpreter.
Proof. intros c _. reflexivity. Defined.

(** The finished sample job is consumed by its first poll. *)
Lemma consume_once_witness :
  generation_status (process app_finished) !! sample_id
    = Some (mkJob complete (PStr sample_hooks)) /\
  poll hooks 3 (Some sample_id) (process app_finished)
    = ((PStr sample_hooks, true), registry_del sample_id (process app_finished)) /\
  poll hooks 4 (Some sample_id) (registry_del sample_id (process app_finished))
    = ((PNone, true), registry_del sample_id (process app_finished)).
Proof.
  assert (Hjob : generation_status (process app_finished) !! sample_id
                 = Some (mkJob complete (PStr sample_hooks)))
    by (vm_compute; reflexivity).
  destruct (consume_once ascii_interpreter [] [] app_finished sample_id
              (mkJob complete (PStr sample_hooks)) app_finished_reachable Hjob eq_refl)
    as (Hfirst & _ & Hsecond & _).
  split; [exact Hjob|]. split; [apply Hfirst|apply Hsecond].
Defined.

(** The click on Generate Hooks with the sample draft. *)
Lemma start_registers_then_dispatches_witness :
  blog_input (browser app_ready) = Some sample_draft /\
  start_job hooks 1 (Some sample_draft) (lit "1.5") (process app_ready)
  = ((set (Some sample_id), set display_block, set display_none, set false, set 0%Z),
     thread_start sample_thread
       (registry_set sample_id (mkJob generating PNone) (process app_ready))) /\
  process (click_generate ascii_interpreter hooks (lit "1.5") app_ready)
  = thread_start sample_thread
      (registry_set sample_id (mkJob generating PNone) (process app_ready)).
Proof.
  assert (Hnb : Exists (fun c => isspace c = false) sample_draft)
    by (by apply Exists_cons_hd).
  destruct (start_registers_then_dispatches ascii_interpreter [] [] hooks
              (lit "1.5") sample_draft Hnb) as (Hcall & Hclick).
  split; [reflexivity|]. split.
  - by destruct (Hcall 1%Z (process app_ready) eq_refl) as (Hstart & _).
  - by destruct (Hclick app_ready app_ready_reachable eq_refl) as (_ & _ & Hp & _).
Defined.

(** A request made of two spaces and a newline. *)
Lemma blank_request_is_rejected_witness :
  start_generation 1 (Some [32; 32; 10]) (lit "1.5") (mkProcess (lit "chat") ∅ [])
  = ((set None, set display_none, set display_block, set true, set 0%Z),
     mkProcess (lit "chat") ∅ []).
Proof.
  apply (blank_request_is_rejected 1 (Some [32; 32; 10]) (lit "1.5")
           (mkProcess (lit "chat") ∅ [])).
  intros s [= <-]. repeat constructor.
Defined.

(** The sample thread, the chat call timing out. *)
Lemma raising_generation_is_recorded_witness :
  threads (process app_started) !! 0%nat = Some sample_thread /\
  generation_status
    (process (thread_finishes ascii_interpreter [] [] remote_raising 0 app_started))
  = <[sample_id :=
        mkJob error (PStr (CROSS_MARK :: lit " Error: Failed to generate hooks: timeout"))]>
      (generation_status (process app_started)).
Proof.
  assert (Hi : threads (process app_started) !! 0%nat = Some sample_thread)
    by reflexivity.
  destruct (raising_generation_is_recorded ascii_interpreter [] [] app_started 0
              sample_thread remote_raising
              (Exception (lit "Failed to generate hooks: timeout"))
              app_started_reachable Hi eq_refl) as (Hreg & _).
  split; [exact Hi|exact Hreg].
Defined.

(** The reply without content, and the chat call timing out. *)
Lemma raised_failures_are_recorded_witness :
  generate_in_background ascii_interpreter [] [] remote_without_content sample_thread
    (mkProcess (lit "chat") ∅ [])
  = registry_set sample_id (mkJob complete (PStr NO_CONTENT))
      (mkProcess (lit "chat") ∅ []) /\
  generate_in_background ascii_interpreter [] [] remote_raising sample_thread
    (mkProcess (lit "chat") ∅ [])
  = registry_set sample_id
      (mkJob error (PStr (CROSS_MARK :: lit " Error: Failed to generate hooks: timeout")))
      (mkProcess (lit "chat") ∅ []).
Proof.
  assert (Hs : forall remote, endpoint_task remote = (fun _ => Ok (PStr (lit "llm/v1/chat"))) ->
                              supported remote (lit "chat")).
  { intros remote E. exists (PStr (lit "llm/v1/chat")). rewrite E. by split. }
  split.
  - destruct (raised_failures_are_recorded ascii_interpreter [] [] remote_without_content
                sample_thread (mkProcess (lit "chat") ∅ []))
      as (_ & _ & _ & _ & H).
    destruct (H (Hs remote_without_content eq_refl)) as (_ & Hreply).
    destruct (Hreply reply_without_content eq_refl) as (_ & _ & _ & Hno).
    apply Hno.
    exists [(lit "messages", PList [PDict [(lit "role", PStr (lit "assistant"))]])],
           [PDict [(lit "role", PStr (lit "assistant"))]],
           [(lit "role", PStr (lit "assistant"))].
    repeat split.
  - destruct (raised_failures_are_recorded ascii_interpreter [] [] remote_raising
                sample_thread (mkProcess (lit "chat") ∅ []))
      as (_ & _ & _ & _ & H).
    destruct (H (Hs remote_raising eq_refl)) as (Hraise & _).
    apply (Hraise (Exception (lit "timeout"))). reflexivity.
Defined.

(** A poll without a job id. *)
Lemma poll_unknown_id_is_inert_witness :
  check_generation_status 7 None (process app_started)
  = ((PNone, true), process app_started).
Proof.
  apply (poll_unknown_id_is_inert 7 None (process app_started)). intros id [=].
Defined.


(** The sample concepts: the first image succeeds, the second fails. *)
Lemma thumbnail_payload_has_one_block_per_description_witness :
  generate_thumbnails ascii_interpreter [] remote_thumbnails (lit "chat") sample_draft
  = Ok (sample_concepts
        ++ ([NL; NL] ++ times 61 50 ++ [NL] ++ PALETTE :: lit " GENERATED IMAGES"
            ++ [NL] ++ times 61 50 ++ [NL; NL])
        ++ (lit "Image 1:" ++ [NL] ++ lit "[BASE64_IMAGE_DATA]" ++ [NL] ++ lit "QUJD"
            ++ [NL] ++ lit "[END_IMAGE_DATA]" ++ [NL; NL])
        ++ (lit "Image 2: " ++ [CROSS_MARK] ++ lit " Failed to generate" ++ [NL; NL])).
Proof.
  destruct (thumbnail_payload_has_one_block_per_description ascii_interpreter []
              remote_thumbnails (lit "chat") sample_draft sample_concepts eq_refl)
    as (Hpayload & _).
  rewrite Hpayload. vm_compute. reflexivity.
Defined.

Lemma thumbnail_handoff_splits_at_marker_witness :
  exists payload,
    generate_thumbnails ascii_interpreter [] remote_thumbnails (lit "chat") sample_draft
    = Ok payload /\
    display_thumbnail_text ascii_interpreter payload
    = (set [ThumbnailConcepts (sample_concepts ++ [NL; NL] ++ times 61 50);
            GeneratedImagesHeading;
            ThumbnailImage (lit "Thumbnail 1") (lit "data:image/png;base64,QUJD")],
       set display_none, set display_block,
       set (sample_concepts ++ [NL; NL] ++ times 61 50)).
Proof.
  assert (Himages :
            Forall base64_or_failed
              (imap (fun i desc => _generate_image remote_thumbnails (S i) (strip desc))
                    (take 2 (findall ascii_interpreter IMAGE_DESCRIPTION_RE sample_concepts)))).
  { assert (E : imap (fun i desc => _generate_image remote_thumbnails (S i) (strip desc))
                     (take 2 (findall ascii_interpreter IMAGE_DESCRIPTION_RE sample_concepts))
                = [PStr (lit "QUJD"); PStr []]) by (vm_compute; reflexivity).
    rewrite E. apply Forall_cons. split.
    - right. exists (lit "QUJD"). split; [reflexivity|]. split; [discriminate|].
      repeat constructor.
    - apply Forall_cons. split; [by left|apply Forall_nil_2]. }
  destruct (thumbnail_handoff_splits_at_marker ascii_interpreter [] remote_thumbnails
              (lit "chat") sample_draft sample_concepts ascii_interpreter_digits
              eq_refl eq_refl Himages)
    as (payload & after & parts & Hgen & _ & _ & Hhead & Hshow & _).
  exists payload. split; [exact Hgen|].
  rewrite Hshow, (Hhead eq_refl). vm_compute. reflexivity.
Defined.

(** Clear is clicked while the sample job is in flight. *)
Lemma clear_only_resets_the_page_witness :
  process (click_clear ascii_interpreter app_started) = process app_started /\
  exists job,
    generation_status
      (process (thread_finishes ascii_interpreter [] [] remote_hooks 0
                  (click_clear ascii_interpreter app_started)))
    !! sample_id = Some job /\
    (result job <> PNone ->
     shows ascii_interpreter hooks
       (browser (interval_fires ascii_interpreter hooks
                   (thread_finishes ascii_interpreter [] [] remote_hooks 0
                      (click_clear ascii_interpreter app_started))))
       (result job)).
Proof.
  destruct (clear_only_resets_the_page ascii_interpreter [] [] app_started)
    as (Hprocess & _ & _ & Hflight).
  split; [exact Hprocess|].
  destruct (Hflight app_started_reachable 0%nat sample_thread remote_hooks
              eq_refl eq_refl eq_refl) as (job & _ & Hjob & _ & _ & Hshown).
  exists job. split; [exact Hjob|exact Hshown].
Defined.

(** ** The further properties at concrete inputs *)

Lemma remote_replying_supported (reply : pyval) :
  supported (remote_replying reply) (lit "chat").
Proof. exists (PStr (lit "llm/v1/chat")). by split. Defined.

Lemma app_failed_reachable : reachable ascii_interpreter [] [] app_failed.
Proof.
  by exists (lit "chat"),
            [Edit (Some sample_draft); Generate hooks (lit "1.5"); Finish remote_raising 0].
Defined.

Lemma app_null_reachable : reachable ascii_interpreter [] [] app_null.
Proof.
  by exists (lit "chat"),
            [Edit (Some sample_draft); Generate hooks (lit "1.5");
             Finish (remote_replying reply_null_content) 0].
Defined.

Lemma app_thumbnails_reachable : reachable ascii_interpreter [] [] app_thumbnails.
Proof.
  by exists (lit "chat"),
            [Edit (Some sample_draft); Generate thumbnails (lit "2.5");
             Finish remote_thumbnails 0; Tick thumbnails].
Defined.

(** An endpoint for embeddings. *)
Lemma unsupported_endpoint_is_not_queried_witness :
  _query_endpoint remote_embeddings (lit "chat") PNone 10
  = _query_endpoint
      {| endpoint_task := endpoint_task remote_embeddings;
         chat_predict := fun _ _ _ => Raise (Exception (lit "down"));
         image_predict := image_predict remote_embeddings |} (lit "chat") PNone 10.
Proof.
  refine (proj1 (proj2 (unsupported_endpoint_is_not_queried remote_embeddings _
                          (lit "chat") PNone 10 eq_refl _))).
  vm_compute. discriminate.
Defined.

(** A reply with both [messages] and [choices]. *)
Lemma messages_reply_is_returned_as_it_is_witness :
  query_endpoint (remote_replying reply_with_both) (lit "chat") PNone 10
  = Ok (PDict [(lit "role", PStr (lit "assistant"));
               (lit "content", PStr (lit "from messages"))]).
Proof.
  destruct (messages_reply_is_returned_as_it_is (remote_replying reply_with_both)
              (lit "chat") PNone 10 _ _ (remote_replying_supported _) eq_refl eq_refl)
    as (_ & Hlast & _).
  by apply (Hlast _ _ eq_refl).
Defined.

(** The sample hooks, as the content of the only choice. *)
Lemma first_choice_text_is_returned_verbatim_witness :
  generate_hooks ascii_interpreter [] (remote_replying (choice_reply (PStr sample_hooks)))
    (lit "chat") sample_draft
  = Ok (PStr sample_hooks).
Proof.
  destruct (first_choice_text_is_returned_verbatim ascii_interpreter [] []
              (remote_replying (choice_reply (PStr sample_hooks))) (lit "chat")
              sample_draft (choice_reply (PStr sample_hooks))
              [(lit "role", PStr (lit "assistant")); (lit "content", PStr sample_hooks)]
              sample_hooks (remote_replying_supported _) (fun _ => eq_refl))
    as (_ & _ & Hhooks & _); [|reflexivity|exact Hhooks].
  by eexists _, _, _.
Defined.

(** Two texts around an image. *)
Lemma structured_content_is_flattened_witness :
  query_endpoint (remote_replying (choice_reply (PList (PDict <$> sample_parts))))
    (lit "chat") PNone 10
  = Ok (PDict [(lit "role", PStr (lit "assistant"));
               (lit "content", PStr (lit "Skew Hell"))]).
Proof.
  destruct (structured_content_is_flattened
              (remote_replying (choice_reply (PList (PDict <$> sample_parts))))
              (lit "chat") PNone 10 _
              [(lit "role", PStr (lit "assistant"));
               (lit "content", PList (PDict <$> sample_parts))]
              sample_parts (remote_replying_supported _) eq_refl)
    as (_ & Hlast); [by eexists _, _, _|reflexivity| |exact Hlast].
  repeat (apply Forall_cons; split;
            [vm_compute; first [exact I|intros _; by eexists]|]).
  apply Forall_nil_2.
Defined.

(** A bare text among the parts. *)
Lemma malformed_parts_raise_witness :
  _query_endpoint
    (remote_replying (choice_reply (PList [PDict [(lit "type", PStr (lit "text"))];
                                           PStr (lit "oops")])))
    (lit "chat") PNone 10
  = Raise (Interp (NoAttribute (PStr (lit "oops")))).
Proof.
  destruct (malformed_parts_raise
              (remote_replying (choice_reply (PList [PDict [(lit "type", PStr (lit "text"))];
                                                     PStr (lit "oops")])))
              (lit "chat") PNone 10 _
              [(lit "role", PStr (lit "assistant"));
               (lit "content", PList [PDict [(lit "type", PStr (lit "text"))];
                                      PStr (lit "oops")])]
              (remote_replying_supported _) eq_refl)
    as (Hbad & _); [by eexists _, _, _|].
  by apply (Hbad [[(lit "type", PStr (lit "text"))]] (PStr (lit "oops")) []).
Defined.

(** An empty list of choices. *)
Lemma malformed_choices_raise_witness :
  _query_endpoint (remote_replying (PDict [(lit "choices", PList [])])) (lit "chat") PNone 10
  = Raise (Interp (IndexOutOfRange (PList []))).
Proof.
  destruct (malformed_choices_raise (remote_replying (PDict [(lit "choices", PList [])]))
              (lit "chat") PNone 10 _ (remote_replying_supported _) eq_refl)
    as (Hdict & _).
  destruct (Hdict _ eq_refl eq_refl) as (Hempty & _). by apply Hempty.
Defined.

(** A JSON null as content. *)
Lemma content_that_is_not_text_witness :
  generate_hooks ascii_interpreter [] (remote_replying reply_null_content)
    (lit "chat") sample_draft = Ok PNone /\
  generate_thumbnails ascii_interpreter [] (remote_replying reply_null_content)
    (lit "chat") sample_draft
  = Raise (Exception (lit "Failed to generate thumbnails: error")).
Proof.
  apply (content_that_is_not_text ascii_interpreter [] []
           (remote_replying reply_null_content) (lit "chat") sample_draft
           reply_null_content
           [(lit "role", PStr (lit "assistant")); (lit "content", PNone)] PNone
           (remote_replying_supported _) (fun _ => eq_refl)); [|reflexivity|done].
  by eexists _, _.
Defined.

(** The first description of the sample concepts. *)
Lemma description_is_the_line_after_the_key_witness :
  findall ascii_interpreter IMAGE_DESCRIPTION_RE sample_concepts
  = lit "A melting cluster."
    :: findall ascii_interpreter IMAGE_DESCRIPTION_RE
         ([NL; NL] ++ lit "2." ++ [NL] ++ lit "THUMBNAIL_TEXT: Shuffle Tax" ++ [NL]
          ++ lit "IMAGE_DESCRIPTION: A calm pipeline.").
Proof.
  apply (description_is_the_line_after_the_key ascii_interpreter
           (lit "1." ++ [NL] ++ lit "THUMBNAIL_TEXT: Skew Hell" ++ [NL])
           [32] (lit "A melting cluster.")
           ([NL; NL] ++ lit "2." ++ [NL] ++ lit "THUMBNAIL_TEXT: Shuffle Tax" ++ [NL]
            ++ lit "IMAGE_DESCRIPTION: A calm pipeline.")
           ascii_interpreter_digits eq_refl).
  - by repeat constructor.
  - split; [reflexivity|]. vm_compute.
    repeat (apply Forall_cons; split; [done|]). apply Forall_nil_2.
  - right. right. left. by eexists.
Defined.

(** The sample hooks hold no description. *)
Lemma no_description_no_image_witness :
  generate_thumbnails ascii_interpreter []
    (remote_replying (choice_reply (PStr sample_hooks))) (lit "chat") sample_draft
  = Ok (sample_hooks ++ [NL; NL] ++ times 61 50 ++ [NL] ++ PALETTE :: lit " GENERATED IMAGES"
        ++ [NL] ++ times 61 50 ++ [NL; NL]).
Proof.
  by destruct (no_description_no_image ascii_interpreter []
                 (remote_replying (choice_reply (PStr sample_hooks))) (lit "chat")
                 sample_draft sample_hooks ascii_interpreter_digits eq_refl eq_refl)
    as (H & _).
Defined.

(** The two descriptions of the sample concepts: one image, one failure. *)
Lemma first_two_descriptions_are_illustrated_witness :
  take 2 (findall ascii_interpreter IMAGE_DESCRIPTION_RE sample_concepts)
  = [lit "A melting cluster."; lit "A calm pipeline."] /\
  generate_thumbnails ascii_interpreter [] remote_thumbnails (lit "chat") sample_draft
  = Ok (sample_concepts ++ IMAGES_HEADER
        ++ image_block ascii_interpreter 1 (PStr (lit "QUJD"))
        ++ image_block ascii_interpreter 2 (PStr [])).
Proof.
  assert (Hline : forall d, d = lit "A melting cluster." \/ d = lit "A calm pipeline." ->
                            one_line d).
  { intros d [-> | ->]; (split; [reflexivity|]); vm_compute;
      repeat (apply Forall_cons; split; [done|]); apply Forall_nil_2. }
  apply (first_two_descriptions_are_illustrated ascii_interpreter [] remote_thumbnails
           (lit "chat") sample_draft
           (lit "1." ++ [NL] ++ lit "THUMBNAIL_TEXT: Skew Hell" ++ [NL])
           [32] (lit "A melting cluster.")
           (lit "2." ++ [NL] ++ lit "THUMBNAIL_TEXT: Shuffle Tax" ++ [NL])
           [32] (lit "A calm pipeline.") []
           ascii_interpreter_digits eq_refl eq_refl eq_refl).
  - by repeat constructor.
  - by repeat constructor.
  - apply Hline. by left.
  - apply Hline. by right.
  - by left.
Defined.

(** The thumbnails job of the sample, polled. *)
Lemma thumbnail_results_are_texts_witness :
  exists outputs,
    display_thumbnail_results ascii_interpreter
      (result_data (thumbnail_panel (browser app_thumbnails))) = Ok outputs.
Proof.
  by destruct (thumbnail_results_are_texts ascii_interpreter [] [] app_thumbnails
                 app_thumbnails_reachable) as (_ & _ & H).
Defined.

(** The sample job while its thread runs. *)
Lemma generating_exactly_while_the_thread_runs_witness :
  generation_status (process app_started) !! sample_id = Some (mkJob generating PNone) /\
  exists t, t ∈ threads (process app_started) /\ target_gen_id t = sample_id.
Proof.
  assert (Hjob : generation_status (process app_started) !! sample_id
                 = Some (mkJob generating PNone)) by (vm_compute; reflexivity).
  destruct (generating_exactly_while_the_thread_runs ascii_interpreter [] [] app_started
              sample_id _ app_started_reachable Hjob) as ([Hthread _] & _).
  split; [exact Hjob|]. by apply Hthread.
Defined.

(** The sample job, the chat call timing out. *)
Lemma failed_jobs_hold_a_prefixed_message_witness :
  exists cause,
    PStr (CROSS_MARK :: lit " Error: Failed to generate hooks: timeout")
    = PStr (CROSS_MARK :: lit " Error: " ++ lit "Failed to generate hooks: " ++ cause).
Proof.
  apply (failed_jobs_hold_a_prefixed_message ascii_interpreter [] [] app_failed hooks 1
           (lit "1.5")
           (mkJob error (PStr (CROSS_MARK :: lit " Error: Failed to generate hooks: timeout")))
           app_failed_reachable); [vm_compute|]; reflexivity.
Defined.

(** The page polls the sample job. *)
Lemma enabled_interval_has_a_job_witness :
  exists id job n now,
    trigger_of hooks (browser app_started) = Some id /\
    id = make_gen_id hooks n now /\
    generation_status (process app_started) !! id = Some job.
Proof.
  destruct (enabled_interval_has_a_job ascii_interpreter [] [] app_started hooks
              app_started_reachable eq_refl)
    as (id & job & n & now & Htrig & Hid & Hjob & _).
  by exists id, job, n, now.
Defined.

(** Three ticks while the sample job runs. *)
Lemma polling_goes_on_while_generating_witness :
  let a' := run ascii_interpreter [] [] app_started [Tick hooks; Tick hooks; Tick hooks] in
  process a' = process app_started /\
  polling_disabled hooks (browser a') = false /\
  intervals_of hooks (browser a') = 3%Z.
Proof.
  assert (Hjob : generation_status (process app_started) !! sample_id
                 = Some (mkJob generating PNone)) by (vm_compute; reflexivity).
  destruct (polling_goes_on_while_generating ascii_interpreter [] [] app_started hooks
              sample_id _ 3 app_started_reachable eq_refl Hjob eq_refl eq_refl)
    as (Hp & _ & Hd & Hn & _).
  split; [exact Hp|]. split; [exact Hd|exact Hn].
Defined.

(** The sample job, ended with a null content, is polled. *)
Lemma none_result_is_never_shown_witness :
  generation_status (process app_null) !! sample_id = Some (mkJob complete PNone) /\
  loading_style (browser app_null) = display_block /\
  view (browser (interval_fires ascii_interpreter hooks app_null)) = view (browser app_null) /\
  polling_disabled hooks (browser (interval_fires ascii_interpreter hooks app_null)) = true.
Proof.
  assert (Hjob : generation_status (process app_null) !! sample_id
                 = Some (mkJob complete PNone)) by (vm_compute; reflexivity).
  destruct (none_result_is_never_shown ascii_interpreter [] [] app_null sample_id _
              app_null_reachable eq_refl eq_refl Hjob eq_refl eq_refl)
    as (_ & Hd & Hv & _).
  split; [exact Hjob|]. split; [reflexivity|]. split; [exact Hv|exact Hd].
Defined.

(** Generate Hooks is clicked again while the sample job runs, and the
    first job ends. *)
Lemma superseded_job_is_never_removed_witness :
  orphan (run ascii_interpreter [] []
            (click_generate ascii_interpreter hooks (lit "2.5") app_started)
            [Finish remote_hooks 0; Tick hooks; Clear])
         sample_id.
Proof.
  destruct (superseded_job_is_never_removed ascii_interpreter [] [] app_started sample_id
              app_started_reachable) as (Hclick & _).
  assert (Ho : orphan (click_generate ascii_interpreter hooks (lit "2.5") app_started)
                      sample_id).
  { apply Hclick; [reflexivity|]. vm_compute. by eexists. }
  assert (Hr : reachable ascii_interpreter [] []
                 (click_generate ascii_interpreter hooks (lit "2.5") app_started)).
  { by exists (lit "chat"),
              [Edit (Some sample_draft); Generate hooks (lit "1.5");
               Generate hooks (lit "2.5")]. }
  destruct (superseded_job_is_never_removed ascii_interpreter [] [] _ sample_id Hr)
    as (_ & Hrun).
  by apply Hrun.
Defined.

(** The skeleton of a page, with a one-rule style sheet. *)
Lemma style_goes_before_each_head_end_witness :
  _add_custom_css (lit "body{}") (sample_index ++ lit "</head>" ++ lit "<body></body></html>")
  = lit "<html><head><title>Dash</title><style>body{}</style></head><body></body></html>".
Proof.
  destruct (style_goes_before_each_head_end (lit "body{}") sample_index
              (lit "<body></body></html>") eq_refl) as (_ & Hone & _).
  rewrite Hone. vm_compute. reflexivity.
Defined.

(** The hooks of the sample do not depend on the image service. *)
Lemma generation_asks_one_question_witness :
  generate_for ascii_interpreter [] [] remote_hooks hooks (lit "chat") sample_draft
  = generate_for ascii_interpreter [] [] (remote_replying (chat_reply sample_hooks)) hooks
      (lit "chat") sample_draft.
Proof.
  apply (generation_asks_one_question ascii_interpreter [] [] remote_hooks
           (remote_replying (chat_reply sample_hooks)) hooks (lit "chat") sample_draft
           eq_refl eq_refl).
  intros [=].
Defined.

(** The input is cleared and edited while the sample job runs. *)
Lemma job_generates_for_the_text_of_its_click_witness :
  generation_status
    (process (thread_finishes ascii_interpreter [] [] remote_hooks 0
                (run ascii_interpreter [] []
                   (click_generate ascii_interpreter hooks (lit "1.5") app_ready)
                   [Clear; Edit (Some (lit "another draft"))])))
    !! sample_id
  = Some (mkJob complete (PStr sample_hooks)).
Proof.
  exact (job_generates_for_the_text_of_its_click ascii_interpreter [] [] (lit "chat")
           [Edit (Some sample_draft)] [Clear; Edit (Some (lit "another draft"))]
           hooks (lit "1.5") sample_draft remote_hooks 0 sample_thread
           eq_refl eq_refl eq_refl).
Defined.

